(** * Godown Manager: the stock-ledger bookkeeping of [src/App.jsx]

    A shallow embedding of the handlers of the [App] component and of the
    document store they write to, followed by the properties of the
    specification that are about them.

    Modelling decisions, all visible in the definitions below:

    - Quantities and prices are JavaScript numbers.  The handlers are
      modelled on whole quantities, as [Z], so [Number(x)] is the identity
      and [+], [-], [<] are exact; this is what the code computes on safe
      integers ([safeInteger]), and a property that rests on more than one
      addition or subtraction of the code says so.  The dashboard, where
      the code tells [NaN] and 0 from the other numbers, is modelled on
      the numbers themselves (binary64, [PrimFloat]).
    - The document store (Firestore) is a record of five collections, each
      a list of documents in the order the store enumerates them.  A
      created document gets the next identifier of a counter and is put at
      the end; the store itself hands out random identifiers and
      enumerates by identifier, so where a new document stands among the
      others is a choice of the model.  [updateDoc] of a missing document
      is rejected by the store; [deleteDoc] of a missing document is not.
      [serverTimestamp()] fields are left out.
    - Strings are sequences of bytes; [trim] removes the white space that
      one byte holds (blank, tab, line feed, vertical tab, form feed,
      carriage return), not the other white space of Unicode.
    - [feeds], [godown], ... are React state: constants of the render in
      which a handler was created.  A handler keeps reading the snapshot it
      captured, also after [fetchAll] has stored a newer one with
      [setGodown]; the newer one is what the next render, and the handlers
      created by it, see.  So every handler takes the captured snapshot as
      an argument [cap], and [fetchAll] writes the field [ui] of the world.
    - [alert] appends to the list of notifications of the world. *)

From Stdlib Require Import Floats.
From Stdlib Require Import ZArith String Ascii List Lia.
From stdpp Require Import base option list strings gmap.

Open Scope string_scope.
Open Scope list_scope.

#[local] Set Warnings "-clear-no-such-hyp".

(** ** Data *)

Definition DocId := nat.

(** [{ id: d.id, ...d.data() }] *)
Record Doc (A : Type) := mkDoc { docId : DocId; docData : A }.
Arguments mkDoc {A} _ _.
Arguments docId {A} _.
Arguments docData {A} _.

(** [{feedId, quantity}]: a movement item, a line of a truck's onboard
    stock and the fields of a [godownStock] document. *)
Record Item := mkItem { feedId : DocId; quantity : Z }.

Record Feed := mkFeed { name : string; category : string; price : Z }.

(** A document of [trucks]: a movement record has [type], [destinations]
    and [items]; a record used for direct transfer has [stock]; an update
    merges fields, so one document can have both. *)
Record Truck := mkTruck {
  truckNumber : string;
  type : option string;
  destinations : option (list string);
  items : option (list Item);
  stock : option (list Item)
}.

Module Transfer.
Record t := mk {
  sourceTruckNumber : string;
  destTruckNumber : string;
  items : list Item
}.
End Transfer.
Abbreviation Transfer := Transfer.t.

Inductive LogEntry :=
| LogTruckEntry (truckNo : string) (ty : string) (dests : list string) (its : list Item)
| LogRegisterTruckLoad (truckNo : string) (its : list Item)
| LogDirectTransfer (src dst : string) (its : list Item).

Definition action (l : LogEntry) : string :=
  match l with
  | LogTruckEntry _ _ _ _ => "Truck Entry"
  | LogRegisterTruckLoad _ _ => "Register Truck Load"
  | LogDirectTransfer _ _ _ => "Direct Transfer"
  end.

Definition CATEGORIES : list string :=
  ["Shrimp Feed"; "Fish Feed Growfin"; "Fish Feed Nutriva"].

(** ** The document store *)

Record Store := mkStore {
  db_feeds : list (Doc Feed);
  db_godownStock : list (Doc Item);
  db_trucks : list (Doc Truck);
  db_directTransfers : list (Doc Transfer);
  db_logs : list (Doc LogEntry);
  db_nextId : DocId
}.

(** The React state filled by [fetchAll]. *)
Record Snapshot := mkSnapshot {
  feeds : list (Doc Feed);
  godown : list (Doc Item);
  trucks : list (Doc Truck);
  transfers : list (Doc Transfer);
  logs : list (Doc LogEntry)
}.

Inductive Error :=
| NotEnoughGodownStock      (* new Error("Not enough godown stock") *)
| DocumentNotFound          (* updateDoc of a document that does not exist *)
| TypeError.                (* a property read on undefined *)

Inductive Alert :=
| TruckNumberAndFeedRequired
| NotEnoughGodownStockFor (label : string)
| TruckEntrySaved
| TruckAndItemsRequired
| SourceTruckLoadRegistered
| FillRequiredFields
| SourceTruckNotFound
| NotEnoughInSourceTruck (label : string + DocId)
| TransferCompleted
| ErrorMessage (e : Error).

Record World := mkWorld {
  db : Store;
  ui : Snapshot;
  alerts : list Alert
}.

Definition emptyStore : Store := mkStore [] [] [] [] [] 0.
Definition emptySnapshot : Snapshot := mkSnapshot [] [] [] [] [].
Definition emptyWorld : World := mkWorld emptyStore emptySnapshot [].

(** ** Handlers run in a state monad with exceptions

    An exception that leaves a handler ends it; what was written before
    stays written. *)

Inductive result (A : Type) :=
| Ok (a : A)
| Thrown (e : Error).
Arguments Ok {A} _.
Arguments Thrown {A} _.

Definition M (A : Type) : Type := World -> result A * World.

Definition ret {A} (a : A) : M A := fun w => (Ok a, w).

Definition bind {A B} (m : M A) (k : A -> M B) : M B :=
  fun w => match m w with
           | (Ok a, w') => k a w'
           | (Thrown e, w') => (Thrown e, w')
           end.

Definition throw {A} (e : Error) : M A := fun w => (Thrown e, w).

(** [try { m } catch (e) { h(e) }] *)
Definition tryCatch {A} (m : M A) (h : Error -> M A) : M A :=
  fun w => match m w with
           | (Ok a, w') => (Ok a, w')
           | (Thrown e, w') => h e w'
           end.

Notation "'let*' x ':=' m 'in' k" := (bind m (fun x => k))
  (at level 10, x name, m at level 100, k at level 200).
Notation "m ';;' k" := (bind m (fun _ => k))
  (at level 100, k at level 200, right associativity).

(** [for (const x of xs) await body(x)] *)
Fixpoint forOf {A} (xs : list A) (body : A -> M unit) : M unit :=
  match xs with
  | [] => ret tt
  | x :: rest => body x ;; forOf rest body
  end.

Definition alert (a : Alert) : M unit :=
  fun w => (Ok tt, mkWorld (db w) (ui w) (alerts w ++ [a])).

(** *** Collections *)

Record Collection (A : Type) := mkCollection {
  docsOf : Store -> list (Doc A);
  withDocs : list (Doc A) -> Store -> Store
}.
Arguments docsOf {A} _ _.
Arguments withDocs {A} _ _ _.

Definition feedsC : Collection Feed :=
  mkCollection _ db_feeds
    (fun l s => mkStore l (db_godownStock s) (db_trucks s) (db_directTransfers s) (db_logs s) (db_nextId s)).
Definition godownStockC : Collection Item :=
  mkCollection _ db_godownStock
    (fun l s => mkStore (db_feeds s) l (db_trucks s) (db_directTransfers s) (db_logs s) (db_nextId s)).
Definition trucksC : Collection Truck :=
  mkCollection _ db_trucks
    (fun l s => mkStore (db_feeds s) (db_godownStock s) l (db_directTransfers s) (db_logs s) (db_nextId s)).
Definition directTransfersC : Collection Transfer :=
  mkCollection _ db_directTransfers
    (fun l s => mkStore (db_feeds s) (db_godownStock s) (db_trucks s) l (db_logs s) (db_nextId s)).
Definition logsC : Collection LogEntry :=
  mkCollection _ db_logs
    (fun l s => mkStore (db_feeds s) (db_godownStock s) (db_trucks s) (db_directTransfers s) l (db_nextId s)).

Definition withNextId (n : DocId) (s : Store) : Store :=
  mkStore (db_feeds s) (db_godownStock s) (db_trucks s) (db_directTransfers s) (db_logs s) n.

Definition setDb (s : Store) (w : World) : World := mkWorld s (ui w) (alerts w).

(** [getDocs(query(collection(db, c), where(...)))] *)
Definition getDocsWhere {A} (c : Collection A) (p : A -> bool) : M (list (Doc A)) :=
  fun w => (Ok (filter (fun d => p (docData d) = true) (docsOf c (db w))), w).

(** [addDoc(collection(db, c), fields)]; the result is the new reference's id. *)
Definition addDoc {A} (c : Collection A) (fields : A) : M DocId :=
  fun w =>
    let s := db w in
    let i := db_nextId s in
    (Ok i, setDb (withNextId (S i) (withDocs c (docsOf c s ++ [mkDoc i fields]) s)) w).

Definition patchDoc {A} (i : DocId) (patch : A -> A) (d : Doc A) : Doc A :=
  if decide (docId d = i) then mkDoc (docId d) (patch (docData d)) else d.

Definition hasDoc {A} (i : DocId) (l : list (Doc A)) : bool :=
  bool_decide (i ∈ docId <$> l).

(** [updateDoc(doc(db, c, i), patch)] *)
Definition updateDoc {A} (c : Collection A) (i : DocId) (patch : A -> A) : M unit :=
  fun w =>
    let s := db w in
    if hasDoc i (docsOf c s)
    then (Ok tt, setDb (withDocs c (patchDoc i patch <$> docsOf c s) s) w)
    else (Thrown DocumentNotFound, w).

(** [deleteDoc(doc(db, c, i))] *)
Definition deleteDoc {A} (c : Collection A) (i : DocId) : M unit :=
  fun w =>
    let s := db w in
    (Ok tt, setDb (withDocs c (filter (fun d => docId d ≠ i) (docsOf c s)) s) w).

Definition snapshotOf (s : Store) : Snapshot :=
  mkSnapshot (db_feeds s) (db_godownStock s) (db_trucks s) (db_directTransfers s) (db_logs s).

(** [fetchAll]: [getDocs] of the five collections, each followed by the
    setter of its state. *)
Definition fetchAll : M unit :=
  fun w => (Ok tt, mkWorld (db w) (snapshotOf (db w)) (alerts w)).

(** [arr.find(p)].  ([list_find] gives the index, as [arr.findIndex(p)],
    together with the element.) *)
Definition jsFind {A} (P : A -> Prop) `{!∀ x, Decision (P x)} (l : list A) : option A :=
  snd <$> list_find P l.

(** ** Small pieces of JavaScript *)

(** [!s] on a string and [!xs?.length] on an array *)
Definition falsy (s : string) : bool := bool_decide (s = EmptyString).
Definition noLength {A} (xs : list A) : bool :=
  match xs with [] => true | _ => false end.

(** [s || d] on strings *)
Definition orElse (s d : string) : string := if falsy s then d else s.

(** [s.split(",")] *)
Fixpoint splitComma (s : string) : list string :=
  match s with
  | EmptyString => [EmptyString]
  | String c rest =>
      if decide (c = ","%char) then EmptyString :: splitComma rest
      else match splitComma rest with
           | h :: t => String c h :: t
           | [] => [String c EmptyString]
           end
  end.

(** [s.trim()], for the white space that one byte can hold *)
Definition isSpace (c : ascii) : bool :=
  bool_decide (c ∈ [" "; "009"; "010"; "011"; "012"; "013"]%char).
Fixpoint trimStart (s : string) : string :=
  match s with
  | String c rest => if isSpace c then trimStart rest else s
  | EmptyString => s
  end.
Definition trim (s : string) : string :=
  String.rev (trimStart (String.rev (trimStart s))).

(** [destinations ? destinations.split(",").map(s => s.trim()).filter(Boolean) : []] *)
Definition parseDestinations (destinations : string) : list string :=
  if falsy destinations then []
  else filter (fun s => s ≠ EmptyString) (trim <$> splitComma destinations).

(** [items.map(i => ({ feedId: i.feedId, quantity: Number(i.quantity) }))] *)
Definition numbered (items : list Item) : list Item :=
  (fun i => mkItem (feedId i) (quantity i)) <$> items.

(** [where("truckNumber", "==", n)] *)
Definition hasTruckNumber (n : string) (t : Truck) : bool :=
  bool_decide (truckNumber t = n).

(** The patches given to [updateDoc]: the named fields are replaced, the
    others are kept. *)
Definition setQuantity (q : Z) (g : Item) : Item := mkItem (feedId g) q.
Definition setStock (st : list Item) (t : Truck) : Truck :=
  mkTruck (truckNumber t) (type t) (destinations t) (items t) (Some st).
Definition setTruckNumberAndStock (n : string) (st : list Item) (t : Truck) : Truck :=
  mkTruck n (type t) (destinations t) (items t) (Some st).

Record FeedPatch := mkFeedPatch {
  newName : option string;
  newCategory : option string;
  newPrice : option Z
}.
Definition applyFeedPatch (p : FeedPatch) (f : Feed) : Feed :=
  mkFeed (default (name f) (newName p))
         (default (category f) (newCategory p))
         (default (price f) (newPrice p)).

(** ** The handlers of [App] *)

(** [feeds.find(f => f.id === feedId) || null] *)
Definition findFeed (cap : Snapshot) (fid : DocId) : option (Doc Feed) :=
  jsFind (fun f => docId f = fid) (feeds cap).

(** [godown.find(g => g.feedId === feedId)] *)
Definition findGodown (l : list (Doc Item)) (fid : DocId) : option (Doc Item) :=
  jsFind (fun g => feedId (docData g) = fid) l.

(** [addOrIncreaseGodown] (lines 76-84).  [godown] is the constant of
    [const [godown, setGodown] = useState([])] in the render that created
    the function: [cap]. *)
Definition addOrIncreaseGodown (cap : Snapshot) (feedId : DocId) (qty : Z) : M unit :=
  (match findGodown (godown cap) feedId with
   | Some existing =>
       updateDoc godownStockC (docId existing)
                 (setQuantity (quantity (docData existing) + qty))
   | None =>
       let* _ := addDoc godownStockC (mkItem feedId qty) in ret tt
   end) ;;
  fetchAll.

(** [decreaseGodown] (lines 86-91) *)
Definition decreaseGodown (cap : Snapshot) (feedId : DocId) (qty : Z) : M unit :=
  match findGodown (godown cap) feedId with
  | None => throw NotEnoughGodownStock
  | Some existing =>
      if decide (quantity (docData existing) < qty)%Z then throw NotEnoughGodownStock
      else
        updateDoc godownStockC (docId existing)
                  (setQuantity (quantity (docData existing) - qty)) ;;
        fetchAll
  end.

(** [handleAddFeed], [handleEditFeed], [handleDeleteFeed] (lines 94-116) *)
Definition handleAddFeed (feedObj : Feed) (initialQty : Z) : M unit :=
  let* ref := addDoc feedsC feedObj in
  (if decide (initialQty > 0)%Z
   then let* _ := addDoc godownStockC (mkItem ref initialQty) in ret tt
   else ret tt) ;;
  fetchAll.

Definition handleEditFeed (feedId : DocId) (patch : FeedPatch) : M unit :=
  updateDoc feedsC feedId (applyFeedPatch patch) ;;
  fetchAll.

Definition handleDeleteFeed (cap : Snapshot) (fid : DocId) : M unit :=
  deleteDoc feedsC fid ;;
  forOf (filter (fun g => feedId (docData g) = fid) (godown cap))
        (fun s => deleteDoc godownStockC (docId s)) ;;
  fetchAll.

(** [findFeed(it.feedId)?.name || "feed"] *)
Definition feedNameOr (cap : Snapshot) (fid : DocId) : string :=
  match findFeed cap fid with
  | Some f => orElse (name (docData f)) "feed"
  | None => "feed"
  end.

(** [findFeed(item.feedId)?.name || item.feedId] *)
Definition feedNameOrId (cap : Snapshot) (fid : DocId) : string + DocId :=
  match findFeed cap fid with
  | Some f => if falsy (name (docData f)) then inr fid else inl (name (docData f))
  | None => inr fid
  end.

(** Lines 140-145: the body of the loop of an outgoing movement. *)
Definition tryDecrease (cap : Snapshot) (it : Item) : M unit :=
  tryCatch (decreaseGodown cap (feedId it) (quantity it))
           (fun _ => alert (NotEnoughGodownStockFor (feedNameOr cap (feedId it)))).

(** [submitTruckEntry] (lines 122-161).  The two loops call the
    [addOrIncreaseGodown] and [decreaseGodown] of the same render as the
    running handler, so every turn reads the same [cap]. *)
Definition submitTruckEntry (cap : Snapshot)
    (truckNumber type destinations : string) (items : list Item) : M unit :=
  if falsy truckNumber || noLength items then alert TruckNumberAndFeedRequired
  else
    let docData :=
      mkTruck truckNumber (Some type) (Some (parseDestinations destinations))
              (Some (numbered items)) None in
    let* _ := addDoc trucksC docData in
    (if decide (type = "incoming") then
       forOf items (fun it => addOrIncreaseGodown cap (feedId it) (quantity it))
     else if decide (type = "outgoing") then
       forOf items (tryDecrease cap)
     else ret tt) ;;
    let* _ := addDoc logsC
      (LogTruckEntry truckNumber type (parseDestinations destinations) (numbered items)) in
    fetchAll ;;
    alert TruckEntrySaved.

(** [registerSourceTruckLoad] (lines 166-197) *)
Definition registerSourceTruckLoad (truckNumber : string) (items : list Item) : M unit :=
  if falsy truckNumber || noLength items then alert TruckAndItemsRequired
  else
    let* snap := getDocsWhere trucksC (hasTruckNumber truckNumber) in
    (match snap with
     | docRef :: _ =>
         updateDoc trucksC (docId docRef)
                   (setTruckNumberAndStock truckNumber (numbered items))
     | [] =>
         let* _ := addDoc trucksC
           (mkTruck truckNumber None None None (Some (numbered items))) in
         ret tt
     end) ;;
    let* _ := addDoc logsC (LogRegisterTruckLoad truckNumber items) in
    fetchAll ;;
    alert SourceTruckLoadRegistered.

(** The loop over the items of a direct transfer (lines 231-241).  It
    works on [srcStock] and [destStock], the arrays that [data()] built
    for this call, and leaves the function at the first item the source
    does not cover. *)

(** Lines 232-236: [sIdx = srcStock.findIndex(...)]; the check;
    [srcStock[sIdx].quantity -= item.quantity].  [None]: the check failed. *)
Definition deduct (srcStock : list Item) (item : Item) : option (list Item) :=
  match list_find (fun s => feedId s = feedId item) srcStock with
  | None => None
  | Some (sIdx, s) =>
      if decide (quantity s < quantity item)%Z then None
      else Some (<[sIdx := mkItem (feedId s) (quantity s - quantity item)]> srcStock)
  end.

(** Lines 238-240: [dIdx = destStock.findIndex(...)]; [+=] on the line
    found, or [push]. *)
Definition credit (destStock : list Item) (item : Item) : list Item :=
  match list_find (fun s => feedId s = feedId item) destStock with
  | Some (dIdx, d) =>
      <[dIdx := mkItem (feedId d) (quantity d + quantity item)]> destStock
  | None => destStock ++ [mkItem (feedId item) (quantity item)]
  end.

Inductive LoopEnd :=
| Returned (item : Item)
| Completed (srcStock destStock : list Item).

Fixpoint transferLoop (items srcStock destStock : list Item) : LoopEnd :=
  match items with
  | [] => Completed srcStock destStock
  | item :: rest =>
      match deduct srcStock item with
      | None => Returned item
      | Some srcStock' => transferLoop rest srcStock' (credit destStock item)
      end
  end.

(** [Array.isArray(x.stock) ? x.stock : []] *)
Definition stockOf (d : Doc Truck) : list Item := default [] (stock (docData d)).

(** [transferFromSourceToDest] (lines 200-264).  [srcDoc.data()] and
    [destDocRef.data()] build their objects anew at every call: when both
    queries return the same document, [srcStock] and [destStock] are two
    copies of its stock. *)
Definition transferFromSourceToDest (cap : Snapshot)
    (sourceTruckNumber destTruckNumber : string) (items : list Item) : M unit :=
  if falsy sourceTruckNumber || falsy destTruckNumber || noLength items
  then alert FillRequiredFields
  else
    let* snapSrc := getDocsWhere trucksC (hasTruckNumber sourceTruckNumber) in
    match snapSrc with
    | [] => alert SourceTruckNotFound
    | srcData :: _ =>
        let srcStock := stockOf srcData in
        let* snapDest := getDocsWhere trucksC (hasTruckNumber destTruckNumber) in
        let* destData :=
          match snapDest with
          | destDocRef :: _ => ret destDocRef
          | [] =>
              let* _ := addDoc trucksC
                (mkTruck destTruckNumber None None None (Some [])) in
              let* newSnap := getDocsWhere trucksC (hasTruckNumber destTruckNumber) in
              match newSnap with
              | destDocRef :: _ => ret destDocRef
              | [] => throw TypeError
              end
          end in
        let destStock := stockOf destData in
        match transferLoop items srcStock destStock with
        | Returned item =>
            alert (NotEnoughInSourceTruck (feedNameOrId cap (feedId item)))
        | Completed srcStock' destStock' =>
            updateDoc trucksC (docId srcData) (setStock srcStock') ;;
            updateDoc trucksC (docId destData) (setStock destStock') ;;
            let* _ := addDoc directTransfersC
              (Transfer.mk sourceTruckNumber destTruckNumber items) in
            let* _ := addDoc logsC
              (LogDirectTransfer sourceTruckNumber destTruckNumber items) in
            fetchAll ;;
            alert TransferCompleted
        end
    end.

(** *** The dashboard

    The dashboard is computed from [godown] as the store returned it.  A
    quantity there is any JavaScript number: the forms store
    [Number(text)], which is a fraction for "2.5" and [NaN] for a text
    that is no number, and sums of such numbers are rounded.  The
    dashboard is where the code tells these numbers apart
    ([Number(s.quantity || 0)]), so it is modelled on the numbers
    themselves, the binary64 numbers of [PrimFloat], and on entries that
    hold them. *)

(** An entry of [godown] as the dashboard reads it. *)
Record Entry := mkEntry { entryFeedId : DocId; entryQuantity : float }.

(** A whole quantity as a JavaScript number (rounded to the nearest one,
    ties to even). *)
Definition numberOfZ (z : Z) : float :=
  SF2Prim (SpecFloat.binary_normalize prec emax z 0 false).

(** The [godown] of a snapshot, whose quantities are whole, as the
    dashboard reads it. *)
Definition entriesOf (cap : Snapshot) : list (Doc Entry) :=
  (fun d => mkDoc (docId d)
              (mkEntry (feedId (docData d)) (numberOfZ (quantity (docData d)))))
    <$> godown cap.

(** [x || d] on a number [x]: [NaN], [0] and [-0] are the numbers that
    count as false.  [Number] of a number is the number. *)
Definition truthy (x : float) : bool :=
  negb (PrimFloat.is_nan x) && negb (PrimFloat.eqb x 0%float).
Definition numberOr (x d : float) : float := if truthy x then x else d.

(** Lines 271-272: one turn of the loop over [godown].
    [categoryCounts[c] += x] reads [categoryCounts[c]], which is
    [undefined] for a key that is not there; [undefined + x] is [NaN]. *)
Definition countEntry (cap : Snapshot) (o : gmap string float) (s : Doc Entry) :
    gmap string float :=
  match findFeed cap (entryFeedId (docData s)) with
  | Some feedDoc =>
      let c := category (docData feedDoc) in
      if bool_decide (c ∈ CATEGORIES)
      then <[c := (default nan (o !! c) +
                   numberOr (entryQuantity (docData s)) 0)%float]> o
      else o
  | None => o
  end.

(** [categoryCounts] and [totalBags] (lines 268-274), computed at every
    render; the object [categoryCounts] is a map from category names.
    [cap] gives [feeds]; [godown] is given with the quantities as the
    store returned them. *)
Definition categoryCounts (cap : Snapshot) (godown : list (Doc Entry)) :
    gmap string float :=
  let zeroed := foldl (fun o c => <[c := 0%float]> o) ∅ CATEGORIES in
  foldl (countEntry cap) zeroed godown.

Definition totalBags (godown : list (Doc Entry)) : float :=
  foldl (fun acc s => (acc + numberOr (entryQuantity (docData s)) 0)%float)
        0%float godown.

(** The "+1" and "-1" buttons of the stock table (lines 346-347). *)
Definition plusOne (cap : Snapshot) (fid : DocId) : M unit :=
  addOrIncreaseGodown cap fid 1.
Definition minusOne (cap : Snapshot) (fid : DocId) : M unit :=
  tryCatch (decreaseGodown cap fid 1) (fun e => alert (ErrorMessage e)).

(** The item lists of [TruckForm], [RegisterSourceTruck] and
    [TransferOutSection] (lines 476-489, 540-550, 595-604): the three forms
    build the list they submit with the same [addItem] and [removeItem];
    the list starts empty and is emptied again after a submission. *)



(** A handler is started from the current render: it captures [ui]. *)
Definition started {A} (handler : Snapshot -> M A) (w : World) : result A * World :=
  handler (ui w) w.

(** ** Definitions for the properties *)

(** *** States *)

(** The snapshot a render holds is the ledger as the store has it. *)
Definition godownSynced (w : World) : Prop :=
  godown (ui w) = db_godownStock (db w).

(** The documents a render knows are documents of the store. *)
Definition capIn (cap : Snapshot) (w : World) : Prop :=
  ∀ d, d ∈ godown cap -> hasDoc (docId d) (db_godownStock (db w)) = true.

(** Identifiers of a collection: pairwise distinct and already handed out. *)
Definition collOk {A} (next : DocId) (l : list (Doc A)) : Prop :=
  NoDup (docId <$> l) ∧ Forall (fun d => docId d < next) l.

(** At most one entry per feed. *)
Definition ledgerUnique (s : Store) : Prop :=
  NoDup (feedId ∘ docData <$> db_godownStock s).

(** *** Reading the ledger *)

(** The quantity the warehouse holds for a feed, as [findGodown] reads it
    (a feed without an entry counts as 0, as in the stock table). *)
Definition godownQty (l : list (Doc Item)) (fid : DocId) : Z :=
  default 0%Z (quantity ∘ docData <$> findGodown l fid).

(** The sum of a list of quantities. *)
Definition sumZ (l : list Z) : Z := foldr Z.add 0%Z l.

(** What a list of items asks of feed [f] in total. *)
Definition taken (items : list Item) (f : DocId) : Z :=
  sumZ (quantity <$> filter (fun i => feedId i = f) items).

(** The deduction of an item is covered by the ledger [l]. *)
Definition covered (l : list (Doc Item)) (it : Item) : Prop :=
  match findGodown l (feedId it) with
  | Some e => (quantity it <= quantity (docData e))%Z
  | None => False
  end.

#[global] Instance covered_dec l it : Decision (covered l it).
Proof. unfold covered. destruct (findGodown l (feedId it)); apply _. Defined.

(** *** Reading the dashboard *)

(** The feed of the entry is a feed of the catalog, of category [c]. *)
Definition inCategory (fs : list (Doc Feed)) (c : string) (s : Doc Entry) : Prop :=
  Exists (fun f => docId f = entryFeedId (docData s) ∧ category (docData f) = c) fs.

#[global] Instance inCategory_dec fs c s : Decision (inCategory fs c s).
Proof. unfold inCategory. apply _. Defined.

(** What a quantity counts for on the dashboard: itself, and 0 when it is
    [NaN] or a zero. *)
Definition counted (x : float) : float :=
  match Prim2SF x with
  | S754_nan | S754_zero _ => 0%float
  | S754_infinity _ | S754_finite _ _ _ => x
  end.

(** Numbers added one after the other, from 0, in the order of the
    list. *)
Definition sumNumbers (l : list float) : float := foldl PrimFloat.add 0%float l.

(** A zero, of either sign. *)
Definition isZero (x : float) : bool :=
  match Prim2SF x with S754_zero _ => true | _ => false end.

(** The same number: equal, or a zero both (0 and -0 are one number to
    [===] and are displayed alike). *)
Definition sameNumber (a b : float) : Prop :=
  a = b ∨ (isZero a = true ∧ isZero b = true).

(** *** Reading the truck registry *)

(** [snap.docs[0]] of the query for a truck number. *)
Definition firstTruck (l : list (Doc Truck)) (n : string) : option (Doc Truck) :=
  head (filter (fun d => hasTruckNumber n (docData d) = true) l).

(** The onboard stock the registry holds for a truck number. *)
Definition onboardStock (s : Store) (n : string) : option (list Item) :=
  d ← firstTruck (db_trucks s) n; stock (docData d).

(** The quantity of the first line of a stock list for feed [f]. *)
Definition firstQty (stock : list Item) (f : DocId) : option Z :=
  quantity <$> jsFind (fun s => feedId s = f) stock.

(** The quantity a truck number holds of feed [f] on board: the first
    stock line of that feed, 0 when there is none. *)
Definition onboardQty (s : Store) (n : string) (f : DocId) : Z :=
  default 0%Z (stk ← onboardStock s n; firstQty stk f).

(** *** Direct transfer *)

(** Validation fails, in the words of the specification: some item names
    a feed that the source stock does not have, or asks for more than
    what the items before it have left of that feed. *)
Definition failsValidation (srcStock items : list Item) : Prop :=
  ∃ pre item post,
    items = pre ++ item :: post ∧
    match firstQty srcStock (feedId item) with
    | None => True
    | Some q => (q - taken pre (feedId item) < quantity item)%Z
    end.

(** The stock list with the item's quantity added to the first line of
    its feed. *)
Fixpoint addToFirst (stock : list Item) (item : Item) : list Item :=
  match stock with
  | [] => []
  | s :: rest =>
      if decide (feedId s = feedId item)
      then mkItem (feedId s) (quantity s + quantity item) :: rest
      else s :: addToFirst rest item
  end.

(** The destination record the handler works with, and the world after
    it has been found or created. *)
Definition resolvedDest (w : World) (dst : string) : Doc Truck * World :=
  match firstTruck (db_trucks (db w)) dst with
  | Some d => (d, w)
  | None =>
      let d := mkDoc (db_nextId (db w)) (mkTruck dst None None None (Some [])) in
      (d, setDb (withNextId (S (db_nextId (db w)))
                   (withDocs trucksC (db_trucks (db w) ++ [d]) (db w))) w)
  end.

(** What is left to do once the loop has completed. *)
Definition persistTransfer (src dst : string) (items : list Item)
    (srcData destData : Doc Truck) (srcStock' destStock' : list Item) : M unit :=
  updateDoc trucksC (docId srcData) (setStock srcStock') ;;
  updateDoc trucksC (docId destData) (setStock destStock') ;;
  let* _ := addDoc directTransfersC (Transfer.mk src dst items) in
  let* _ := addDoc logsC (LogDirectTransfer src dst items) in
  fetchAll ;;
  alert TransferCompleted.

(** *** Truck movements *)

(** What the loops over the items leave as they found it. *)
Definition ledgerOnly (w w' : World) : Prop :=
  db_feeds (db w') = db_feeds (db w) ∧
  db_trucks (db w') = db_trucks (db w) ∧
  db_directTransfers (db w') = db_directTransfers (db w) ∧
  db_logs (db w') = db_logs (db w).

(** The loop invariant: identifiers are in order, the snapshot's entries
    exist, and the entries of the feeds still to come are untouched. *)
Definition loopInv (cap : Snapshot) (its : list Item) (w : World) : Prop :=
  collOk (db_nextId (db w)) (db_godownStock (db w)) ∧
  capIn cap w ∧
  ∀ it, it ∈ its ->
        findGodown (db_godownStock (db w)) (feedId it) =
        findGodown (godown cap) (feedId it).

(** The world after [addDoc(collection(db, "trucks"), docData)]. *)
Definition movementRecorded (w : World) (truckNumber type destinations : string)
    (its : list Item) : World :=
  setDb (withNextId (S (db_nextId (db w)))
           (withDocs trucksC
              (db_trucks (db w) ++
                 [mkDoc (db_nextId (db w))
                    (mkTruck truckNumber (Some type)
                       (Some (parseDestinations destinations)) (Some its) None)])
              (db w))) w.

(** The loop that [type] selects. *)
Definition ledgerLoop (cap : Snapshot) (type : string) (its : list Item) : M unit :=
  if decide (type = "incoming") then
    forOf its (fun it => addOrIncreaseGodown cap (feedId it) (quantity it))
  else if decide (type = "outgoing") then forOf its (tryDecrease cap)
  else ret tt.

(** *** The lists of the forms *)


(** *** Worlds for the examples *)

(** Two feed identifiers for the examples. *)
Definition F1 : DocId := 1.
Definition F2 : DocId := 2.

(** A catalog of three feeds, added through the admin panel without
    initial stock; they get the identifiers 0, [F1] and [F2]. *)
Definition catalog : World :=
  snd (handleAddFeed (mkFeed "Growfin 3mm" "Fish Feed Growfin" 1300) 0
         (snd (handleAddFeed (mkFeed "Nutriva 2mm" "Fish Feed Nutriva" 1450) 0
                 (snd (handleAddFeed (mkFeed "Vannamei starter" "Shrimp Feed" 2100) 0
                         emptyWorld))))).

(** The same catalog with 10 of [F1] in the ledger. *)
Definition tenOfF1 : World :=
  snd (started (fun cap => addOrIncreaseGodown cap F1 10) catalog).

(** The same catalog with 20 of [F1] and 1 of [F2] in the ledger. *)
Definition stocked : World :=
  snd (started (fun cap => addOrIncreaseGodown cap F2 1)
         (snd (started (fun cap => addOrIncreaseGodown cap F1 20) catalog))).

(** What a render sees when the ledger holds 10 of [F1] (a "Fish Feed
    Nutriva" feed), 7 of feed 0 (a "Shrimp Feed" feed), nothing of [F2]
    (the "Fish Feed Growfin" feed) and 5 of a feed, 99, that is not in
    the catalog. *)
Definition dashboard : Snapshot :=
  ui (snd (started (fun cap => addOrIncreaseGodown cap 99 5)
             (snd (started (fun cap => addOrIncreaseGodown cap 0 7) tenOfF1)))).

(** A ledger as the store can return it, one entry per feed: 2.5 of
    feed 0, a quantity that is no number for [F1], and 4 of [F2]. *)
Definition oddLedger : list (Doc Entry) :=
  [mkDoc 3 (mkEntry 0 2.5%float); mkDoc 4 (mkEntry F1 nan);
   mkDoc 5 (mkEntry F2 4%float)].


(** A registry with "T1" holding 5 of [F1] and "T2" holding 1 of [F2]. *)
Definition twoTrucks : World :=
  snd (registerSourceTruckLoad "T2" [mkItem F2 1]
         (snd (registerSourceTruckLoad "T1" [mkItem F1 5] emptyWorld))).

(** The scenario of the specification, from an empty store. *)
Definition trk2Loaded : World :=
  snd (registerSourceTruckLoad "TRK2" [mkItem F1 10] emptyWorld).

(** A registry with "T1" holding 5 of [F1] and 4 of [F2], and "T2"
    holding 1 of [F2]. *)
Definition mixedTrucks : World :=
  snd (registerSourceTruckLoad "T2" [mkItem F2 1]
         (snd (registerSourceTruckLoad "T1" [mkItem F1 5; mkItem F2 4] emptyWorld))).

Arguments jsFind : simpl never.
Arguments findGodown : simpl never.
Arguments findFeed : simpl never.
Arguments hasDoc : simpl never.
Arguments firstQty : simpl never.
Arguments taken : simpl never.
Arguments firstTruck : simpl never.

(** *** Whole quantities

    The handlers are modelled on whole quantities, with exact sums.  The
    quantities of the code are JavaScript numbers, and the two agree on
    the whole numbers that [Number.isSafeInteger] accepts: such a number
    is held exactly, and the sum or the difference of two of them is
    computed exactly when it is one of them again.  A property that rests
    on more than one addition or subtraction of the code is stated for
    such numbers. *)
Definition safeInteger (z : Z) : Prop := (- (2 ^ 53 - 1) <= z <= 2 ^ 53 - 1)%Z.

#[global] Instance safeInteger_dec z : Decision (safeInteger z).
Proof. unfold safeInteger. apply _. Defined.

(** *** What a handler keeps *)

(** [R] relates every world to the world the computation leaves. *)
Definition keeps {A} (R : World -> World -> Prop) (m : M A) : Prop :=
  ∀ w, R w (snd (m w)).

(** [I] holds afterwards whenever it held before. *)
Definition whenever (I : World -> Prop) (w w' : World) : Prop := I w -> I w'.

(** The two audit collections have only grown at their end. *)
Definition appendOnly (w w' : World) : Prop :=
  db_logs (db w) `prefix_of` db_logs (db w') ∧
  db_directTransfers (db w) `prefix_of` db_directTransfers (db w').

Definition sameCatalogAndLedger (w w' : World) : Prop :=
  db_feeds (db w') = db_feeds (db w) ∧
  db_godownStock (db w') = db_godownStock (db w).

Definition sameRegistryAndAudit (w w' : World) : Prop :=
  db_trucks (db w') = db_trucks (db w) ∧
  db_directTransfers (db w') = db_directTransfers (db w) ∧
  db_logs (db w') = db_logs (db w).

Definition sameRegistry (w w' : World) : Prop :=
  db_trucks (db w') = db_trucks (db w).

(** In every collection the identifiers are pairwise distinct and were
    handed out by the counter. *)
Definition storeOk (w : World) : Prop :=
  collOk (db_nextId (db w)) (db_feeds (db w)) ∧
  collOk (db_nextId (db w)) (db_godownStock (db w)) ∧
  collOk (db_nextId (db w)) (db_trucks (db w)) ∧
  collOk (db_nextId (db w)) (db_directTransfers (db w)) ∧
  collOk (db_nextId (db w)) (db_logs (db w)).

(** No ledger entry is below zero. *)
Definition ledgerNonneg (w : World) : Prop :=
  Forall (fun g => (0 <= quantity (docData g))%Z) (db_godownStock (db w)).

(** ** Properties *)

(** *** Searching lists and patching documents *)

Section Finding.
Context {A : Type} (P : A -> Prop) `{!∀ x, Decision (P x)}.

Lemma jsFind_Some_elem (l : list A) (x : A) :
  jsFind P l = Some x -> x ∈ l ∧ P x.
Proof.
  unfold jsFind. destruct (list_find P l) as [[i y]|] eqn:E; [|done].
  intros [= <-]. apply list_find_Some in E as (E & HP & _).
  split; [by eapply list_elem_of_lookup_2 | done].
Qed.

Lemma jsFind_None (l : list A) :
  jsFind P l = None <-> Forall (fun x => ¬ P x) l.
Proof.
  unfold jsFind. etransitivity; [|apply (list_find_None P)].
  destruct (list_find P l); naive_solver.
Qed.

Lemma jsFind_cons (x : A) (l : list A) :
  jsFind P (x :: l) = if decide (P x) then Some x else jsFind P l.
Proof.
  unfold jsFind. cbn. destruct (decide (P x)); [done|].
  by destruct (list_find P l) as [[??]|].
Qed.

Lemma jsFind_app (l1 l2 : list A) :
  jsFind P (l1 ++ l2) =
  match jsFind P l1 with Some x => Some x | None => jsFind P l2 end.
Proof.
  induction l1 as [|x l1 IH]; [done|].
  rewrite <- app_comm_cons, !jsFind_cons. by destruct (decide (P x)).
Qed.

(** A function that keeps [P] commutes with the search. *)
Lemma jsFind_fmap_keep (f : A -> A) (l : list A) :
  (∀ x, P (f x) <-> P x) ->
  jsFind P (f <$> l) = f <$> jsFind P l.
Proof.
  intros Hf. induction l as [|x l IH]; [done|].
  rewrite fmap_cons, !jsFind_cons.
  destruct (decide (P (f x))) as [H1|H1], (decide (P x)) as [H2|H2]; [done | destruct H2; by apply Hf | destruct H1; by apply Hf | done].
Qed.
End Finding.

Lemma filter_none {A} (P : A -> Prop) `{!∀ x, Decision (P x)} (l : list A) :
  Forall (fun x => ¬ P x) l -> filter P l = [].
Proof.
  induction 1 as [|x l Hx _ IH]; [done|]. by rewrite filter_cons_False.
Qed.

Lemma hasDoc_elem {A} (d : Doc A) (l : list (Doc A)) :
  d ∈ l -> hasDoc (docId d) l = true.
Proof.
  intros Hd. apply bool_decide_eq_true. by apply list_elem_of_fmap_2.
Qed.

Lemma patchDoc_id {A} (i : DocId) (p : A -> A) (d : Doc A) :
  docId (patchDoc i p d) = docId d.
Proof. unfold patchDoc. by destruct (decide _). Qed.

Lemma patchDoc_other {A} (i : DocId) (p : A -> A) (d : Doc A) :
  docId d ≠ i -> patchDoc i p d = d.
Proof. unfold patchDoc. by destruct (decide _). Qed.

Lemma patchDoc_same {A} (i : DocId) (p : A -> A) (d : Doc A) :
  docId d = i -> patchDoc i p d = mkDoc (docId d) (p (docData d)).
Proof. unfold patchDoc. by destruct (decide _). Qed.

Lemma patch_ids {A} (i : DocId) (p : A -> A) (l : list (Doc A)) :
  docId <$> (patchDoc i p <$> l) = docId <$> l.
Proof.
  rewrite <- list_fmap_compose. apply list_fmap_ext.
  intros ? d _. apply patchDoc_id.
Qed.

Lemma setQuantity_feedId (i : DocId) (q : Z) (d : Doc Item) :
  feedId (docData (patchDoc i (setQuantity q) d)) = feedId (docData d).
Proof. unfold patchDoc. by destruct (decide _). Qed.

Lemma findGodown_setQuantity (l : list (Doc Item)) (i : DocId) (q : Z) (fid : DocId) :
  findGodown (patchDoc i (setQuantity q) <$> l) fid =
  patchDoc i (setQuantity q) <$> findGodown l fid.
Proof.
  unfold findGodown. apply jsFind_fmap_keep.
  intros d. by rewrite setQuantity_feedId.
Qed.

(** ** The warehouse ledger *)




(** Documents of a collection with distinct identifiers. *)
Lemma docId_inj {A} (n : DocId) (l : list (Doc A)) (d1 d2 : Doc A) :
  NoDup (docId <$> l) -> d1 ∈ l -> d2 ∈ l -> docId d1 = docId d2 -> d1 = d2.
Proof.
  intros Hnd. induction l as [|x l IH]; [by intros ?%elem_of_nil|].
  rewrite fmap_cons in Hnd. apply NoDup_cons in Hnd as [Hx Hnd].
  intros [->|H1]%elem_of_cons [->|H2]%elem_of_cons Hid; [done| | |by apply IH].
  - destruct Hx. rewrite Hid. by apply list_elem_of_fmap_2.
  - destruct Hx. rewrite <- Hid. by apply list_elem_of_fmap_2.
Qed.

(** ** Sums of quantities *)

Lemma sumZ_cons (x : Z) (l : list Z) : sumZ (x :: l) = (x + sumZ l)%Z.
Proof. reflexivity. Qed.

(** ** The dashboard counts *)

(** The test of [x || 0] is the test of [counted]. *)
Lemma numberOr_counted (x : float) : numberOr x 0%float = counted x.
Proof.
  unfold numberOr, truthy, counted, PrimFloat.is_nan.
  rewrite !FloatAxioms.eqb_spec.
  change (Prim2SF 0%float) with (S754_zero false).
  destruct (Prim2SF x) as [s|s| |s m e]; try reflexivity.
  - by destruct s.
  - unfold SFeqb, SFcompare.
    rewrite Z.compare_refl, Pos.compare_cont_refl.
    by destruct s.
Qed.

Lemma categoryCounts_unfold (cap : Snapshot) (godown : list (Doc Entry)) :
  categoryCounts cap godown =
  foldl (countEntry cap) (foldl (fun o c => <[c := 0%float]> o) ∅ CATEGORIES) godown.
Proof. reflexivity. Qed.

(** With one feed per identifier, [findFeed] resolves an entry to the
    feed of the catalog that has the entry's identifier. *)
Lemma findFeed_inCategory (cap : Snapshot) (c : string) (s : Doc Entry) :
  NoDup (docId <$> feeds cap) ->
  inCategory (feeds cap) c s <->
  ∃ f, findFeed cap (entryFeedId (docData s)) = Some f ∧ category (docData f) = c.
Proof.
  intros Hnd. unfold inCategory, findFeed. rewrite Exists_exists. split.
  - intros (f & Hin & Hid & Hcat).
    destruct (jsFind (fun f0 : Doc Feed => docId f0 = entryFeedId (docData s))
                (feeds cap)) as [f'|] eqn:Hfind.
    + apply jsFind_Some_elem in Hfind as [Hin' Hid'].
      assert (f' = f) as ->.
      { apply (docId_inj 0 (feeds cap)); [done | done | done | congruence]. }
      by exists f.
    + apply jsFind_None in Hfind. rewrite Forall_forall in Hfind.
      by destruct (Hfind f Hin).
  - intros (f & Hfind & Hcat). apply jsFind_Some_elem in Hfind as [Hin Hid].
    by exists f.
Qed.

Lemma countEntry_fold_in (cap : Snapshot) (c : string) (l : list (Doc Entry))
    (o : gmap string float) (v : float) :
  NoDup (docId <$> feeds cap) ->
  c ∈ CATEGORIES -> o !! c = Some v ->
  foldl (countEntry cap) o l !! c =
  Some (foldl PrimFloat.add v
          (counted ∘ entryQuantity ∘ docData <$> filter (inCategory (feeds cap) c) l)).
Proof.
  intros Hnd Hc. revert o v. induction l as [|s l IH]; intros o v Ho; [done|].
  cbn [foldl]. destruct (decide (inCategory (feeds cap) c s)) as [Hin|Hout].
  - rewrite filter_cons_True by done.
    apply findFeed_inCategory in Hin as (f & Hfind & Hcat); [|done].
    unfold countEntry at 2. rewrite Hfind. cbn zeta. rewrite Hcat.
    rewrite bool_decide_eq_true_2 by done.
    erewrite IH; [|by rewrite lookup_insert_eq].
    rewrite Ho, numberOr_counted. reflexivity.
  - rewrite filter_cons_False by done.
    apply IH. unfold countEntry.
    destruct (findFeed cap (entryFeedId (docData s))) as [f|] eqn:Hfind; [|done].
    cbn zeta. destruct (bool_decide _); [|done].
    rewrite lookup_insert_ne; [done|]. intros Hcat.
    apply Hout, findFeed_inCategory; [done|]. by exists f.
Qed.

Lemma countEntry_fold_out (cap : Snapshot) (c : string) (l : list (Doc Entry))
    (o : gmap string float) :
  c ∉ CATEGORIES -> o !! c = None -> foldl (countEntry cap) o l !! c = None.
Proof.
  intros Hc. revert o. induction l as [|s l IH]; intros o Ho; [done|].
  cbn [foldl]. apply IH. unfold countEntry.
  destruct (findFeed cap (entryFeedId (docData s))) as [feedDoc|]; [|done]. cbn.
  destruct (bool_decide _) eqn:E; [|done].
  apply bool_decide_eq_true in E. rewrite lookup_insert_ne; [done|].
  intros Heq. apply Hc. by rewrite <- Heq.
Qed.

Lemma totalBags_fold (l : list (Doc Entry)) (acc : float) :
  foldl (fun acc s => (acc + numberOr (entryQuantity (docData s)) 0)%float) acc l =
  foldl PrimFloat.add acc (counted ∘ entryQuantity ∘ docData <$> l).
Proof.
  revert acc. induction l as [|s l IH]; intros acc; [done|].
  cbn [foldl fmap list_fmap compose]. by rewrite IH, numberOr_counted.
Qed.

(** A quantity that is a number. *)
Lemma is_nan_false (x : float) : PrimFloat.is_nan x = false -> Prim2SF x ≠ S754_nan.
Proof.
  unfold PrimFloat.is_nan. rewrite FloatAxioms.eqb_spec. intros H Hn.
  rewrite Hn in H. discriminate.
Qed.

#[global] Instance sameNumber_refl : Reflexive sameNumber.
Proof. intros a. by left. Qed.

#[global] Instance sameNumber_trans : Transitive sameNumber.
Proof.
  intros a b c [->|[Ha Hb]] [->|[Hb' Hc]].
  - by left.
  - by right.
  - by right.
  - by right.
Qed.

(** Adding to a zero of the other sign gives the same number. *)
Lemma add_sameNumber (a a' x : float) :
  sameNumber a a' -> sameNumber (a + x)%float (a' + x)%float.
Proof.
  intros [->|[Ha Ha']]; [by left|].
  unfold sameNumber, isZero in *.
  rewrite !FloatAxioms.add_spec.
  destruct (Prim2SF a) as [sa|?| |? ? ?] eqn:Ea; try discriminate.
  destruct (Prim2SF a') as [sa'|?| |? ? ?] eqn:Ea'; try discriminate.
  destruct (Prim2SF x) as [sx|sx| |sx mx ex] eqn:Ex.
  - right. cbn. by destruct sa, sa', sx.
  - left. apply FloatAxioms.Prim2SF_inj. by rewrite !FloatAxioms.add_spec, Ea, Ea', Ex.
  - left. apply FloatAxioms.Prim2SF_inj. by rewrite !FloatAxioms.add_spec, Ea, Ea', Ex.
  - left. apply FloatAxioms.Prim2SF_inj. by rewrite !FloatAxioms.add_spec, Ea, Ea', Ex.
Qed.

(** Adding what a number counts for is adding the number. *)
Lemma add_counted (a x : float) :
  PrimFloat.is_nan x = false -> sameNumber (a + counted x)%float (a + x)%float.
Proof.
  intros Hx%is_nan_false. unfold counted.
  destruct (Prim2SF x) as [sx|sx| |sx mx ex] eqn:Ex; [|by left|done|by left].
  unfold sameNumber, isZero. rewrite !FloatAxioms.add_spec, Ex.
  change (Prim2SF 0%float) with (S754_zero false).
  destruct (Prim2SF a) as [sa|sa| |sa ma ea] eqn:Ea.
  - right. cbn. by destruct sa, sx.
  - left. apply FloatAxioms.Prim2SF_inj. by rewrite !FloatAxioms.add_spec, Ea, Ex.
  - left. apply FloatAxioms.Prim2SF_inj. by rewrite !FloatAxioms.add_spec, Ea, Ex.
  - left. apply FloatAxioms.Prim2SF_inj. by rewrite !FloatAxioms.add_spec, Ea, Ex.
Qed.

(** Where every quantity is a number, the sum of what the quantities
    count for is the sum of the quantities. *)
Lemma sum_counted (l : list float) (acc acc' : float) :
  Forall (fun x => PrimFloat.is_nan x = false) l -> sameNumber acc acc' ->
  sameNumber (foldl PrimFloat.add acc (counted <$> l)) (foldl PrimFloat.add acc' l).
Proof.
  intros Hl. revert acc acc'.
  induction Hl as [|x l Hx _ IH]; intros acc acc' Hacc; [done|].
  cbn [fmap list_fmap foldl]. apply IH.
  transitivity (acc + x)%float; [by apply add_counted | by apply add_sameNumber].
Qed.

Lemma sumNumbers_counted {A} (q : A -> float) (l : list A) :
  Forall (fun s => PrimFloat.is_nan (q s) = false) l ->
  sameNumber (sumNumbers (counted ∘ q <$> l)) (sumNumbers (q <$> l)).
Proof.
  intros Hl. unfold sumNumbers. rewrite list_fmap_compose.
  apply sum_counted; [|done]. by apply Forall_fmap.
Qed.

(** C7, on the numbers that the store returns: when the catalog has one
    feed per identifier, each of the three categories gets the sum of what
    the ledger entries of the feeds of that category count for, added in
    the order of the ledger; an entry counts for its quantity, and for 0
    when its quantity is [NaN] or a zero; no other key is counted; a
    category whose feeds have no ledger entry gets 0; the total is the
    same sum over all ledger entries, whatever their feed.  Where no
    quantity of the ledger is [NaN], these are the sums of the quantities
    themselves. *)
Theorem categoryCounts_spec (cap : Snapshot) (godown : list (Doc Entry)) :
  NoDup (docId <$> feeds cap) ->
  (∀ c, c ∈ CATEGORIES ->
        categoryCounts cap godown !! c =
        Some (sumNumbers (counted ∘ entryQuantity ∘ docData <$>
                            filter (inCategory (feeds cap) c) godown))) ∧
  (∀ c, c ∉ CATEGORIES -> categoryCounts cap godown !! c = None) ∧
  (∀ c, c ∈ CATEGORIES ->
        (∀ f, f ∈ feeds cap -> category (docData f) = c ->
              ∀ s, s ∈ godown -> entryFeedId (docData s) ≠ docId f) ->
        categoryCounts cap godown !! c = Some 0%float) ∧
  totalBags godown = sumNumbers (counted ∘ entryQuantity ∘ docData <$> godown) ∧
  (Forall (fun s => PrimFloat.is_nan (entryQuantity (docData s)) = false) godown ->
   (∀ c, c ∈ CATEGORIES ->
         ∃ v, categoryCounts cap godown !! c = Some v ∧
              sameNumber v (sumNumbers (entryQuantity ∘ docData <$>
                                          filter (inCategory (feeds cap) c) godown))) ∧
   sameNumber (totalBags godown) (sumNumbers (entryQuantity ∘ docData <$> godown))).
Proof.
  intros Hnd.
  assert (Hin : ∀ c, c ∈ CATEGORIES ->
    categoryCounts cap godown !! c =
    Some (sumNumbers (counted ∘ entryQuantity ∘ docData <$>
                        filter (inCategory (feeds cap) c) godown))).
  { intros c Hc. rewrite categoryCounts_unfold.
    apply countEntry_fold_in; [done | done |].
    unfold CATEGORIES in *. cbn.
    repeat (apply elem_of_cons in Hc as [->|Hc]);
      [by rewrite !lookup_insert_ne, lookup_insert_eq by done
      |by rewrite lookup_insert_ne, lookup_insert_eq by done
      |by rewrite lookup_insert_eq
      |by apply elem_of_nil in Hc]. }
  split_and!; [done | | | |].
  - intros c Hc. rewrite categoryCounts_unfold.
    apply countEntry_fold_out; [done|].
    unfold CATEGORIES in *. cbn.
    rewrite !lookup_insert_ne; [done|..]; intros <-; apply Hc; set_solver.
  - intros c Hc Hnone. rewrite Hin by done.
    replace (filter (inCategory (feeds cap) c) godown) with (@nil (Doc Entry)); [done|].
    symmetry. apply filter_none, Forall_forall. intros s Hs Hcat.
    unfold inCategory in Hcat. apply Exists_exists in Hcat as (f & Hf & Hid & Hc').
    by apply (Hnone f Hf Hc' s Hs).
  - unfold totalBags, sumNumbers. apply totalBags_fold.
  - intros Hnum. split.
    + intros c Hc. eexists. split; [by apply Hin|].
      apply (sumNumbers_counted (entryQuantity ∘ docData)).
      apply Forall_forall. intros s [_ Hs]%list_elem_of_filter.
      rewrite Forall_forall in Hnum. by apply Hnum.
    + unfold totalBags. rewrite totalBags_fold.
      by apply (sumNumbers_counted (entryQuantity ∘ docData)).
Qed.

(** Two renders.  The first is the render of the example, with whole
    quantities.  The second has the catalog of the examples and a ledger
    with a fraction and a quantity that is no number, which counts
    for 0. *)
Lemma categoryCounts_spec_witness :
  (categoryCounts dashboard (entriesOf dashboard) !! "Fish Feed Nutriva" =
     Some 10%float ∧
   categoryCounts dashboard (entriesOf dashboard) !! "Shrimp Feed" = Some 7%float ∧
   categoryCounts dashboard (entriesOf dashboard) !! "Fish Feed Growfin" =
     Some 0%float ∧
   totalBags (entriesOf dashboard) = 22%float ∧
   sameNumber (totalBags (entriesOf dashboard))
     (sumNumbers (entryQuantity ∘ docData <$> entriesOf dashboard))) ∧
  (categoryCounts (ui catalog) oddLedger !! "Shrimp Feed" = Some 2.5%float ∧
   categoryCounts (ui catalog) oddLedger !! "Fish Feed Nutriva" = Some 0%float ∧
   totalBags oddLedger = 6.5%float).
Proof.
  assert (H1 : "Shrimp Feed" ∈ CATEGORIES) by (left).
  assert (H2 : "Fish Feed Growfin" ∈ CATEGORIES) by (right; left).
  assert (H3 : "Fish Feed Nutriva" ∈ CATEGORIES) by (right; right; left).
  split.
  - destruct (categoryCounts_spec dashboard (entriesOf dashboard))
      as (Hin & _ & _ & Htotal & Hsame).
    { apply (bool_decide_unpack _). vm_compute. reflexivity. }
    assert (Hnum : Forall (fun s => PrimFloat.is_nan (entryQuantity (docData s)) = false)
                     (entriesOf dashboard)).
    { apply (bool_decide_unpack _). vm_compute. reflexivity. }
    pose proof (proj2 (Hsame Hnum)) as Hraw.
    rewrite (Hin _ H1), (Hin _ H2), (Hin _ H3), Htotal.
    split_and!; [vm_compute; done | vm_compute; done | vm_compute; done
                |vm_compute; done | exact Hraw].
  - destruct (categoryCounts_spec (ui catalog) oddLedger)
      as (Hin & _ & _ & Htotal & _).
    { apply (bool_decide_unpack _). vm_compute. reflexivity. }
    rewrite (Hin _ H1), (Hin _ H3), Htotal.
    vm_compute. done.
Defined.

(** The counterexample to C7 as stated, at a quantity that is no number.
    The ledger holds 2.5 of feed 0, an entry of [F1], a "Fish Feed
    Nutriva" feed, whose quantity is [NaN], and 4 of [F2].  The sum of the
    quantities of the entries of "Fish Feed Nutriva" is [NaN], and so is
    the sum over all entries; the dashboard shows 0 and 6.5, because
    [Number(s.quantity || 0)] counts the entry of [F1] for 0. *)
Lemma categoryCounts_not_the_sum :
  let nutriva :=
    filter (inCategory (feeds (ui catalog)) "Fish Feed Nutriva") oddLedger in
  nutriva = [mkDoc 4 (mkEntry F1 nan)] ∧
  PrimFloat.is_nan (sumNumbers (entryQuantity ∘ docData <$> nutriva)) = true ∧
  categoryCounts (ui catalog) oddLedger !! "Fish Feed Nutriva" = Some 0%float ∧
  categoryCounts (ui catalog) oddLedger !! "Fish Feed Nutriva" ≠
    Some (sumNumbers (entryQuantity ∘ docData <$> nutriva)) ∧
  PrimFloat.is_nan (sumNumbers (entryQuantity ∘ docData <$> oddLedger)) = true ∧
  totalBags oddLedger = 6.5%float ∧
  totalBags oddLedger ≠ sumNumbers (entryQuantity ∘ docData <$> oddLedger).
Proof.
  cbn zeta. split_and!; try (vm_compute; reflexivity).
  - intros H. apply (f_equal (fun o => PrimFloat.is_nan <$> o)) in H.
    vm_compute in H. discriminate.
  - intros H. apply (f_equal PrimFloat.is_nan) in H. vm_compute in H. discriminate.
Qed.

(** ** The loop of a direct transfer *)

Lemma list_find_split {A} (P : A -> Prop) `{!∀ x, Decision (P x)}
    (l : list A) (i : nat) (x : A) :
  list_find P l = Some (i, x) ->
  l = take i l ++ x :: drop (S i) l ∧ P x ∧
  Forall (fun y => ¬ P y) (take i l) ∧ i < length l.
Proof.
  intros (Hi & HP & Hleast)%list_find_Some.
  split_and!; [by rewrite take_drop_middle | done | | by eapply lookup_lt_Some].
  apply Forall_lookup. intros j y Hj.
  destruct (decide (j < i)) as [Hlt|Hge].
  - rewrite lookup_take_lt in Hj by done. eauto.
  - rewrite lookup_take_ge in Hj by lia. done.
Qed.

Lemma firstQty_cons (s : Item) (l : list Item) (f : DocId) :
  firstQty (s :: l) f = if decide (feedId s = f) then Some (quantity s) else firstQty l f.
Proof. unfold firstQty. rewrite jsFind_cons. by destruct (decide _). Qed.

Lemma firstQty_nil (f : DocId) : firstQty [] f = None.
Proof. reflexivity. Qed.

Lemma firstQty_app (l1 l2 : list Item) (f : DocId) :
  firstQty (l1 ++ l2) f =
  match firstQty l1 f with Some q => Some q | None => firstQty l2 f end.
Proof.
  unfold firstQty. rewrite jsFind_app. by destruct (jsFind _ l1).
Qed.

Lemma firstQty_None_Forall (l : list Item) (f : DocId) :
  Forall (fun y => feedId y ≠ f) l -> firstQty l f = None.
Proof.
  intros H. unfold firstQty.
  by rewrite (proj2 (jsFind_None (fun s => feedId s = f) l) H).
Qed.

Lemma taken_cons (it : Item) (items : list Item) (f : DocId) :
  taken (it :: items) f =
  ((if decide (feedId it = f) then quantity it else 0) + taken items f)%Z.
Proof.
  unfold taken. rewrite filter_cons.
  destruct (decide (feedId it = f)); [by rewrite fmap_cons, sumZ_cons | lia].
Qed.

Lemma taken_nil (f : DocId) : taken [] f = 0%Z.
Proof. reflexivity. Qed.

(** What [deduct] does to the source lines. *)
Lemma deduct_Some (src src' : list Item) (it : Item) :
  deduct src it = Some src' ->
  ∃ q, firstQty src (feedId it) = Some q ∧ (quantity it <= q)%Z ∧
       feedId <$> src' = feedId <$> src ∧
       ∀ f, firstQty src' f =
            if decide (f = feedId it) then Some (q - quantity it)%Z
            else firstQty src f.
Proof.
  unfold deduct.
  destruct (list_find _ src) as [[i s]|] eqn:Hfind; [|done].
  destruct (decide (quantity s < quantity it)%Z) as [|Hge]; [done|].
  intros [= <-].
  apply list_find_split in Hfind as (Hsplit & Hs & Hbefore & Hlen).
  rewrite insert_take_drop by done. clear Hlen.
  revert Hsplit Hbefore. generalize (take i src) (drop (S i) src).
  intros l1 l2 -> Hbefore.
  exists (quantity s). split_and!.
  - rewrite firstQty_app, firstQty_None_Forall by done.
    rewrite firstQty_cons. by rewrite decide_True.
  - lia.
  - rewrite !fmap_app, !fmap_cons. done.
  - intros f. rewrite !firstQty_app, !firstQty_cons. cbn.
    destruct (decide (f = feedId it)) as [->|Hne].
    + rewrite firstQty_None_Forall by done. by rewrite decide_True.
    + destruct (firstQty l1 f); [done|].
      rewrite !decide_False; [done | congruence | congruence].
Qed.

Lemma deduct_None (src : list Item) (it : Item) :
  deduct src it = None <->
  match firstQty src (feedId it) with
  | None => True
  | Some q => (q < quantity it)%Z
  end.
Proof.
  unfold deduct, firstQty, jsFind.
  destruct (list_find _ src) as [[i s]|]; cbn; [|done].
  destruct (decide _); naive_solver.
Qed.

Lemma failsValidation_nil (src : list Item) : ¬ failsValidation src [].
Proof. intros (pre & it & post & H & _). by destruct pre. Qed.

Lemma failsValidation_cons (src : list Item) (it : Item) (rest : list Item) :
  failsValidation src (it :: rest) <->
  deduct src it = None ∨
  ∃ src', deduct src it = Some src' ∧ failsValidation src' rest.
Proof.
  split.
  - intros (pre & item & post & Hitems & Hfail).
    destruct (deduct src it) as [src'|] eqn:Hd; [right|by left].
    exists src'. split; [done|].
    apply deduct_Some in Hd as (q & Hq & Hle & _ & Hafter).
    destruct pre as [|it' pre]; simplify_eq/=.
    + rewrite Hq, taken_nil in Hfail. lia.
    + exists pre, item, post. split; [done|].
      rewrite Hafter. rewrite taken_cons in Hfail.
      destruct (decide (feedId item = feedId it')) as [Heq|Hne].
      * rewrite Heq, Hq in Hfail. rewrite decide_True in Hfail by done.
        rewrite <- Heq in Hfail. lia.
      * rewrite decide_False in Hfail by congruence.
        destruct (firstQty src (feedId item)); [lia|done].
  - intros [Hnone|(src' & Hd & pre & item & post & -> & Hfail)].
    + exists [], it, rest. split; [done|].
      apply deduct_None in Hnone. rewrite taken_nil.
      destruct (firstQty src (feedId it)); [lia|done].
    + exists (it :: pre), item, post. split; [done|].
      apply deduct_Some in Hd as (q & Hq & Hle & _ & Hafter).
      rewrite Hafter in Hfail. rewrite taken_cons.
      destruct (decide (feedId item = feedId it)) as [Heq|Hne].
      * rewrite Heq, Hq. rewrite decide_True by done.
        rewrite <- Heq. lia.
      * rewrite decide_False by congruence.
        destruct (firstQty src (feedId item)); [lia|done].
Qed.

(** The loop leaves at an item exactly when validation fails, whatever
    the destination lines are. *)
Lemma transferLoop_Returned_iff (items src dst : list Item) :
  (∃ item, transferLoop items src dst = Returned item) <-> failsValidation src items.
Proof.
  revert src dst. induction items as [|it rest IH]; intros src dst.
  - cbn. split; [by intros [? ?] | by intros ?%failsValidation_nil].
  - rewrite failsValidation_cons. cbn.
    destruct (deduct src it) as [src'|] eqn:Hd.
    + rewrite IH. naive_solver.
    + naive_solver.
Qed.

Lemma transferLoop_Returned_elem (items src dst : list Item) (item : Item) :
  transferLoop items src dst = Returned item -> item ∈ items.
Proof.
  revert src dst. induction items as [|it rest IH]; intros s d; cbn; [done|].
  destruct (deduct s it); [|intros [= <-]; by left].
  intros ?%IH. by right.
Qed.

Lemma transferLoop_Completed_iff (items src dst : list Item) :
  (∃ src' dst', transferLoop items src dst = Completed src' dst') <->
  ¬ failsValidation src items.
Proof.
  rewrite <- (transferLoop_Returned_iff items src dst).
  destruct (transferLoop items src dst); naive_solver.
Qed.

(** The source lines after a loop that completed. *)
Lemma transferLoop_src (items src dst src' dst' : list Item) :
  transferLoop items src dst = Completed src' dst' ->
  feedId <$> src' = feedId <$> src ∧
  ∀ f, firstQty src' f = (fun q => q - taken items f)%Z <$> firstQty src f.
Proof.
  revert src dst. induction items as [|it rest IH]; intros src dst; cbn.
  - intros [= <- <-]. split; [done|]. intros f. rewrite taken_nil.
    destruct (firstQty src f); cbn; [f_equal; lia | done].
  - destruct (deduct src it) as [src1|] eqn:Hd; [|done]. intros Hloop.
    apply IH in Hloop as [Hids Hq].
    apply deduct_Some in Hd as (q & Hsrc & _ & Hids1 & Hafter).
    split; [congruence|]. intros f. rewrite Hq, Hafter, taken_cons.
    destruct (decide (f = feedId it)) as [->|Hne].
    + rewrite Hsrc, decide_True by done. cbn. f_equal. lia.
    + rewrite decide_False by congruence.
      destruct (firstQty src f); cbn; [f_equal; lia | done].
Qed.

(** The destination side. *)
Lemma credit_found (dst : list Item) (it : Item) :
  feedId it ∈ feedId <$> dst -> credit dst it = addToFirst dst it.
Proof.
  unfold credit. induction dst as [|d dst IH]; [by intros ?%elem_of_nil|].
  intros Hin. cbn. destruct (decide (feedId d = feedId it)) as [Heq|Hne]; [done|].
  rewrite fmap_cons in Hin. apply elem_of_cons in Hin as [?|Hin]; [congruence|].
  specialize (IH Hin).
  destruct (list_find _ dst) as [[i x]|] eqn:E; cbn in *.
  - by rewrite <- IH.
  - apply list_find_None in E. rewrite Forall_forall in E.
    apply list_elem_of_fmap in Hin as (y & Hy & Hyin).
    by destruct (E y Hyin).
Qed.


Lemma firstQty_addToFirst (st : list Item) (it : Item) (f : DocId) :
  firstQty (addToFirst st it) f =
  if decide (f = feedId it) then (fun q => q + quantity it)%Z <$> firstQty st f
  else firstQty st f.
Proof.
  induction st as [|s st IH]; cbn [addToFirst].
  - by destruct (decide _).
  - destruct (decide (feedId s = feedId it)) as [Heq|Hne];
      rewrite !firstQty_cons; cbn [feedId quantity].
    + destruct (decide (f = feedId it)) as [->|Hf].
      * by rewrite !decide_True.
      * by rewrite !decide_False by congruence.
    + rewrite IH. destruct (decide (f = feedId it)) as [->|Hf]; [|done].
      by rewrite !decide_False.
Qed.



Lemma firstQty_Some_elem (st : list Item) (f : DocId) (q : Z) :
  firstQty st f = Some q -> f ∈ feedId <$> st.
Proof.
  unfold firstQty. destruct (jsFind _ st) as [s|] eqn:E; [|done]. intros _.
  apply jsFind_Some_elem in E as [Hin <-]. by apply list_elem_of_fmap_2.
Qed.


(** ** The truck registry *)

Lemma firstTruck_cons (d : Doc Truck) (l : list (Doc Truck)) (n : string) :
  firstTruck (d :: l) n =
  if decide (truckNumber (docData d) = n) then Some d else firstTruck l n.
Proof.
  unfold firstTruck, hasTruckNumber. rewrite filter_cons.
  destruct (decide (truckNumber (docData d) = n)) as [Heq|Hne].
  - rewrite decide_True; [done|]. by apply bool_decide_eq_true.
  - rewrite decide_False; [done|]. by rewrite bool_decide_eq_true.
Qed.

Lemma firstTruck_app (l1 l2 : list (Doc Truck)) (n : string) :
  firstTruck (l1 ++ l2) n =
  match firstTruck l1 n with Some d => Some d | None => firstTruck l2 n end.
Proof.
  induction l1 as [|d l1 IH]; [done|].
  rewrite <- app_comm_cons, !firstTruck_cons. by destruct (decide _).
Qed.

Lemma firstTruck_elem (l : list (Doc Truck)) (n : string) (d : Doc Truck) :
  firstTruck l n = Some d -> d ∈ l ∧ truckNumber (docData d) = n.
Proof.
  induction l as [|x l IH]; [done|]. rewrite firstTruck_cons.
  destruct (decide _) as [Heq|Hne].
  - intros [= <-]. split; [left | done].
  - intros [Hin Hn]%IH. split; [by right | done].
Qed.

(** A patch that keeps truck numbers keeps the order of the matches. *)
Lemma firstTruck_patch (l : list (Doc Truck)) (n : string) (i : DocId) (p : Truck -> Truck) :
  (∀ t, truckNumber (p t) = truckNumber t) ->
  firstTruck (patchDoc i p <$> l) n = patchDoc i p <$> firstTruck l n.
Proof.
  intros Hp. induction l as [|d l IH]; [done|].
  rewrite fmap_cons, !firstTruck_cons.
  assert (truckNumber (docData (patchDoc i p d)) = truckNumber (docData d)) as ->.
  { unfold patchDoc. destruct (decide _); [apply Hp | done]. }
  by destruct (decide _).
Qed.

Lemma firstTruck_match (l : list (Doc Truck)) (n : string) :
  match filter (fun d => hasTruckNumber n (docData d) = true) l with
  | [] => firstTruck l n = None
  | d :: _ => firstTruck l n = Some d
  end.
Proof. unfold firstTruck. by destruct (filter _ l). Qed.

Lemma updateDoc_run {A} (c : Collection A) (i : DocId) (p : A -> A) (w : World) :
  hasDoc i (docsOf c (db w)) = true ->
  updateDoc c i p w =
  (Ok tt, setDb (withDocs c (patchDoc i p <$> docsOf c (db w)) (db w)) w).
Proof. intros H. unfold updateDoc. cbn zeta. by rewrite H. Qed.

Lemma hasDoc_patch {A} (i j : DocId) (p : A -> A) (l : list (Doc A)) :
  hasDoc i (patchDoc j p <$> l) = hasDoc i l.
Proof. unfold hasDoc. by rewrite patch_ids. Qed.

Lemma hasDoc_app {A} (i : DocId) (l1 l2 : list (Doc A)) :
  hasDoc i (l1 ++ l2) = hasDoc i l1 || hasDoc i l2.
Proof.
  unfold hasDoc. rewrite fmap_app.
  apply eq_true_iff_eq. rewrite orb_true_iff, !bool_decide_eq_true.
  apply elem_of_app.
Qed.

(** ** Direct transfer *)

Lemma transfer_unfold (w : World) (cap : Snapshot) (src dst : string)
    (items : list Item) (srcData : Doc Truck) :
  src ≠ EmptyString -> dst ≠ EmptyString -> items ≠ [] ->
  firstTruck (db_trucks (db w)) src = Some srcData ->
  transferFromSourceToDest cap src dst items w =
  let '(destData, w1) := resolvedDest w dst in
  match transferLoop items (stockOf srcData) (stockOf destData) with
  | Returned item => alert (NotEnoughInSourceTruck (feedNameOrId cap (feedId item))) w1
  | Completed srcStock' destStock' =>
      persistTransfer src dst items srcData destData srcStock' destStock' w1
  end.
Proof.
  intros Hsrc Hdst Hitems Hfirst.
  unfold transferFromSourceToDest, falsy.
  rewrite !bool_decide_eq_false_2 by done.
  destruct items as [|it0 items0]; [done|]. cbn [noLength orb].
  unfold bind at 1, getDocsWhere at 1. cbn [docsOf trucksC].
  pose proof (firstTruck_match (db_trucks (db w)) src) as Hm.
  destruct (filter _ (db_trucks (db w))) as [|srcData' rest]; [congruence|].
  rewrite Hfirst in Hm. injection Hm as <-.
  unfold bind at 1, getDocsWhere at 1. cbn [docsOf trucksC].
  unfold resolvedDest.
  pose proof (firstTruck_match (db_trucks (db w)) dst) as Hd.
  destruct (filter _ (db_trucks (db w))) as [|destData rest'] eqn:Hfilter.
  - rewrite Hd. unfold bind at 1 2 3, addDoc at 1, getDocsWhere at 1, ret.
    cbn [docsOf withDocs trucksC db setDb db_trucks withNextId].
    rewrite filter_app, Hfilter. cbn [app].
    rewrite filter_cons_True by (by apply bool_decide_eq_true).
    cbn -[transferLoop]. by destruct (transferLoop _ _ _).
  - rewrite Hd. unfold bind at 1, ret. by destruct (transferLoop _ _ _).
Qed.

Lemma resolvedDest_spec (w : World) (dst : string) :
  let '(destData, w1) := resolvedDest w dst in
  firstTruck (db_trucks (db w1)) dst = Some destData ∧
  destData ∈ db_trucks (db w1) ∧
  (∀ n d, firstTruck (db_trucks (db w)) n = Some d ->
          firstTruck (db_trucks (db w1)) n = Some d) ∧
  (∀ d, d ∈ db_trucks (db w) -> d ∈ db_trucks (db w1)) ∧
  db_directTransfers (db w1) = db_directTransfers (db w) ∧
  db_logs (db w1) = db_logs (db w) ∧
  db_feeds (db w1) = db_feeds (db w) ∧
  db_godownStock (db w1) = db_godownStock (db w) ∧
  ui w1 = ui w ∧ alerts w1 = alerts w.
Proof.
  unfold resolvedDest.
  destruct (firstTruck (db_trucks (db w)) dst) as [d|] eqn:Hd.
  - split_and!; try done. by apply firstTruck_elem in Hd as [? _].
  - cbn. split_and!; try done.
    + rewrite firstTruck_app, Hd, firstTruck_cons. by rewrite decide_True.
    + apply elem_of_app. right. by left.
    + intros n d Hn. by rewrite firstTruck_app, Hn.
    + intros d Hin. apply elem_of_app. by left.
Qed.

Lemma persistTransfer_run (src dst : string) (items : list Item)
    (srcData destData : Doc Truck) (srcStock' destStock' : list Item) (w1 : World) :
  srcData ∈ db_trucks (db w1) -> destData ∈ db_trucks (db w1) ->
  ∃ w2,
    persistTransfer src dst items srcData destData srcStock' destStock' w1 = (Ok tt, w2) ∧
    db_trucks (db w2) =
      patchDoc (docId destData) (setStock destStock') <$>
        (patchDoc (docId srcData) (setStock srcStock') <$> db_trucks (db w1)) ∧
    db_directTransfers (db w2) =
      db_directTransfers (db w1) ++
        [mkDoc (db_nextId (db w1)) (Transfer.mk src dst items)] ∧
    db_logs (db w2) =
      db_logs (db w1) ++
        [mkDoc (S (db_nextId (db w1))) (LogDirectTransfer src dst items)] ∧
    db_feeds (db w2) = db_feeds (db w1) ∧
    db_godownStock (db w2) = db_godownStock (db w1) ∧
    ui w2 = snapshotOf (db w2) ∧
    alerts w2 = alerts w1 ++ [TransferCompleted].
Proof.
  intros Hs Hd. unfold persistTransfer.
  unfold bind at 1. rewrite updateDoc_run by (by apply hasDoc_elem).
  unfold bind at 1. rewrite updateDoc_run
    by (cbn; rewrite hasDoc_patch; by apply hasDoc_elem).
  cbn. eexists. split_and!; reflexivity.
Qed.

(** A transfer whose items fail validation ends at the notification for
    the item that was not covered, in the world that finding or creating
    the destination record has left. *)
Lemma transfer_refused (w : World) (cap : Snapshot) (src dst : string)
    (items : list Item) (srcData : Doc Truck) :
  src ≠ EmptyString -> dst ≠ EmptyString -> items ≠ [] ->
  firstTruck (db_trucks (db w)) src = Some srcData ->
  failsValidation (stockOf srcData) items ->
  ∃ item, item ∈ items ∧
    transferFromSourceToDest cap src dst items w =
    alert (NotEnoughInSourceTruck (feedNameOrId cap (feedId item)))
          (snd (resolvedDest w dst)).
Proof.
  intros Hsrc Hdst Hitems Hfirst Hfail.
  rewrite (transfer_unfold w cap src dst items srcData) by done.
  destruct (resolvedDest w dst) as [destData w1].
  destruct (proj2 (transferLoop_Returned_iff items (stockOf srcData)
                     (stockOf destData)) Hfail) as [item Hitem].
  rewrite Hitem. exists item. split; [by eapply transferLoop_Returned_elem | done].
Qed.








(** The same example through the handler: the call with the two items
    ends with the notification and has written nothing; the call with one
    of them completes. *)
Example transfer_twice_three_of_five :
  let twice := started (fun cap => transferFromSourceToDest cap "T1" "T2"
                          [mkItem F1 3; mkItem F1 3]) twoTrucks in
  let once := started (fun cap => transferFromSourceToDest cap "T1" "T2"
                         [mkItem F1 3]) twoTrucks in
  alerts (snd twice) = alerts twoTrucks ++ [NotEnoughInSourceTruck (inr F1)] ∧
  db (snd twice) = db twoTrucks ∧
  alerts (snd once) = alerts twoTrucks ++ [TransferCompleted] ∧
  onboardStock (db (snd once)) "T1" = Some [mkItem F1 2] ∧
  onboardStock (db (snd once)) "T2" = Some [mkItem F2 1; mkItem F1 3].
Proof. vm_compute. split_and!; reflexivity. Qed.

Lemma setStock_truckNumber (st : list Item) (t : Truck) :
  truckNumber (setStock st t) = truckNumber t.
Proof. reflexivity. Qed.

Lemma transferLoop_single (f : DocId) (q a : Z) :
  (a <= q)%Z ->
  transferLoop [mkItem f a] [mkItem f q] [] =
  Completed [mkItem f (q - a)] [mkItem f a].
Proof.
  intros Hle. cbn. unfold deduct, credit. cbn.
  rewrite decide_True by done. cbn.
  by rewrite decide_False by lia.
Qed.

(** C5: with [q] of a feed registered on the source truck and no truck
    under the destination number, transferring [a <= q] of it completes:
    the source truck is left with exactly [q - a], the destination truck
    has exactly [a], and exactly one transfer record and one log entry
    with action "Direct Transfer" have been appended.  (The claim is the
    case "TRK2", "TRK3", 10 and 4.) *)
Theorem transfer_end_to_end (w : World) (src dst : string) (f : DocId) (q a : Z)
    (srcData : Doc Truck) :
  src ≠ EmptyString -> dst ≠ EmptyString -> (a <= q)%Z ->
  Forall (fun d => docId d < db_nextId (db w)) (db_trucks (db w)) ->
  firstTruck (db_trucks (db w)) src = Some srcData ->
  stock (docData srcData) = Some [mkItem f q] ->
  firstTruck (db_trucks (db w)) dst = None ->
  let out := started (fun cap =>
               transferFromSourceToDest cap src dst [mkItem f a]) w in
  fst out = Ok tt ∧
  onboardStock (db (snd out)) src = Some [mkItem f (q - a)] ∧
  onboardStock (db (snd out)) dst = Some [mkItem f a] ∧
  (∃ i, db_directTransfers (db (snd out)) =
        db_directTransfers (db w) ++ [mkDoc i (Transfer.mk src dst [mkItem f a])]) ∧
  (∃ i l, db_logs (db (snd out)) = db_logs (db w) ++ [mkDoc i l] ∧
          action l = "Direct Transfer") ∧
  alerts (snd out) = alerts w ++ [TransferCompleted].
Proof.
  intros Hsrc Hdst Hle Hids Hfirst Hstock Hnone. unfold started. cbn zeta.
  set (destData := mkDoc (db_nextId (db w)) (mkTruck dst None None None (Some []))).
  set (w1 := setDb (withNextId (S (db_nextId (db w)))
                      (withDocs trucksC (db_trucks (db w) ++ [destData]) (db w))) w).
  assert (Hrun : transferFromSourceToDest (ui w) src dst [mkItem f a] w =
                 persistTransfer src dst [mkItem f a] srcData destData
                   [mkItem f (q - a)] [mkItem f a] w1).
  { rewrite (transfer_unfold w _ src dst _ srcData) by done.
    unfold resolvedDest. rewrite Hnone. cbn zeta.
    unfold stockOf. rewrite Hstock. cbn [docData stock from_option id].
    by rewrite transferLoop_single. }
  rewrite Hrun. clear Hrun.
  assert (Hs1 : srcData ∈ db_trucks (db w1)).
  { cbn. apply elem_of_app. left. by apply firstTruck_elem in Hfirst as [? _]. }
  assert (Hd1 : destData ∈ db_trucks (db w1)).
  { cbn. apply elem_of_app. right. by left. }
  destruct (persistTransfer_run src dst [mkItem f a] srcData destData
              [mkItem f (q - a)] [mkItem f a] w1 Hs1 Hd1)
    as (w2 & -> & Htrucks & Htr & Hlogs & _ & _ & _ & Hal).
  cbn [fst snd].
  assert (Hsrcid : docId srcData ≠ docId destData).
  { apply firstTruck_elem in Hfirst as [Hin _].
    rewrite Forall_forall in Hids. specialize (Hids _ Hin). cbn. lia. }
  split_and!.
  - done.
  - unfold onboardStock. rewrite Htrucks.
    rewrite !firstTruck_patch by apply setStock_truckNumber.
    cbn [db w1 setDb withNextId withDocs trucksC db_trucks].
    rewrite firstTruck_app, Hfirst. cbn.
    rewrite (patchDoc_same (docId srcData)) by done.
    by rewrite patchDoc_other.
  - unfold onboardStock. rewrite Htrucks.
    rewrite !firstTruck_patch by apply setStock_truckNumber.
    cbn [db w1 setDb withNextId withDocs trucksC db_trucks].
    rewrite firstTruck_app, Hnone, firstTruck_cons.
    rewrite decide_True by done. cbn.
    rewrite (patchDoc_other (docId srcData)) by (cbn in *; congruence).
    by rewrite patchDoc_same.
  - eexists. exact Htr.
  - eexists _, _. split; [exact Hlogs | done].
  - by rewrite Hal.
Qed.

Lemma transfer_end_to_end_witness :
  let out := started (fun cap =>
               transferFromSourceToDest cap "TRK2" "TRK3" [mkItem F1 4]) trk2Loaded in
  onboardStock (db trk2Loaded) "TRK2" = Some [mkItem F1 10] ∧
  onboardStock (db trk2Loaded) "TRK3" = None ∧
  fst out = Ok tt ∧
  onboardStock (db (snd out)) "TRK2" = Some [mkItem F1 6] ∧
  onboardStock (db (snd out)) "TRK3" = Some [mkItem F1 4] ∧
  length (db_directTransfers (db (snd out))) = S (length (db_directTransfers (db trk2Loaded))) ∧
  length (db_logs (db (snd out))) = S (length (db_logs (db trk2Loaded))).
Proof.
  destruct (transfer_end_to_end trk2Loaded "TRK2" "TRK3" F1 10 4
              (mkDoc 0 (mkTruck "TRK2" None None None (Some [mkItem F1 10]))))
    as (Hok & Hs & Hd & [i Htr] & (j & l & Hlogs & _) & _);
    [done | done | lia | | reflexivity | reflexivity | reflexivity |].
  - repeat constructor.
  - split_and!; [reflexivity | reflexivity | exact Hok | exact Hs | exact Hd | |].
    + rewrite Htr, length_app. cbn. lia.
    + rewrite Hlogs, length_app. cbn. lia.
Defined.



(** ** Registering a truck load *)

Lemma numbered_id (items : list Item) : numbered items = items.
Proof.
  unfold numbered. induction items as [|[f q] items IH]; [done|].
  rewrite fmap_cons. cbn. by rewrite IH.
Qed.

Lemma firstTruck_patch_first (l : list (Doc Truck)) (n : string) (d : Doc Truck)
    (p : Truck -> Truck) :
  NoDup (docId <$> l) ->
  firstTruck l n = Some d ->
  truckNumber (p (docData d)) = n ->
  firstTruck (patchDoc (docId d) p <$> l) n = Some (mkDoc (docId d) (p (docData d))).
Proof.
  intros Hnd Hfirst Hp. induction l as [|x l IH]; [done|].
  rewrite fmap_cons in Hnd. apply NoDup_cons in Hnd as [Hx Hnd].
  rewrite firstTruck_cons in Hfirst. rewrite fmap_cons, firstTruck_cons.
  destruct (decide (truckNumber (docData x) = n)) as [Heq|Hne].
  - injection Hfirst as ->. rewrite patchDoc_same by done. cbn.
    by rewrite decide_True.
  - assert (docId x ≠ docId d).
    { intros Hid. apply Hx. rewrite Hid.
      apply list_elem_of_fmap_2. by apply firstTruck_elem in Hfirst as [? _]. }
    rewrite patchDoc_other by done. rewrite decide_False by done. by apply IH.
Qed.

Lemma collOk_patch {A} (n i : DocId) (p : A -> A) (l : list (Doc A)) :
  collOk n l -> collOk n (patchDoc i p <$> l).
Proof.
  intros [Hnd Hlt]. split; [by rewrite patch_ids|].
  apply Forall_fmap. eapply Forall_impl; [exact Hlt|].
  intros d Hd. cbn. by rewrite patchDoc_id.
Qed.

Lemma collOk_add {A} (n : DocId) (a : A) (l : list (Doc A)) :
  collOk n l -> collOk (S n) (l ++ [mkDoc n a]).
Proof.
  intros [Hnd Hlt]. split.
  - rewrite fmap_app. apply NoDup_app. split_and!; [done | | apply NoDup_singleton].
    intros i Hi [->|[]%elem_of_nil]%elem_of_cons.
    apply list_elem_of_fmap in Hi as (d & Hd & Hin).
    rewrite Forall_forall in Hlt. specialize (Hlt d Hin). cbn in Hd. lia.
  - apply Forall_app. split; [|by repeat constructor].
    eapply Forall_impl; [exact Hlt|]. intros d Hd. cbn in *. lia.
Qed.

Lemma collOk_mono {A} (n m : DocId) (l : list (Doc A)) :
  n <= m -> collOk n l -> collOk m l.
Proof.
  intros Hnm [Hnd Hlt]. split; [done|].
  eapply Forall_impl; [exact Hlt|]. intros d Hd. cbn in *. lia.
Qed.

(** One registration. *)
Lemma registerLoad_once (w : World) (truckNo : string) (its : list Item) :
  truckNo ≠ EmptyString -> its ≠ [] ->
  collOk (db_nextId (db w)) (db_trucks (db w)) ->
  ∃ w',
    registerSourceTruckLoad truckNo its w = (Ok tt, w') ∧
    collOk (db_nextId (db w')) (db_trucks (db w')) ∧
    onboardStock (db w') truckNo = Some its ∧
    match firstTruck (db_trucks (db w)) truckNo with
    | Some d =>
        firstTruck (db_trucks (db w')) truckNo =
          Some (mkDoc (docId d)
                  (mkTruck truckNo (type (docData d)) (destinations (docData d))
                           (items (docData d)) (Some its))) ∧
        docId <$> db_trucks (db w') = docId <$> db_trucks (db w)
    | None =>
        db_trucks (db w') =
          db_trucks (db w) ++
            [mkDoc (db_nextId (db w)) (mkTruck truckNo None None None (Some its))]
    end ∧
    (∃ i, db_logs (db w') =
          db_logs (db w) ++ [mkDoc i (LogRegisterTruckLoad truckNo its)]).
Proof.
  intros Hn Hits Hok.
  unfold registerSourceTruckLoad, falsy.
  rewrite bool_decide_eq_false_2 by done.
  assert (noLength its = false) as -> by (by destruct its).
  cbn [orb]. rewrite numbered_id.
  unfold bind at 1, getDocsWhere at 1. cbn [docsOf trucksC].
  pose proof (firstTruck_match (db_trucks (db w)) truckNo) as Hm.
  destruct (filter _ (db_trucks (db w))) as [|docRef rest].
  - rewrite Hm. cbn. eexists. split; [reflexivity|]. cbn.
    split_and!; [ | | done | by eexists].
    + apply collOk_mono with (S (db_nextId (db w))); [lia|].
      by apply collOk_add.
    + unfold onboardStock. cbn.
      rewrite firstTruck_app, Hm, firstTruck_cons. by rewrite decide_True.
  - rewrite Hm.
    assert (Hin : docRef ∈ db_trucks (db w)) by (by apply firstTruck_elem in Hm as [? _]).
    unfold bind at 1 2. rewrite updateDoc_run by (by apply hasDoc_elem).
    cbn -[patchDoc]. eexists. split; [reflexivity|]. cbn -[patchDoc].
    pose proof (firstTruck_patch_first (db_trucks (db w)) truckNo docRef
                  (setTruckNumberAndStock truckNo its) (proj1 Hok) Hm eq_refl) as Hf.
    split_and!; [ | | exact Hf | apply patch_ids | by eexists].
    + apply collOk_mono with (db_nextId (db w)); [lia|]. by apply collOk_patch.
    + unfold onboardStock. cbn -[patchDoc]. by rewrite Hf.
Qed.

(** C9: registering a load for a truck number sets the onboard stock of
    that truck to exactly the items given: after [its1] and then [its2]
    the stock is [its2], with nothing of [its1] left; the second
    registration finds the record and creates none.  When no truck had the
    number, the first registration creates the record. *)
Theorem registerLoad_overwrites (w : World) (truckNo : string) (its1 its2 : list Item) :
  truckNo ≠ EmptyString -> its1 ≠ [] -> its2 ≠ [] ->
  collOk (db_nextId (db w)) (db_trucks (db w)) ->
  let w1 := snd (registerSourceTruckLoad truckNo its1 w) in
  let w2 := snd (registerSourceTruckLoad truckNo its2 w1) in
  onboardStock (db w1) truckNo = Some its1 ∧
  onboardStock (db w2) truckNo = Some its2 ∧
  docId <$> db_trucks (db w2) = docId <$> db_trucks (db w1) ∧
  (firstTruck (db_trucks (db w)) truckNo = None ->
   db_trucks (db w1) =
     db_trucks (db w) ++
       [mkDoc (db_nextId (db w)) (mkTruck truckNo None None None (Some its1))]) ∧
  (∀ d, firstTruck (db_trucks (db w)) truckNo = Some d ->
        docId <$> db_trucks (db w1) = docId <$> db_trucks (db w) ∧
        firstTruck (db_trucks (db w1)) truckNo =
          Some (mkDoc (docId d)
                  (mkTruck truckNo (type (docData d)) (destinations (docData d))
                           (items (docData d)) (Some its1)))).
Proof.
  intros Hn H1 H2 Hok. cbn zeta.
  destruct (registerLoad_once w truckNo its1 Hn H1 Hok)
    as (w1 & -> & Hok1 & Hs1 & Hcase1 & _). cbn [snd].
  destruct (registerLoad_once w1 truckNo its2 Hn H2 Hok1)
    as (w2 & -> & _ & Hs2 & Hcase2 & _). cbn [snd].
  split_and!; [done | done | | |].
  - destruct (firstTruck (db_trucks (db w1)) truckNo) as [d|] eqn:Hd.
    + by destruct Hcase2.
    + unfold onboardStock in Hs1. by rewrite Hd in Hs1.
  - intros Hnone. by rewrite Hnone in Hcase1.
  - intros d Hd. rewrite Hd in Hcase1. by destruct Hcase1.
Qed.

(** The example of the specification: [(F1,10)], then [(F2,5)]. *)
Lemma registerLoad_overwrites_witness :
  let w1 := snd (registerSourceTruckLoad "TRK2" [mkItem F1 10] emptyWorld) in
  let w2 := snd (registerSourceTruckLoad "TRK2" [mkItem F2 5] w1) in
  onboardStock (db w1) "TRK2" = Some [mkItem F1 10] ∧
  onboardStock (db w2) "TRK2" = Some [mkItem F2 5] ∧
  length (db_trucks (db w2)) = 1.
Proof.
  destruct (registerLoad_overwrites emptyWorld "TRK2" [mkItem F1 10] [mkItem F2 5])
    as (Hs1 & Hs2 & _); [done | done | done | |].
  - split; [apply NoDup_nil_2 | apply Forall_nil_2].
  - split_and!; [exact Hs1 | exact Hs2 | reflexivity].
Defined.

(** ** Truck movements and the ledger *)

Lemma findGodown_elem (l : list (Doc Item)) (f : DocId) (e : Doc Item) :
  findGodown l f = Some e -> e ∈ l ∧ feedId (docData e) = f.
Proof. intros H. exact (jsFind_Some_elem _ _ _ H). Qed.

Lemma findGodown_None (l : list (Doc Item)) (f : DocId) :
  findGodown l f = None <-> f ∉ feedId ∘ docData <$> l.
Proof.
  unfold findGodown. rewrite jsFind_None, Forall_forall. split.
  - intros H (d & -> & Hd)%list_elem_of_fmap. by apply (H d).
  - intros H d Hd Hf. apply H. apply list_elem_of_fmap. by exists d.
Qed.

(** Writing a new quantity into the entry found for [f]. *)
Lemma ledger_patch_step (l : list (Doc Item)) (e : Doc Item) (f : DocId) (q' : Z) :
  NoDup (docId <$> l) ->
  findGodown l f = Some e ->
  let l1 := patchDoc (docId e) (setQuantity q') <$> l in
  findGodown l1 f = Some (mkDoc (docId e) (mkItem f q')) ∧
  (∀ f', f' ≠ f -> findGodown l1 f' = findGodown l f') ∧
  feedId ∘ docData <$> l1 = feedId ∘ docData <$> l.
Proof.
  intros Hnd Hfind. cbn zeta.
  destruct (findGodown_elem _ _ _ Hfind) as [Hin Hf].
  split_and!.
  - rewrite findGodown_setQuantity, Hfind. cbn.
    rewrite patchDoc_same by done. unfold setQuantity. by rewrite Hf.
  - intros f' Hne. rewrite findGodown_setQuantity.
    destruct (findGodown l f') as [e'|] eqn:He'; [|done]. cbn.
    destruct (findGodown_elem _ _ _ He') as [Hin' Hf'].
    rewrite patchDoc_other; [done|]. intros Hid.
    assert (e' = e) by (by eapply (docId_inj 0 l)). congruence.
  - rewrite <- list_fmap_compose. apply list_fmap_ext.
    intros ? d _. cbn. apply setQuantity_feedId.
Qed.

(** Adding an entry for a feed that has none. *)
Lemma ledger_append_step (l : list (Doc Item)) (f : DocId) (q : Z) (n : DocId) :
  findGodown l f = None ->
  let l1 := l ++ [mkDoc n (mkItem f q)] in
  findGodown l1 f = Some (mkDoc n (mkItem f q)) ∧
  (∀ f', f' ≠ f -> findGodown l1 f' = findGodown l f').
Proof.
  intros Hnone. cbn zeta. unfold findGodown in *. split.
  - rewrite jsFind_app, Hnone, jsFind_cons. by rewrite decide_True.
  - intros f' Hne. rewrite jsFind_app.
    destruct (jsFind (fun g : Doc Item => feedId (docData g) = f') l); [done|].
    rewrite jsFind_cons. by rewrite decide_False by (cbn; congruence).
Qed.

Lemma godownSynced_capIn (w : World) : godownSynced w -> capIn (ui w) w.
Proof. intros Hs d Hd. rewrite Hs in Hd. by apply hasDoc_elem. Qed.

(** One turn of the loop of an incoming movement. *)
Lemma addOrIncrease_step (cap : Snapshot) (it : Item) (rest : list Item) (w : World) :
  feedId it ∉ feedId <$> rest ->
  loopInv cap (it :: rest) w ->
  ∃ w',
    addOrIncreaseGodown cap (feedId it) (quantity it) w = (Ok tt, w') ∧
    loopInv cap rest w' ∧ ledgerOnly w w' ∧ alerts w' = alerts w ∧
    ui w' = snapshotOf (db w') ∧
    (∀ f, godownQty (db_godownStock (db w')) f =
          (godownQty (db_godownStock (db w)) f +
           if decide (feedId it = f) then quantity it else 0)%Z) ∧
    (NoDup (feedId ∘ docData <$> db_godownStock (db w)) ->
     NoDup (feedId ∘ docData <$> db_godownStock (db w'))).
Proof.
  intros Hfresh (Hok & Hcap & Hsame).
  pose proof (Hsame it (list_elem_of_here _ _)) as Hit.
  unfold addOrIncreaseGodown.
  destruct (findGodown (godown cap) (feedId it)) as [e|] eqn:Hcapfind.
  - destruct (findGodown_elem _ _ _ Hcapfind) as [Hecap _].
    unfold bind at 1. rewrite updateDoc_run by (by apply Hcap).
    cbn -[patchDoc]. eexists. split; [reflexivity|]. cbn -[patchDoc].
    destruct (ledger_patch_step (db_godownStock (db w)) e (feedId it)
                (quantity (docData e) + quantity it) (proj1 Hok) Hit)
      as (Hnew & Hother & Hfeeds).
    split_and!; try done.
    + split_and!.
      * by apply collOk_patch.
      * intros d Hd. cbn -[patchDoc]. rewrite hasDoc_patch. by apply Hcap.
      * intros it' Hin'. cbn -[patchDoc]. rewrite Hother.
        -- apply Hsame. by right.
        -- intros Heq. apply Hfresh. rewrite <- Heq. by apply list_elem_of_fmap_2.
    + intros f. unfold godownQty. destruct (decide (feedId it = f)) as [<-|Hne].
      * rewrite Hnew, Hit. cbn. lia.
      * rewrite Hother by done. lia.
    + by rewrite Hfeeds.
  - unfold bind at 1 2, addDoc, ret, fetchAll. cbn.
    eexists. split; [reflexivity|]. cbn.
    destruct (ledger_append_step (db_godownStock (db w)) (feedId it) (quantity it)
                (db_nextId (db w)) Hit) as (Hnew & Hother).
    split_and!; try done.
    + split_and!.
      * by apply collOk_add.
      * intros d Hd. cbn. rewrite hasDoc_app, (Hcap d Hd). done.
      * intros it' Hin'. cbn. rewrite Hother.
        -- apply Hsame. by right.
        -- intros Heq. apply Hfresh. rewrite <- Heq. by apply list_elem_of_fmap_2.
    + intros f. unfold godownQty. destruct (decide (feedId it = f)) as [<-|Hne].
      * rewrite Hnew, Hit. cbn. lia.
      * rewrite Hother by done. lia.
    + intros Hnd. rewrite fmap_app. apply NoDup_app. split_and!.
      * done.
      * intros f Hf [->|[]%elem_of_nil]%elem_of_cons.
        by apply findGodown_None in Hit.
      * apply NoDup_singleton.
Qed.

Lemma tryDecrease_step (cap : Snapshot) (it : Item) (rest : list Item) (w : World) :
  feedId it ∉ feedId <$> rest ->
  loopInv cap (it :: rest) w ->
  ∃ w',
    tryDecrease cap it w = (Ok tt, w') ∧
    loopInv cap rest w' ∧ ledgerOnly w w' ∧
    (∀ f, godownQty (db_godownStock (db w')) f =
          (godownQty (db_godownStock (db w)) f -
           if decide (covered (godown cap) it)
           then (if decide (feedId it = f) then quantity it else 0)
           else 0)%Z) ∧
    feedId ∘ docData <$> db_godownStock (db w') =
      feedId ∘ docData <$> db_godownStock (db w) ∧
    alerts w' =
      alerts w ++
        (if decide (covered (godown cap) it) then []
         else [NotEnoughGodownStockFor (feedNameOr cap (feedId it))]).
Proof.
  intros Hfresh (Hok & Hcap & Hsame).
  pose proof (Hsame it (list_elem_of_here _ _)) as Hit.
  assert (Hrest : ∀ it', it' ∈ rest ->
            findGodown (db_godownStock (db w)) (feedId it') =
            findGodown (godown cap) (feedId it')).
  { intros it' Hin'. apply Hsame. by right. }
  unfold tryDecrease, tryCatch, decreaseGodown.
  destruct (decide (covered (godown cap) it)) as [Hc|Hc]; unfold covered in Hc;
    destruct (findGodown (godown cap) (feedId it)) as [e|] eqn:Hcapfind;
    try done.
  - rewrite decide_False by lia.
    destruct (findGodown_elem _ _ _ Hcapfind) as [Hecap _].
    unfold bind at 1. rewrite updateDoc_run by (by apply Hcap).
    cbn -[patchDoc]. eexists. split; [reflexivity|]. cbn -[patchDoc].
    destruct (ledger_patch_step (db_godownStock (db w)) e (feedId it)
                (quantity (docData e) - quantity it) (proj1 Hok) Hit)
      as (Hnew & Hother & Hfeeds).
    split_and!; try done.
    + split_and!.
      * by apply collOk_patch.
      * intros d Hd. cbn -[patchDoc]. rewrite hasDoc_patch. by apply Hcap.
      * intros it' Hin'. cbn -[patchDoc]. rewrite Hother; [by apply Hrest|].
        intros Heq. apply Hfresh. rewrite <- Heq. by apply list_elem_of_fmap_2.
    + intros f. unfold godownQty. destruct (decide (feedId it = f)) as [<-|Hne].
      * rewrite Hnew, Hit. cbn. lia.
      * rewrite Hother by done. lia.
    + by rewrite app_nil_r.
  - rewrite decide_True by lia. cbn.
    eexists. split; [reflexivity|]. cbn.
    split_and!; try done. intros f. lia.
  - cbn. eexists. split; [reflexivity|]. cbn.
    split_and!; try done. intros f. lia.
Qed.

Lemma ledgerOnly_refl (w : World) : ledgerOnly w w.
Proof. by repeat split. Qed.

Lemma ledgerOnly_trans (w1 w2 w3 : World) :
  ledgerOnly w1 w2 -> ledgerOnly w2 w3 -> ledgerOnly w1 w3.
Proof.
  intros (?&?&?&?) (?&?&?&?). unfold ledgerOnly. split_and!; congruence.
Qed.

(** The loop of an incoming movement whose items name distinct feeds. *)
Lemma incoming_loop (cap : Snapshot) (its : list Item) (w : World) :
  NoDup (feedId <$> its) ->
  loopInv cap its w ->
  ∃ w',
    forOf its (fun it => addOrIncreaseGodown cap (feedId it) (quantity it)) w = (Ok tt, w') ∧
    ledgerOnly w w' ∧ alerts w' = alerts w ∧
    collOk (db_nextId (db w')) (db_godownStock (db w')) ∧
    (∀ f, godownQty (db_godownStock (db w')) f =
          (godownQty (db_godownStock (db w)) f + taken its f)%Z) ∧
    (NoDup (feedId ∘ docData <$> db_godownStock (db w)) ->
     NoDup (feedId ∘ docData <$> db_godownStock (db w'))).
Proof.
  revert w. induction its as [|it rest IH]; intros w Hnd Hinv.
  - exists w. cbn. split_and!; try done.
    + apply Hinv.
    + intros f. rewrite taken_nil. lia.
  - rewrite fmap_cons in Hnd. apply NoDup_cons in Hnd as [Hfresh Hnd].
    destruct (addOrIncrease_step cap it rest w Hfresh Hinv)
      as (w1 & Hrun1 & Hinv1 & Hframe1 & Hal1 & _ & Hq1 & Hnd1).
    destruct (IH w1 Hnd Hinv1) as (w2 & Hrun2 & Hframe2 & Hal2 & Hok2 & Hq2 & Hnd2).
    exists w2. cbn [forOf]. unfold bind at 1. rewrite Hrun1, Hrun2.
    split_and!; try done.
    + by eapply ledgerOnly_trans.
    + congruence.
    + intros f. rewrite Hq2, Hq1, taken_cons. lia.
    + auto.
Qed.

(** The loop of an outgoing movement whose items name distinct feeds. *)
Lemma outgoing_loop (cap : Snapshot) (its : list Item) (w : World) :
  NoDup (feedId <$> its) ->
  loopInv cap its w ->
  ∃ w',
    forOf its (tryDecrease cap) w = (Ok tt, w') ∧
    ledgerOnly w w' ∧
    collOk (db_nextId (db w')) (db_godownStock (db w')) ∧
    (∀ f, godownQty (db_godownStock (db w')) f =
          (godownQty (db_godownStock (db w)) f -
           taken (filter (covered (godown cap)) its) f)%Z) ∧
    feedId ∘ docData <$> db_godownStock (db w') =
      feedId ∘ docData <$> db_godownStock (db w) ∧
    alerts w' =
      alerts w ++
        ((fun it => NotEnoughGodownStockFor (feedNameOr cap (feedId it))) <$>
           filter (fun it => ¬ covered (godown cap) it) its).
Proof.
  revert w. induction its as [|it rest IH]; intros w Hnd Hinv.
  - exists w. cbn. split_and!; try done.
    + apply Hinv.
    + intros f. rewrite taken_nil. lia.
    + by rewrite app_nil_r.
  - rewrite fmap_cons in Hnd. apply NoDup_cons in Hnd as [Hfresh Hnd].
    destruct (tryDecrease_step cap it rest w Hfresh Hinv)
      as (w1 & Hrun1 & Hinv1 & Hframe1 & Hq1 & Hfeeds1 & Hal1).
    destruct (IH w1 Hnd Hinv1) as (w2 & Hrun2 & Hframe2 & Hok2 & Hq2 & Hfeeds2 & Hal2).
    exists w2. cbn [forOf]. unfold bind at 1. rewrite Hrun1, Hrun2.
    split_and!; try done.
    + by eapply ledgerOnly_trans.
    + intros f. rewrite Hq2, Hq1, !filter_cons.
      destruct (decide (covered (godown cap) it)); [rewrite taken_cons|]; lia.
    + congruence.
    + rewrite Hal2, Hal1, !filter_cons, <- app_assoc. f_equal.
      destruct (decide (covered (godown cap) it)) as [Hc|Hc].
      * by rewrite decide_False by tauto.
      * by rewrite decide_True.
Qed.

(** Without any assumption on the items, the loops end normally and
    write to the ledger only. *)
Lemma incoming_loop_frame (cap : Snapshot) (its : list Item) (w : World) :
  capIn cap w ->
  ∃ w',
    forOf its (fun it => addOrIncreaseGodown cap (feedId it) (quantity it)) w = (Ok tt, w') ∧
    ledgerOnly w w'.
Proof.
  revert w. induction its as [|it rest IH]; intros w Hcap.
  - exists w. split; [done | apply ledgerOnly_refl].
  - cbn [forOf]. unfold bind at 1, addOrIncreaseGodown.
    destruct (findGodown (godown cap) (feedId it)) as [e|] eqn:Hfind.
    + destruct (findGodown_elem _ _ _ Hfind) as [Hecap _].
      unfold bind at 1. rewrite updateDoc_run by (by apply Hcap).
      cbn -[patchDoc forOf].
      edestruct IH as (w2 & -> & Hframe).
      * intros d Hd. cbn -[patchDoc]. rewrite hasDoc_patch. by apply Hcap.
      * exists w2. split; [done|].
        eapply ledgerOnly_trans; [|exact Hframe]. by repeat split.
    + unfold bind at 1 2, addDoc, ret, fetchAll. cbn -[forOf].
      edestruct IH as (w2 & -> & Hframe).
      * intros d Hd. cbn. rewrite hasDoc_app, (Hcap d Hd). done.
      * exists w2. split; [done|].
        eapply ledgerOnly_trans; [|exact Hframe]. by repeat split.
Qed.

Lemma outgoing_loop_frame (cap : Snapshot) (its : list Item) (w : World) :
  ∃ w', forOf its (tryDecrease cap) w = (Ok tt, w') ∧ ledgerOnly w w'.
Proof.
  revert w. induction its as [|it rest IH]; intros w.
  - exists w. split; [done | apply ledgerOnly_refl].
  - cbn [forOf]. unfold bind at 1.
    assert (∃ w1, tryDecrease cap it w = (Ok tt, w1) ∧ ledgerOnly w w1)
      as (w1 & -> & Hframe1).
    { unfold tryDecrease, tryCatch, decreaseGodown.
      destruct (findGodown (godown cap) (feedId it)) as [e|].
      - destruct (decide _).
        + cbn. eexists. split; [reflexivity | by repeat split].
        + unfold bind, updateDoc. cbn.
          destruct (hasDoc _ _); cbn; eexists; (split; [reflexivity | by repeat split]).
      - cbn. eexists. split; [reflexivity | by repeat split]. }
    destruct (IH w1) as (w2 & -> & Hframe2).
    exists w2. split; [done | by eapply ledgerOnly_trans].
Qed.

Lemma submitTruckEntry_unfold (cap : Snapshot) (truckNumber type destinations : string)
    (its : list Item) (w : World) :
  truckNumber ≠ EmptyString -> its ≠ [] ->
  submitTruckEntry cap truckNumber type destinations its w =
  (ledgerLoop cap type its ;;
   (let* _ := addDoc logsC
      (LogTruckEntry truckNumber type (parseDestinations destinations) its) in
    fetchAll ;; alert TruckEntrySaved))
    (movementRecorded w truckNumber type destinations its).
Proof.
  intros Hn Hits. unfold submitTruckEntry, falsy.
  rewrite bool_decide_eq_false_2 by done.
  assert (noLength its = false) as -> by (by destruct its).
  cbn [orb]. rewrite numbered_id. reflexivity.
Qed.

Lemma ledgerLoop_frame (cap : Snapshot) (type : string) (its : list Item) (w : World) :
  capIn cap w ->
  ∃ w', ledgerLoop cap type its w = (Ok tt, w') ∧ ledgerOnly w w'.
Proof.
  intros Hcap. unfold ledgerLoop.
  destruct (decide (type = "incoming")); [by apply incoming_loop_frame|].
  destruct (decide (type = "outgoing")); [by apply outgoing_loop_frame|].
  exists w. split; [done | apply ledgerOnly_refl].
Qed.




(** A movement whose items name distinct feeds, from a render that knows
    the ledger: what it does to the quantities and to the feeds of the
    ledger. *)
Lemma submitTruckEntry_ledger (w : World)
    (truckNumber type destinations : string) (its : list Item) :
  truckNumber ≠ EmptyString -> its ≠ [] -> godownSynced w ->
  collOk (db_nextId (db w)) (db_godownStock (db w)) ->
  NoDup (feedId <$> its) ->
  let out := started (fun cap =>
               submitTruckEntry cap truckNumber type destinations its) w in
  let before := db_godownStock (db w) in
  let after := db_godownStock (db (snd out)) in
  fst out = Ok tt ∧
  (type = "incoming" -> ∀ f, godownQty after f = (godownQty before f + taken its f)%Z) ∧
  (type = "outgoing" -> (∀ it, it ∈ its -> covered before it) ->
   ∀ f, godownQty after f = (godownQty before f - taken its f)%Z) ∧
  (NoDup (feedId ∘ docData <$> before) -> NoDup (feedId ∘ docData <$> after)).
Proof.
  intros Hn Hits Hsync Hok Hnd. unfold started. cbn zeta.
  rewrite submitTruckEntry_unfold by done.
  set (w0 := movementRecorded w truckNumber type destinations its).
  assert (Hinv0 : loopInv (ui w) its w0).
  { split_and!.
    - apply collOk_mono with (db_nextId (db w)); [cbn; lia | done].
    - by apply godownSynced_capIn in Hsync.
    - intros it _. cbn. by rewrite Hsync. }
  assert (Hloop : ∃ w1,
    ledgerLoop (ui w) type its w0 = (Ok tt, w1) ∧
    (type = "incoming" ->
     ∀ f, godownQty (db_godownStock (db w1)) f =
          (godownQty (db_godownStock (db w)) f + taken its f)%Z) ∧
    (type = "outgoing" ->
     ∀ f, godownQty (db_godownStock (db w1)) f =
          (godownQty (db_godownStock (db w)) f -
           taken (filter (covered (db_godownStock (db w))) its) f)%Z) ∧
    (NoDup (feedId ∘ docData <$> db_godownStock (db w)) ->
     NoDup (feedId ∘ docData <$> db_godownStock (db w1)))).
  { unfold ledgerLoop. destruct (decide (type = "incoming")) as [->|Hin].
    - destruct (incoming_loop (ui w) its w0 Hnd Hinv0)
        as (w1 & Hrun & _ & _ & _ & Hq & Hu).
      exists w1. split_and!; [done | by intros _ | done | done].
    - destruct (decide (type = "outgoing")) as [->|Hout].
      + destruct (outgoing_loop (ui w) its w0 Hnd Hinv0)
          as (w1 & Hrun & _ & _ & Hq & Hfeeds & _).
        exists w1. split_and!; [done | done | | ].
        * intros _ f. rewrite Hq. cbn. by rewrite Hsync.
        * intros Hu. by rewrite Hfeeds.
      + exists w0. split_and!; done. }
  destruct Hloop as (w1 & Hrun & Hin & Hout & Hu).
  assert (∃ w2,
    (ledgerLoop (ui w) type its ;;
     (let* _ := addDoc logsC
        (LogTruckEntry truckNumber type (parseDestinations destinations) its) in
      fetchAll ;; alert TruckEntrySaved)) w0 = (Ok tt, w2) ∧
    db_godownStock (db w2) = db_godownStock (db w1))
    as (w2 & -> & Hgod2).
  { unfold bind at 1. rewrite Hrun. cbn. eexists. split_and!; reflexivity. }
  cbn [fst snd]. rewrite Hgod2. split_and!; [done | done | | done].
  intros Hty Hcov f. rewrite (Hout Hty f).
  replace (filter (covered (db_godownStock (db w))) its) with its; [done|].
  clear -Hcov. induction its as [|it its IH]; [done|].
  rewrite filter_cons_True by (apply Hcov; by left).
  f_equal. apply IH. intros it' Hin'. apply Hcov. by right.
Qed.




(** ** One entry per feed *)

Lemma NoDup_fmap_filter {A B} (f : A -> B) (P : A -> Prop) `{!∀ x, Decision (P x)}
    (l : list A) :
  NoDup (f <$> l) -> NoDup (f <$> filter P l).
Proof.
  induction l as [|x l IH]; [done|].
  rewrite fmap_cons, filter_cons. intros [Hx Hnd]%NoDup_cons.
  destruct (decide (P x)); [|by apply IH].
  rewrite fmap_cons. apply NoDup_cons. split; [|by apply IH].
  intros (y & Hy & Hin)%list_elem_of_fmap. apply Hx.
  apply list_elem_of_fmap. exists y. split; [done|].
  by apply list_elem_of_filter in Hin as [_ ?].
Qed.

Lemma deleteDocs_ledger (ds : list (Doc Item)) (w : World) :
  ∃ w',
    forOf ds (fun s => deleteDoc godownStockC (docId s)) w = (Ok tt, w') ∧
    (ledgerUnique (db w) -> ledgerUnique (db w')).
Proof.
  revert w. induction ds as [|d ds IH]; intros w.
  - by exists w.
  - cbn [forOf]. unfold bind at 1, deleteDoc at 1. cbn -[forOf].
    edestruct IH as (w2 & -> & Hu). exists w2. split; [done|].
    intros Hw. apply Hu. unfold ledgerUnique in *. cbn.
    by apply NoDup_fmap_filter.
Qed.

Section LedgerUnique.
Context (w : World).
Hypothesis Hsync : godownSynced w.
Hypothesis Hok : collOk (db_nextId (db w)) (db_godownStock (db w)).
Hypothesis Hu : ledgerUnique (db w).

(** The "+" of the stock table, and any single increase. *)
Lemma increase_keeps_unique (f : DocId) (q : Z) :
  ledgerUnique (db (snd (started (fun cap => addOrIncreaseGodown cap f q) w))).
Proof.
  destruct (addOrIncrease_step (ui w) (mkItem f q) [] w)
    as (w' & Hrun & _ & _ & _ & _ & _ & Hkeep).
  - by intros ?%elem_of_nil.
  - split_and!; [done | by apply godownSynced_capIn |].
    intros it _. by rewrite Hsync.
  - unfold started. cbn in Hrun. rewrite Hrun. by apply Hkeep.
Qed.

(** The "-" of the stock table, and any single decrease. *)
Lemma decrease_keeps_unique (f : DocId) (q : Z) :
  ledgerUnique (db (snd (started (fun cap => decreaseGodown cap f q) w))).
Proof.
  unfold started, decreaseGodown.
  destruct (findGodown (godown (ui w)) f) as [e|] eqn:Hfind; [|done].
  destruct (decide _); [done|].
  destruct (findGodown_elem _ _ _ Hfind) as [Hin _].
  unfold bind. rewrite updateDoc_run
    by (by apply (godownSynced_capIn w Hsync)).
  unfold ledgerUnique in *. cbn -[patchDoc].
  rewrite <- list_fmap_compose.
  erewrite list_fmap_ext; [exact Hu|].
  intros ? d _. cbn. apply setQuantity_feedId.
Qed.

(** A truck movement whose items name distinct feeds. *)
Lemma movement_keeps_unique (truckNumber type destinations : string) (its : list Item) :
  NoDup (feedId <$> its) ->
  ledgerUnique
    (db (snd (started (fun cap =>
                submitTruckEntry cap truckNumber type destinations its) w))).
Proof.
  intros Hnd.
  destruct (decide (truckNumber = EmptyString)) as [->|Hn]; [done|].
  destruct its as [|it its'] eqn:Eits.
  { unfold started, submitTruckEntry, falsy.
    rewrite bool_decide_eq_false_2 by done. done. }
  rewrite <- Eits in *.
  assert (Hits : its ≠ []) by (by rewrite Eits).
  by destruct (submitTruckEntry_ledger w truckNumber type destinations
                 its Hn Hits Hsync Hok Hnd) as (_ & _ & _ & Hkeep); apply Hkeep.
Qed.

(** Adding a feed, when no entry refers to an identifier that the store
    has not handed out yet. *)
Lemma addFeed_keeps_unique (feedObj : Feed) (initialQty : Z) :
  Forall (fun g => feedId (docData g) < db_nextId (db w)) (db_godownStock (db w)) ->
  ledgerUnique (db (snd (handleAddFeed feedObj initialQty w))).
Proof.
  intros Hrefs. unfold handleAddFeed.
  destruct (decide (initialQty > 0)%Z); [|done].
  unfold ledgerUnique in *. cbn.
  rewrite fmap_app. apply NoDup_app. split_and!; [done | | apply NoDup_singleton].
  intros f (e & -> & He)%list_elem_of_fmap [Heq|[]%elem_of_nil]%elem_of_cons.
  rewrite Forall_forall in Hrefs. specialize (Hrefs e He). cbn in *. lia.
Qed.

Lemma editFeed_keeps_unique (fid : DocId) (patch : FeedPatch) :
  ledgerUnique (db (snd (handleEditFeed fid patch w))).
Proof.
  unfold handleEditFeed, bind, updateDoc. cbn.
  by destruct (hasDoc fid (db_feeds (db w))).
Qed.

Lemma deleteFeed_keeps_unique (fid : DocId) :
  ledgerUnique (db (snd (started (fun cap => handleDeleteFeed cap fid) w))).
Proof.
  unfold started, handleDeleteFeed. unfold bind at 1, deleteDoc at 1.
  cbn -[forOf]. unfold bind at 1.
  edestruct deleteDocs_ledger as (w' & -> & Hkeep). cbn. by apply Hkeep.
Qed.
End LedgerUnique.

(** C3, for the lists a form can submit: from a render that knows the
    ledger, every operation on the warehouse keeps the ledger at one
    entry per feed at most: an increase, a decrease, a truck movement
    whose items name pairwise distinct feeds, and adding, editing or
    deleting a feed (a feed is added under an identifier that no entry
    refers to yet). *)
Theorem ledgerUnique_preserved (w : World) :
  godownSynced w ->
  collOk (db_nextId (db w)) (db_godownStock (db w)) ->
  ledgerUnique (db w) ->
  (∀ f q, ledgerUnique
            (db (snd (started (fun cap => addOrIncreaseGodown cap f q) w)))) ∧
  (∀ f q, ledgerUnique
            (db (snd (started (fun cap => decreaseGodown cap f q) w)))) ∧
  (∀ truckNumber type destinations its,
     NoDup (feedId <$> its) ->
     ledgerUnique
       (db (snd (started (fun cap =>
                   submitTruckEntry cap truckNumber type destinations its) w)))) ∧
  (∀ feedObj initialQty,
     Forall (fun g => feedId (docData g) < db_nextId (db w)) (db_godownStock (db w)) ->
     ledgerUnique (db (snd (handleAddFeed feedObj initialQty w)))) ∧
  (∀ fid patch, ledgerUnique (db (snd (handleEditFeed fid patch w)))) ∧
  (∀ fid, ledgerUnique
            (db (snd (started (fun cap => handleDeleteFeed cap fid) w)))).
Proof.
  intros Hsync Hok Hu. split_and!.
  - intros f q. by apply increase_keeps_unique.
  - intros f q. by apply decrease_keeps_unique.
  - intros truckNumber type destinations its Hnd. by apply movement_keeps_unique.
  - intros feedObj initialQty Hrefs. by apply addFeed_keeps_unique.
  - intros fid patch. by apply editFeed_keeps_unique.
  - intros fid. by apply deleteFeed_keeps_unique.
Qed.

(** 10 of [F1] in stock, in one entry: still one entry per feed after an
    incoming movement for the two feeds of the catalog and after adding a
    feed with initial stock. *)
Lemma ledgerUnique_preserved_witness :
  ledgerUnique (db tenOfF1) ∧
  ledgerUnique
    (db (snd (started (fun cap =>
                submitTruckEntry cap "TRK1" "incoming" EmptyString
                  [mkItem F1 5; mkItem 0 2]) tenOfF1))) ∧
  ledgerUnique
    (db (snd (handleAddFeed (mkFeed "Growfin 4mm" "Fish Feed Growfin" 1350) 12 tenOfF1))).
Proof.
  assert (Hu : ledgerUnique (db tenOfF1)).
  { apply (bool_decide_unpack _). vm_compute. reflexivity. }
  destruct (ledgerUnique_preserved tenOfF1) as (_ & _ & Hmove & Hadd & _);
    [reflexivity | | exact Hu |].
  { split; apply (bool_decide_unpack _); vm_compute; reflexivity. }
  split_and!; [exact Hu | |].
  - apply Hmove. apply (bool_decide_unpack _). vm_compute. reflexivity.
  - apply Hadd. apply (bool_decide_unpack _). vm_compute. reflexivity.
Defined.

(** The counterexample to C3 as stated, at a movement that lists a feed
    twice.  The catalog has the feed [F1], the ledger has no entry, and an
    incoming movement lists 1 of [F1] and then 2 of [F1].  Both turns of
    the loop look for the entry in the [godown] of the render that created
    the handler, find none, and call [addDoc]: the ledger ends with two
    entries for [F1]. *)
Lemma movement_same_feed_twice_two_entries :
  let out := started (fun cap =>
               submitTruckEntry cap "TRK1" "incoming" EmptyString
                 [mkItem F1 1; mkItem F1 2]) catalog in
  godownSynced catalog ∧
  findFeed (ui catalog) F1 =
    Some (mkDoc F1 (mkFeed "Nutriva 2mm" "Fish Feed Nutriva" 1450)) ∧
  ledgerUnique (db catalog) ∧
  fst out = Ok tt ∧
  docData <$> db_godownStock (db (snd out)) = [mkItem F1 1; mkItem F1 2] ∧
  ¬ ledgerUnique (db (snd out)).
Proof.
  cbn zeta. split_and!; try (vm_compute; reflexivity).
  - apply NoDup_nil_2.
  - unfold ledgerUnique.
    replace (feedId ∘ docData <$> _) with [F1; F1] by (vm_compute; reflexivity).
    intros [Hx _]%NoDup_cons. apply Hx. by left.
Qed.

(** ** The snapshot stays current

    Every handler that writes to the ledger ends with [fetchAll], and a
    handler that ends early has not written to the ledger: started from a
    render whose [godown] is the ledger of the store, every handler leaves
    a world of the same kind.  The empty world is one. *)

Lemma emptyWorld_synced : godownSynced emptyWorld.
Proof. reflexivity. Qed.

Section Synced.
Context (w : World).
Hypothesis Hsync : godownSynced w.

Lemma increase_synced (f : DocId) (q : Z) :
  godownSynced (snd (started (fun cap => addOrIncreaseGodown cap f q) w)).
Proof.
  unfold started, addOrIncreaseGodown.
  destruct (findGodown (godown (ui w)) f) as [e|] eqn:Hfind.
  - destruct (findGodown_elem _ _ _ Hfind) as [Hin _].
    unfold bind. rewrite updateDoc_run by (by apply (godownSynced_capIn w Hsync)).
    reflexivity.
  - reflexivity.
Qed.

Lemma decrease_synced (f : DocId) (q : Z) :
  godownSynced (snd (started (fun cap => decreaseGodown cap f q) w)).
Proof.
  unfold started, decreaseGodown.
  destruct (findGodown (godown (ui w)) f) as [e|] eqn:Hfind; [|done].
  destruct (decide _); [done|].
  destruct (findGodown_elem _ _ _ Hfind) as [Hin _].
  unfold bind. rewrite updateDoc_run by (by apply (godownSynced_capIn w Hsync)).
  reflexivity.
Qed.

Lemma submitTruckEntry_synced (truckNumber type destinations : string) (its : list Item) :
  godownSynced
    (snd (started (fun cap =>
            submitTruckEntry cap truckNumber type destinations its) w)).
Proof.
  destruct (decide (truckNumber = EmptyString)) as [->|Hn]; [done|].
  destruct its as [|it its'] eqn:Eits.
  { unfold started, submitTruckEntry, falsy.
    rewrite bool_decide_eq_false_2 by done. done. }
  rewrite <- Eits in *.
  assert (Hits : its ≠ []) by (by rewrite Eits).
  unfold started. rewrite submitTruckEntry_unfold by done.
  destruct (ledgerLoop_frame (ui w) type its
              (movementRecorded w truckNumber type destinations its))
    as (w1 & Hrun & _).
  { by apply (godownSynced_capIn w Hsync). }
  unfold bind at 1. rewrite Hrun. reflexivity.
Qed.

Lemma addFeed_synced (feedObj : Feed) (initialQty : Z) :
  godownSynced (snd (handleAddFeed feedObj initialQty w)).
Proof. unfold handleAddFeed. by destruct (decide _). Qed.

Lemma editFeed_synced (fid : DocId) (patch : FeedPatch) :
  godownSynced (snd (handleEditFeed fid patch w)).
Proof.
  unfold handleEditFeed, bind, updateDoc. cbn.
  by destruct (hasDoc fid (db_feeds (db w))).
Qed.

Lemma deleteFeed_synced (fid : DocId) :
  godownSynced (snd (started (fun cap => handleDeleteFeed cap fid) w)).
Proof.
  unfold started, handleDeleteFeed. unfold bind at 1, deleteDoc at 1.
  cbn -[forOf]. unfold bind at 1.
  edestruct deleteDocs_ledger as (w' & -> & _). reflexivity.
Qed.

Lemma registerLoad_synced (truckNo : string) (its : list Item) :
  godownSynced (snd (registerSourceTruckLoad truckNo its w)).
Proof.
  unfold registerSourceTruckLoad.
  destruct (falsy truckNo || noLength its); [done|].
  unfold bind at 1, getDocsWhere at 1.
  destruct (filter _ _) as [|docRef rest]; [reflexivity|].
  unfold bind, updateDoc. cbn. by destruct (hasDoc _ _).
Qed.

Lemma transfer_synced (src dst : string) (its : list Item) :
  godownSynced (snd (started (fun cap =>
                       transferFromSourceToDest cap src dst its) w)).
Proof.
  unfold started.
  destruct (decide (src = EmptyString)) as [->|Hs]; [done|].
  destruct (decide (dst = EmptyString)) as [->|Hd].
  { unfold transferFromSourceToDest, falsy.
    rewrite (bool_decide_eq_false_2 (src = EmptyString)) by done. done. }
  destruct its as [|it its'] eqn:Eits.
  { unfold transferFromSourceToDest, falsy.
    rewrite !bool_decide_eq_false_2 by done. done. }
  rewrite <- Eits in *.
  assert (Hits : its ≠ []) by (by rewrite Eits).
  destruct (firstTruck (db_trucks (db w)) src) as [srcData|] eqn:Hfirst.
  - rewrite (transfer_unfold w _ src dst its srcData) by done.
    pose proof (resolvedDest_spec w dst) as Hres.
    destruct (resolvedDest w dst) as [destData w1].
    destruct Hres as (_ & Hdin & _ & Hsin & _ & _ & _ & Hgod & Hui & _).
    destruct (transferLoop its _ _) as [item|s' d'].
    + unfold godownSynced. cbn. by rewrite Hui, Hgod.
    + destruct (persistTransfer_run src dst its srcData destData s' d' w1)
        as (w2 & -> & _ & _ & _ & _ & _ & Hui2 & _); [|done|].
      * apply Hsin. by apply firstTruck_elem in Hfirst as [? _].
      * unfold godownSynced. cbn. by rewrite Hui2.
  - unfold transferFromSourceToDest, falsy.
    rewrite !bool_decide_eq_false_2 by done.
    assert (noLength its = false) as -> by (by destruct its).
    cbn [orb]. unfold bind at 1, getDocsWhere at 1. cbn [docsOf trucksC].
    pose proof (firstTruck_match (db_trucks (db w)) src) as Hm.
    destruct (filter _ (db_trucks (db w))); [done | congruence].
Qed.
End Synced.

(** ** The item lists of the forms *)




(** ** What the handlers keep

    A relation that is reflexive and transitive and that every store
    operation of a handler respects is respected by the handler. *)

Section Keeps.
Context (R : World -> World -> Prop) `{!Reflexive R, !Transitive R}.

Lemma keeps_ret {A} (a : A) : keeps R (ret a).
Proof. intros w. reflexivity. Qed.

Lemma keeps_throw {A} (e : Error) : keeps R (@throw A e).
Proof. intros w. reflexivity. Qed.

Lemma keeps_bind {A B} (m : M A) (k : A -> M B) :
  keeps R m -> (∀ a, keeps R (k a)) -> keeps R (bind m k).
Proof.
  intros Hm Hk w. unfold bind. specialize (Hm w).
  destruct (m w) as [[a|e] w1]; cbn in *; [|done].
  etransitivity; [exact Hm | apply Hk].
Qed.

Lemma keeps_tryCatch {A} (m : M A) (h : Error -> M A) :
  keeps R m -> (∀ e, keeps R (h e)) -> keeps R (tryCatch m h).
Proof.
  intros Hm Hh w. unfold tryCatch. specialize (Hm w).
  destruct (m w) as [[a|e] w1]; cbn in *; [done|].
  etransitivity; [exact Hm | apply Hh].
Qed.

Lemma keeps_forOf {A} (xs : list A) (body : A -> M unit) :
  (∀ x, keeps R (body x)) -> keeps R (forOf xs body).
Proof.
  intros Hb. induction xs as [|x xs IH]; cbn [forOf].
  - apply keeps_ret.
  - apply keeps_bind; [apply Hb | intros _; exact IH].
Qed.

Lemma keeps_getDocsWhere {A} (c : Collection A) (p : A -> bool) :
  keeps R (getDocsWhere c p).
Proof. intros w. reflexivity. Qed.
End Keeps.

#[global] Instance whenever_refl I : Reflexive (whenever I).
Proof. intros w H. exact H. Qed.
#[global] Instance whenever_trans I : Transitive (whenever I).
Proof. intros w1 w2 w3 H12 H23 H. by apply H23, H12. Qed.

#[global] Instance appendOnly_refl : Reflexive appendOnly.
Proof. intros w. by split. Qed.
#[global] Instance appendOnly_trans : Transitive appendOnly.
Proof. intros w1 w2 w3 [? ?] [? ?]. split; by etransitivity. Qed.

#[global] Instance sameCatalogAndLedger_refl : Reflexive sameCatalogAndLedger.
Proof. intros w. by split. Qed.
#[global] Instance sameCatalogAndLedger_trans : Transitive sameCatalogAndLedger.
Proof. intros w1 w2 w3 [? ?] [? ?]. split; congruence. Qed.

#[global] Instance sameRegistryAndAudit_refl : Reflexive sameRegistryAndAudit.
Proof. intros w. by repeat split. Qed.
#[global] Instance sameRegistryAndAudit_trans : Transitive sameRegistryAndAudit.
Proof. intros w1 w2 w3 (?&?&?) (?&?&?). repeat split; congruence. Qed.

(** Splits a handler into its store operations. *)
Ltac keeps_steps :=
  repeat match goal with
  | |- Reflexive _ => apply _
  | |- Transitive _ => apply _
  | |- forall _, _ => intro
  | |- keeps _ (ret _) => apply keeps_ret
  | |- keeps _ (throw _) => apply keeps_throw
  | |- keeps _ (getDocsWhere _ _) => apply keeps_getDocsWhere
  | |- keeps _ (bind _ _) => apply keeps_bind
  | |- keeps _ (tryCatch _ _) => apply keeps_tryCatch
  | |- keeps _ (forOf _ _) => apply keeps_forOf
  | |- keeps _ (match ?x with _ => _ end) => destruct x
  | |- keeps _ (if ?b then _ else _) => destruct b
  end.

Create HintDb keeps discriminated.

(** Settles one store operation: the collections the relation names are
    the ones the operation leaves alone, or grow at their end. *)
Ltac keeps_op :=
  let w := fresh "w" in
  intros w;
  unfold updateDoc, deleteDoc, addDoc, alert, fetchAll; cbn;
  try match goal with |- context [hasDoc ?i ?l] => destruct (hasDoc i l) end;
  cbn; repeat split;
  first [ done | apply prefix_app_r; done ].

#[global] Hint Extern 1 (keeps _ (alert _)) => solve [keeps_op] : keeps.
#[global] Hint Extern 1 (keeps _ fetchAll) => solve [keeps_op] : keeps.
#[global] Hint Extern 1 (keeps _ (addDoc _ _)) => solve [keeps_op] : keeps.
#[global] Hint Extern 1 (keeps _ (updateDoc _ _ _)) => solve [keeps_op] : keeps.
#[global] Hint Extern 1 (keeps _ (deleteDoc _ _)) => solve [keeps_op] : keeps.

(** Splits a handler into its store operations and settles each. *)
Ltac keeps_handler := keeps_steps; auto with keeps.

#[global] Instance ledgerOnly_Reflexive : Reflexive ledgerOnly.
Proof. intros w. apply ledgerOnly_refl. Qed.
#[global] Instance ledgerOnly_Transitive : Transitive ledgerOnly.
Proof. intros w1 w2 w3. apply ledgerOnly_trans. Qed.

(** X1: no handler removes or changes a log entry or a transfer record:
    after any handler, from any render and with any arguments, [logs] and
    [directTransfers] are what they were, possibly with new documents at
    the end. *)
Theorem handlers_append_only (cap : Snapshot) (w : World) :
  (∀ f q, appendOnly w (snd (addOrIncreaseGodown cap f q w))) ∧
  (∀ f q, appendOnly w (snd (decreaseGodown cap f q w))) ∧
  (∀ feedObj q, appendOnly w (snd (handleAddFeed feedObj q w))) ∧
  (∀ fid patch, appendOnly w (snd (handleEditFeed fid patch w))) ∧
  (∀ fid, appendOnly w (snd (handleDeleteFeed cap fid w))) ∧
  (∀ truckNo ty dests its,
     appendOnly w (snd (submitTruckEntry cap truckNo ty dests its w))) ∧
  (∀ truckNo its, appendOnly w (snd (registerSourceTruckLoad truckNo its w))) ∧
  (∀ src dst its, appendOnly w (snd (transferFromSourceToDest cap src dst its w))).
Proof.
  split_and!; intros.
  - revert w. change (keeps appendOnly (addOrIncreaseGodown cap f q)).
    unfold addOrIncreaseGodown. keeps_handler.
  - revert w. change (keeps appendOnly (decreaseGodown cap f q)).
    unfold decreaseGodown. keeps_handler.
  - revert w. change (keeps appendOnly (handleAddFeed feedObj q)).
    unfold handleAddFeed. keeps_handler.
  - revert w. change (keeps appendOnly (handleEditFeed fid patch)).
    unfold handleEditFeed. keeps_handler.
  - revert w. change (keeps appendOnly (handleDeleteFeed cap fid)).
    unfold handleDeleteFeed. keeps_handler.
  - revert w.
    change (keeps appendOnly (submitTruckEntry cap truckNo ty dests its)).
    unfold submitTruckEntry, tryDecrease, decreaseGodown, addOrIncreaseGodown.
    keeps_handler.
  - revert w. change (keeps appendOnly (registerSourceTruckLoad truckNo its)).
    unfold registerSourceTruckLoad. keeps_handler.
  - revert w. change (keeps appendOnly (transferFromSourceToDest cap src dst its)).
    unfold transferFromSourceToDest. keeps_handler.
Qed.

(** X2: every handler writes only to its own collections.  Registering a
    truck load and a direct transfer leave the catalog and the warehouse
    ledger as they were; an increase or a decrease of the warehouse, also
    from the "+1" and "-1" buttons, writes to the ledger only; adding,
    editing and deleting a feed leave the truck registry, the transfer
    records and the logs as they were. *)
Theorem handlers_write_their_collections (cap : Snapshot) (w : World) :
  (∀ truckNo its,
     sameCatalogAndLedger w (snd (registerSourceTruckLoad truckNo its w))) ∧
  (∀ src dst its,
     sameCatalogAndLedger w (snd (transferFromSourceToDest cap src dst its w))) ∧
  (∀ f q, ledgerOnly w (snd (addOrIncreaseGodown cap f q w))) ∧
  (∀ f q, ledgerOnly w (snd (decreaseGodown cap f q w))) ∧
  (∀ f, ledgerOnly w (snd (plusOne cap f w))) ∧
  (∀ f, ledgerOnly w (snd (minusOne cap f w))) ∧
  (∀ feedObj q, sameRegistryAndAudit w (snd (handleAddFeed feedObj q w))) ∧
  (∀ fid patch, sameRegistryAndAudit w (snd (handleEditFeed fid patch w))) ∧
  (∀ fid, sameRegistryAndAudit w (snd (handleDeleteFeed cap fid w))).
Proof.
  split_and!; intros.
  - revert w. change (keeps sameCatalogAndLedger (registerSourceTruckLoad truckNo its)).
    unfold registerSourceTruckLoad. keeps_handler.
  - revert w. change (keeps sameCatalogAndLedger (transferFromSourceToDest cap src dst its)).
    unfold transferFromSourceToDest. keeps_handler.
  - revert w. change (keeps ledgerOnly (addOrIncreaseGodown cap f q)).
    unfold addOrIncreaseGodown. keeps_handler.
  - revert w. change (keeps ledgerOnly (decreaseGodown cap f q)).
    unfold decreaseGodown. keeps_handler.
  - revert w. change (keeps ledgerOnly (plusOne cap f)).
    unfold plusOne, addOrIncreaseGodown. keeps_handler.
  - revert w. change (keeps ledgerOnly (minusOne cap f)).
    unfold minusOne, decreaseGodown. keeps_handler.
  - revert w. change (keeps sameRegistryAndAudit (handleAddFeed feedObj q)).
    unfold handleAddFeed. keeps_handler.
  - revert w. change (keeps sameRegistryAndAudit (handleEditFeed fid patch)).
    unfold handleEditFeed. keeps_handler.
  - revert w. change (keeps sameRegistryAndAudit (handleDeleteFeed cap fid)).
    unfold handleDeleteFeed. keeps_handler.
Qed.

Lemma collOk_filter {A} (n : DocId) (P : Doc A -> Prop) `{!∀ x, Decision (P x)}
    (l : list (Doc A)) :
  collOk n l -> collOk n (filter P l).
Proof.
  intros [Hnd Hlt]. split; [by apply NoDup_fmap_filter|].
  apply Forall_forall. intros d [_ Hd]%list_elem_of_filter.
  rewrite Forall_forall in Hlt. by apply Hlt.
Qed.

(** Settles one store operation for [storeOk]. *)
Ltac storeOk_op :=
  let w := fresh "w" in
  let H := fresh "H" in
  intros w H; destruct H as (?&?&?&?&?);
  unfold updateDoc, deleteDoc, addDoc, alert, fetchAll; cbn;
  try match goal with |- context [hasDoc ?i ?l] => destruct (hasDoc i l) end;
  cbn; unfold storeOk; cbn; split_and!;
  first [ done
        | by apply collOk_add
        | by apply collOk_patch
        | by apply collOk_filter
        | eapply collOk_mono; [|eassumption]; lia ].

#[global] Hint Extern 0 (keeps (whenever storeOk) (alert _)) =>
  solve [storeOk_op] : keeps.
#[global] Hint Extern 0 (keeps (whenever storeOk) fetchAll) =>
  solve [storeOk_op] : keeps.
#[global] Hint Extern 0 (keeps (whenever storeOk) (addDoc _ _)) =>
  solve [storeOk_op] : keeps.
#[global] Hint Extern 0 (keeps (whenever storeOk) (updateDoc _ _ _)) =>
  solve [storeOk_op] : keeps.
#[global] Hint Extern 0 (keeps (whenever storeOk) (deleteDoc _ _)) =>
  solve [storeOk_op] : keeps.

(** ** The ledger never goes below zero *)

Lemma ledgerNonneg_setQuantity (i : DocId) (q : Z) :
  (0 <= q)%Z -> keeps (whenever ledgerNonneg) (updateDoc godownStockC i (setQuantity q)).
Proof.
  intros Hq w Hw. unfold updateDoc. cbn.
  destruct (hasDoc i (db_godownStock (db w))); [|done].
  unfold ledgerNonneg in *. cbn. apply Forall_fmap.
  eapply Forall_impl; [exact Hw|]. intros d Hd. cbn.
  unfold patchDoc. by destruct (decide _).
Qed.

Lemma ledgerNonneg_add (f : DocId) (q : Z) :
  (0 <= q)%Z -> keeps (whenever ledgerNonneg) (addDoc godownStockC (mkItem f q)).
Proof.
  intros Hq w Hw. unfold ledgerNonneg in *. cbn.
  apply Forall_app. split; [done | by repeat constructor].
Qed.

Lemma ledgerNonneg_delete (i : DocId) :
  keeps (whenever ledgerNonneg) (deleteDoc godownStockC i).
Proof.
  intros w Hw. unfold ledgerNonneg in *. cbn.
  apply Forall_forall. intros d [_ Hd]%list_elem_of_filter.
  rewrite Forall_forall in Hw. by apply Hw.
Qed.

(** Settles a store operation that does not write to the ledger. *)
Ltac ledger_untouched :=
  let w := fresh "w" in
  let H := fresh "H" in
  intros w H; unfold updateDoc, deleteDoc, addDoc, alert, fetchAll; cbn;
  try match goal with |- context [hasDoc ?i ?l] => destruct (hasDoc i l) end;
  exact H.

Lemma decreaseGodown_nonneg (cap : Snapshot) (f : DocId) (q : Z) :
  keeps (whenever ledgerNonneg) (decreaseGodown cap f q).
Proof.
  unfold decreaseGodown. keeps_steps; try ledger_untouched.
  apply ledgerNonneg_setQuantity. lia.
Qed.

Lemma addOrIncreaseGodown_nonneg (cap : Snapshot) (f : DocId) (q : Z) :
  Forall (fun g => (0 <= quantity (docData g))%Z) (godown cap) ->
  (0 <= q)%Z ->
  keeps (whenever ledgerNonneg) (addOrIncreaseGodown cap f q).
Proof.
  intros Hcap Hq. unfold addOrIncreaseGodown.
  destruct (findGodown (godown cap) f) as [e|] eqn:Hfind;
    keeps_steps; try ledger_untouched.
  - apply ledgerNonneg_setQuantity.
    apply findGodown_elem in Hfind as [Hin _].
    rewrite Forall_forall in Hcap. specialize (Hcap e Hin). cbn in Hcap. lia.
  - by apply ledgerNonneg_add.
Qed.

(** X4: the warehouse never goes below zero by a deduction.  If no
    ledger entry is negative, none is negative after a decrease, after the
    "-1" button, after an outgoing truck movement (whatever its items,
    also when they name a feed twice, and whatever the render knows), or
    after deleting a feed; and none is negative after an increase, an
    incoming movement or adding a feed when the quantities entered are not
    negative and the render's entries are not. *)
Theorem ledger_never_negative (cap : Snapshot) (w : World) :
  ledgerNonneg w ->
  (∀ f q, ledgerNonneg (snd (decreaseGodown cap f q w))) ∧
  (∀ f, ledgerNonneg (snd (minusOne cap f w))) ∧
  (∀ truckNo dests its,
     ledgerNonneg (snd (submitTruckEntry cap truckNo "outgoing" dests its w))) ∧
  (∀ fid, ledgerNonneg (snd (handleDeleteFeed cap fid w))) ∧
  (Forall (fun g => (0 <= quantity (docData g))%Z) (godown cap) ->
   (∀ f q, (0 <= q)%Z -> ledgerNonneg (snd (addOrIncreaseGodown cap f q w))) ∧
   (∀ truckNo ty dests its,
      Forall (fun it => (0 <= quantity it)%Z) its ->
      ledgerNonneg (snd (submitTruckEntry cap truckNo ty dests its w)))) ∧
  (∀ feedObj q, ledgerNonneg (snd (handleAddFeed feedObj q w))).
Proof.
  intros Hw. split_and!; intros.
  - by apply decreaseGodown_nonneg.
  - revert w Hw. change (keeps (whenever ledgerNonneg) (minusOne cap f)).
    unfold minusOne. keeps_steps; [apply decreaseGodown_nonneg | ledger_untouched].
  - revert w Hw.
    change (keeps (whenever ledgerNonneg)
              (submitTruckEntry cap truckNo "outgoing" dests its)).
    unfold submitTruckEntry, tryDecrease. rewrite decide_False by done.
    rewrite decide_True by done.
    keeps_steps; try ledger_untouched. apply decreaseGodown_nonneg.
  - revert w Hw. change (keeps (whenever ledgerNonneg) (handleDeleteFeed cap fid)).
    unfold handleDeleteFeed.
    keeps_steps; try ledger_untouched. apply ledgerNonneg_delete.
  - split.
    + intros f q Hq. by apply addOrIncreaseGodown_nonneg.
    + intros truckNo ty dests its Hits. revert w Hw.
      change (keeps (whenever ledgerNonneg) (submitTruckEntry cap truckNo ty dests its)).
      unfold submitTruckEntry, tryDecrease.
      destruct (falsy truckNo || noLength its); [ledger_untouched|].
      apply keeps_bind; [apply _ | ledger_untouched | intros _].
      apply keeps_bind; [apply _ | | intros _; keeps_steps; ledger_untouched].
      destruct (decide (ty = "incoming")).
      * clear -H Hits. induction its as [|it its IH]; cbn [forOf].
        -- apply keeps_ret; apply _.
        -- apply Forall_cons in Hits as [Hit Hits].
           apply keeps_bind; [apply _ | | intros _; by apply IH].
           by apply addOrIncreaseGodown_nonneg.
      * keeps_steps; try ledger_untouched. apply decreaseGodown_nonneg.
  - revert w Hw. change (keeps (whenever ledgerNonneg) (handleAddFeed feedObj q)).
    unfold handleAddFeed.
    keeps_steps; try ledger_untouched. apply ledgerNonneg_add. lia.
Qed.

(** The ledger holds 10 of [F1]; an outgoing movement asks 6 of it twice,
    the "-1" button is pressed for a feed without entry. *)
Lemma ledger_never_negative_witness :
  ledgerNonneg tenOfF1 ∧
  ledgerNonneg
    (snd (started (fun cap =>
            submitTruckEntry cap "TRK1" "outgoing" EmptyString
              [mkItem F1 6; mkItem F1 6]) tenOfF1)) ∧
  ledgerNonneg (snd (started (fun cap => minusOne cap F2) tenOfF1)).
Proof.
  assert (Hw : ledgerNonneg tenOfF1).
  { apply (bool_decide_unpack _). vm_compute. reflexivity. }
  destruct (ledger_never_negative (ui tenOfF1) tenOfF1 Hw) as (_ & Hminus & Hout & _).
  split_and!; [exact Hw | apply Hout | apply Hminus].
Defined.

(** ** Increases and decreases, one after the other *)

(** One increase from a render that knows the ledger. *)
Lemma increase_run (w : World) (f : DocId) (q : Z) :
  godownSynced w ->
  collOk (db_nextId (db w)) (db_godownStock (db w)) ->
  ∃ w',
    started (fun cap => addOrIncreaseGodown cap f q) w = (Ok tt, w') ∧
    godownSynced w' ∧
    collOk (db_nextId (db w')) (db_godownStock (db w')) ∧
    ∀ g, godownQty (db_godownStock (db w')) g =
         (godownQty (db_godownStock (db w)) g + if decide (f = g) then q else 0)%Z.
Proof.
  intros Hsync Hok.
  destruct (addOrIncrease_step (ui w) (mkItem f q) [] w)
    as (w' & Hrun & Hinv & _ & _ & Hui & Hq & _).
  - by intros ?%elem_of_nil.
  - split_and!; [done | by apply godownSynced_capIn |].
    intros it _. by rewrite Hsync.
  - exists w'. split_and!; [exact Hrun | | apply Hinv | exact Hq].
    unfold godownSynced. by rewrite Hui.
Qed.

(** One decrease from a render that knows the ledger. *)
Lemma decrease_run (w : World) (f : DocId) (q : Z) :
  godownSynced w ->
  collOk (db_nextId (db w)) (db_godownStock (db w)) ->
  match findGodown (db_godownStock (db w)) f with
  | Some e =>
      if decide (quantity (docData e) < q)%Z
      then started (fun cap => decreaseGodown cap f q) w = (Thrown NotEnoughGodownStock, w)
      else ∃ w',
        started (fun cap => decreaseGodown cap f q) w = (Ok tt, w') ∧
        godownSynced w' ∧
        collOk (db_nextId (db w')) (db_godownStock (db w')) ∧
        (∀ g, godownQty (db_godownStock (db w')) g =
              (godownQty (db_godownStock (db w)) g - if decide (f = g) then q else 0)%Z) ∧
        feedId ∘ docData <$> db_godownStock (db w') =
          feedId ∘ docData <$> db_godownStock (db w)
  | None => started (fun cap => decreaseGodown cap f q) w = (Thrown NotEnoughGodownStock, w)
  end.
Proof.
  intros Hsync Hok. unfold started, decreaseGodown. rewrite Hsync.
  destruct (findGodown (db_godownStock (db w)) f) as [e|] eqn:Hfind; [|done].
  destruct (decide _) as [Hlt|Hge]; [done|].
  destruct (findGodown_elem _ _ _ Hfind) as [Hin _].
  unfold bind. rewrite updateDoc_run by (by apply hasDoc_elem).
  cbn -[patchDoc]. eexists. split; [reflexivity|]. cbn -[patchDoc].
  destruct (ledger_patch_step (db_godownStock (db w)) e f
              (quantity (docData e) - q) (proj1 Hok) Hfind)
    as (Hnew & Hother & Hfeeds).
  split_and!; [done | by apply collOk_patch | | done].
  intros g. unfold godownQty. destruct (decide (f = g)) as [<-|Hne].
  - rewrite Hnew, Hfind. cbn. lia.
  - rewrite Hother by done. lia.
Qed.

(** X5: increases add up.  From a render that knows the ledger, an
    increase of a feed by [a] followed, from the next render, by an
    increase by [b] leaves that feed at its starting quantity plus
    [a + b] (a feed without entry starts at 0) and every other feed where
    it was.  The second increase reads what the first has written; the
    two additions of the code are exact because the starting quantity,
    the two amounts and the two results are safe integers. *)
Theorem increase_twice_adds (w : World) (f : DocId) (a b : Z) :
  godownSynced w ->
  collOk (db_nextId (db w)) (db_godownStock (db w)) ->
  safeInteger (godownQty (db_godownStock (db w)) f) ->
  safeInteger a -> safeInteger b ->
  safeInteger (godownQty (db_godownStock (db w)) f + a) ->
  safeInteger (godownQty (db_godownStock (db w)) f + a + b) ->
  let w1 := snd (started (fun cap => addOrIncreaseGodown cap f a) w) in
  let w2 := snd (started (fun cap => addOrIncreaseGodown cap f b) w1) in
  ∀ g, godownQty (db_godownStock (db w2)) g =
       (godownQty (db_godownStock (db w)) g + if decide (f = g) then a + b else 0)%Z.
Proof.
  intros Hsync Hok _ _ _ _ _. cbn zeta.
  destruct (increase_run w f a Hsync Hok) as (w1 & -> & Hsync1 & Hok1 & Hq1).
  cbn [snd].
  destruct (increase_run w1 f b Hsync1 Hok1) as (w2 & -> & _ & _ & Hq2).
  cbn [snd]. intros g. rewrite Hq2, Hq1. destruct (decide (f = g)); lia.
Qed.

(** The ledger has no entry for [F2]: an increase by 4, then an increase
    by 9. *)
Lemma increase_twice_adds_witness :
  godownQty (db_godownStock (db tenOfF1)) F2 = 0%Z ∧
  godownQty
    (db_godownStock
       (db (snd (started (fun cap => addOrIncreaseGodown cap F2 9)
                   (snd (started (fun cap => addOrIncreaseGodown cap F2 4) tenOfF1))))))
    F2 = 13%Z.
Proof.
  split; [reflexivity|].
  rewrite (increase_twice_adds tenOfF1 F2 4 9); [reflexivity | reflexivity | ..].
  - split; apply (bool_decide_unpack _); vm_compute; reflexivity.
  - apply (bool_decide_unpack _). vm_compute. reflexivity.
  - apply (bool_decide_unpack _). vm_compute. reflexivity.
  - apply (bool_decide_unpack _). vm_compute. reflexivity.
  - apply (bool_decide_unpack _). vm_compute. reflexivity.
  - apply (bool_decide_unpack _). vm_compute. reflexivity.
Defined.

(** After an increase the feed has an entry in the ledger. *)
Lemma increase_entry (w : World) (f : DocId) (q : Z) :
  godownSynced w ->
  collOk (db_nextId (db w)) (db_godownStock (db w)) ->
  is_Some (findGodown
             (db_godownStock
                (db (snd (started (fun cap => addOrIncreaseGodown cap f q) w)))) f).
Proof.
  intros Hsync Hok. unfold started, addOrIncreaseGodown. rewrite Hsync.
  destruct (findGodown (db_godownStock (db w)) f) as [e|] eqn:Hfind.
  - destruct (findGodown_elem _ _ _ Hfind) as [Hin _].
    unfold bind. rewrite updateDoc_run by (by apply hasDoc_elem).
    cbn -[patchDoc].
    destruct (ledger_patch_step (db_godownStock (db w)) e f
                (quantity (docData e) + q) (proj1 Hok) Hfind) as (-> & _).
    by eexists.
  - unfold bind, addDoc, ret, fetchAll. cbn.
    destruct (ledger_append_step (db_godownStock (db w)) f q
                (db_nextId (db w)) Hfind) as (-> & _).
    by eexists.
Qed.

(** X6: an increase by [q] followed by a decrease by [q] of the same feed
    gives every feed its quantity back, provided the feed was not below
    zero; the entry that the increase may have created stays, at its old
    quantity or at 0.  If the feed was below zero the decrease is refused
    instead.  The decrease reads what the increase has written; the
    addition, the comparison and the subtraction of the code are exact
    because the starting quantity, the amount and their sum are safe
    integers. *)
Theorem increase_then_decrease (w : World) (f : DocId) (q : Z) :
  godownSynced w ->
  collOk (db_nextId (db w)) (db_godownStock (db w)) ->
  safeInteger (godownQty (db_godownStock (db w)) f) ->
  safeInteger q ->
  safeInteger (godownQty (db_godownStock (db w)) f + q) ->
  let w1 := snd (started (fun cap => addOrIncreaseGodown cap f q) w) in
  let out := started (fun cap => decreaseGodown cap f q) w1 in
  ((0 <= godownQty (db_godownStock (db w)) f)%Z ->
   fst out = Ok tt ∧
   (∀ g, godownQty (db_godownStock (db (snd out))) g =
         godownQty (db_godownStock (db w)) g) ∧
   is_Some (findGodown (db_godownStock (db (snd out))) f)) ∧
  ((godownQty (db_godownStock (db w)) f < 0)%Z ->
   out = (Thrown NotEnoughGodownStock, w1)).
Proof.
  intros Hsync Hok _ _ _. cbn zeta.
  pose proof (increase_entry w f q Hsync Hok) as [e Hfind].
  destruct (increase_run w f q Hsync Hok) as (w1 & Hrun & Hsync1 & Hok1 & Hq1).
  rewrite Hrun in Hfind |- *. cbn [snd] in Hfind |- *.
  pose proof (decrease_run w1 f q Hsync1 Hok1) as Hdec.
  pose proof (Hq1 f) as Hf. rewrite decide_True in Hf by done.
  unfold godownQty in Hf at 1. rewrite Hfind in Hdec, Hf. cbn in Hf.
  destruct (decide (quantity (docData e) < q)%Z) as [Hlt|Hge].
  - split; [lia | by intros _].
  - destruct Hdec as (w2 & -> & _ & _ & Hq2 & Hfeeds). cbn [fst snd].
    split; [|lia]. intros _. split_and!; [done | |].
    + intros g. rewrite Hq2, Hq1. destruct (decide (f = g)); lia.
    + destruct (findGodown (db_godownStock (db w2)) f) eqn:E; [by eexists|].
      apply findGodown_None in E. rewrite Hfeeds in E.
      apply findGodown_elem in Hfind as [Hin <-].
      destruct E. apply list_elem_of_fmap. by exists e.
Qed.

(** [F2] has no entry: after plus 4 and minus 4 it has one, of quantity 0. *)
Lemma increase_then_decrease_witness :
  findGodown (db_godownStock (db tenOfF1)) F2 = None ∧
  let out := started (fun cap => decreaseGodown cap F2 4)
               (snd (started (fun cap => addOrIncreaseGodown cap F2 4) tenOfF1)) in
  fst out = Ok tt ∧
  (∀ g, godownQty (db_godownStock (db (snd out))) g =
        godownQty (db_godownStock (db tenOfF1)) g) ∧
  is_Some (findGodown (db_godownStock (db (snd out))) F2).
Proof.
  split; [reflexivity|].
  apply (increase_then_decrease tenOfF1 F2 4).
  - reflexivity.
  - split; apply (bool_decide_unpack _); vm_compute; reflexivity.
  - apply (bool_decide_unpack _). vm_compute. reflexivity.
  - apply (bool_decide_unpack _). vm_compute. reflexivity.
  - apply (bool_decide_unpack _). vm_compute. reflexivity.
  - vm_compute. discriminate.
Defined.

(** ** What a completed transfer moves *)

Lemma taken_not_elem (items : list Item) (f : DocId) :
  f ∉ feedId <$> items -> taken items f = 0%Z.
Proof.
  induction items as [|it items IH]; [done|].
  rewrite fmap_cons, not_elem_of_cons, taken_cons. intros [Hne Hnot].
  rewrite decide_False by done. rewrite IH by done. lia.
Qed.

(** A list that passes validation names only feeds of the source stock. *)
Lemma valid_feeds_on_board (src items : list Item) (f : DocId) :
  ¬ failsValidation src items -> f ∈ feedId <$> items -> is_Some (firstQty src f).
Proof.
  intros Hvalid (it & -> & Hin)%list_elem_of_fmap.
  destruct (firstQty src (feedId it)) eqn:Hq; [by eexists|].
  destruct Hvalid. apply list_elem_of_split in Hin as (pre & post & ->).
  exists pre, it, post. by rewrite Hq.
Qed.

(** The destination side of one turn of the loop. *)
Lemma credit_qty (dst : list Item) (it : Item) (f : DocId) :
  default 0%Z (firstQty (credit dst it) f) =
  (default 0 (firstQty dst f) + if decide (feedId it = f) then quantity it else 0)%Z.
Proof.
  destruct (firstQty dst (feedId it)) as [q|] eqn:Hq.
  - rewrite credit_found by (by eapply firstQty_Some_elem).
    rewrite firstQty_addToFirst.
    destruct (decide (f = feedId it)) as [->|Hne].
    + rewrite Hq, decide_True by done. done.
    + rewrite decide_False by done. lia.
  - assert (Hnone : list_find (fun s => feedId s = feedId it) dst = None).
    { apply list_find_None. unfold firstQty in Hq.
      destruct (jsFind _ dst) eqn:E; [done|]. by apply jsFind_None in E. }
    unfold credit. rewrite Hnone, firstQty_app.
    destruct (decide (feedId it = f)) as [<-|Hne].
    + rewrite Hq, firstQty_cons. cbn. by rewrite decide_True.
    + destruct (firstQty dst f); cbn; [lia|].
      rewrite firstQty_cons. cbn. rewrite decide_False by done. done.
Qed.

Lemma transferLoop_dst_qty (items src dst src' dst' : list Item) :
  transferLoop items src dst = Completed src' dst' ->
  ∀ f, default 0%Z (firstQty dst' f) = (default 0 (firstQty dst f) + taken items f)%Z.
Proof.
  revert src dst. induction items as [|it rest IH]; intros src dst; cbn.
  - intros [= <- <-] f. rewrite taken_nil. lia.
  - destruct (deduct src it) as [src1|]; [|done]. intros Hloop f.
    rewrite (IH _ _ Hloop), credit_qty, taken_cons. lia.
Qed.

Lemma onboardQty_stockOf (s : Store) (n : string) (d : Doc Truck) (f : DocId) :
  firstTruck (db_trucks s) n = Some d ->
  onboardQty s n f = default 0%Z (firstQty (stockOf d) f).
Proof.
  intros Hd. unfold onboardQty, onboardStock, stockOf. rewrite Hd. cbn.
  by destruct (stock (docData d)).
Qed.

(** The destination record is another document than the source's. *)
Lemma resolvedDest_other (w : World) (src dst : string) (srcData : Doc Truck) :
  src ≠ dst ->
  collOk (db_nextId (db w)) (db_trucks (db w)) ->
  firstTruck (db_trucks (db w)) src = Some srcData ->
  docId srcData ≠ docId (fst (resolvedDest w dst)) ∧
  (∀ f, onboardQty (db w) dst f =
        default 0%Z (firstQty (stockOf (fst (resolvedDest w dst))) f)) ∧
  NoDup (docId <$> db_trucks (db (snd (resolvedDest w dst)))) ∧
  ∀ n, n ≠ dst ->
       firstTruck (db_trucks (db (snd (resolvedDest w dst)))) n =
       firstTruck (db_trucks (db w)) n.
Proof.
  intros Hne [Hnd Hlt] Hsrc. unfold resolvedDest.
  apply firstTruck_elem in Hsrc as [Hin Hnum].
  destruct (firstTruck (db_trucks (db w)) dst) as [d|] eqn:Hd; cbn [fst snd].
  - split_and!; [|intros f; by apply onboardQty_stockOf|done|done].
    intros Hid. apply firstTruck_elem in Hd as [Hdin Hdnum].
    apply (docId_inj 0 _ _ _ Hnd Hin Hdin) in Hid. congruence.
  - split_and!.
    + rewrite Forall_forall in Hlt. specialize (Hlt _ Hin). cbn. lia.
    + intros f. unfold onboardQty, onboardStock. by rewrite Hd.
    + cbn. apply (collOk_add (db_nextId (db w))
                    (mkTruck dst None None None (Some []))). by split.
    + intros n Hn. cbn. rewrite firstTruck_app, firstTruck_cons.
      rewrite decide_False by (cbn; congruence).
      by destruct (firstTruck (db_trucks (db w)) n).
Qed.

Lemma credit_is_Some (dst : list Item) (it : Item) (f : DocId) :
  f = feedId it ∨ is_Some (firstQty dst f) -> is_Some (firstQty (credit dst it) f).
Proof.
  intros Hf.
  destruct (firstQty dst (feedId it)) as [q|] eqn:Hq.
  - rewrite credit_found by (by eapply firstQty_Some_elem).
    rewrite firstQty_addToFirst.
    destruct (decide (f = feedId it)) as [->|Hne].
    + rewrite Hq. by eexists.
    + destruct Hf as [?|[q' ->]]; [done | by eexists].
  - assert (Hnone : list_find (fun s => feedId s = feedId it) dst = None).
    { apply list_find_None. unfold firstQty in Hq.
      destruct (jsFind _ dst) eqn:E; [done|]. by apply jsFind_None in E. }
    unfold credit. rewrite Hnone, firstQty_app.
    destruct (firstQty dst f) as [q'|] eqn:Hq'; [by eexists|].
    destruct Hf as [->|[? ?]]; [|done].
    rewrite firstQty_cons. cbn. rewrite decide_True by done. by eexists.
Qed.

(** Every feed of the items has a line on the destination afterwards. *)
Lemma transferLoop_dst_lines (items src dst src' dst' : list Item) (f : DocId) :
  transferLoop items src dst = Completed src' dst' ->
  f ∈ feedId <$> items ∨ is_Some (firstQty dst f) ->
  is_Some (firstQty dst' f).
Proof.
  revert src dst. induction items as [|it rest IH]; intros src dst; cbn.
  - intros [= <- <-] [[]%elem_of_nil|?]; done.
  - destruct (deduct src it) as [src1|]; [|done]. intros Hloop Hf.
    apply (IH _ _ Hloop).
    destruct Hf as [[->|Hin]%elem_of_cons|Hsome].
    + right. apply credit_is_Some. by left.
    + by left.
    + right. apply credit_is_Some. by right.
Qed.

(** A transfer between two different trucks that passes validation. *)
Lemma transfer_completed (w : World) (cap : Snapshot) (src dst : string)
    (items : list Item) (srcData : Doc Truck) :
  src ≠ EmptyString -> dst ≠ EmptyString -> src ≠ dst -> items ≠ [] ->
  collOk (db_nextId (db w)) (db_trucks (db w)) ->
  firstTruck (db_trucks (db w)) src = Some srcData ->
  ¬ failsValidation (stockOf srcData) items ->
  ∃ w2 srcData2 dstData2,
    transferFromSourceToDest cap src dst items w = (Ok tt, w2) ∧
    collOk (db_nextId (db w2)) (db_trucks (db w2)) ∧
    firstTruck (db_trucks (db w2)) src = Some srcData2 ∧
    firstTruck (db_trucks (db w2)) dst = Some dstData2 ∧
    (∀ f, f ∈ feedId <$> items -> is_Some (firstQty (stockOf dstData2) f)) ∧
    (∀ f, onboardQty (db w2) src f = (onboardQty (db w) src f - taken items f)%Z) ∧
    (∀ f, onboardQty (db w2) dst f = (onboardQty (db w) dst f + taken items f)%Z) ∧
    (∀ n, n ≠ src -> n ≠ dst -> onboardStock (db w2) n = onboardStock (db w) n).
Proof.
  intros Hsrc Hdst Hne Hitems Hok Hfirst Hvalid.
  rewrite (transfer_unfold w cap src dst items srcData) by done.
  pose proof (resolvedDest_spec w dst) as Hres.
  pose proof (resolvedDest_other w src dst srcData Hne Hok Hfirst) as Hoth.
  assert (Hok1 : collOk (db_nextId (db (snd (resolvedDest w dst))))
                   (db_trucks (db (snd (resolvedDest w dst))))).
  { unfold resolvedDest. destruct (firstTruck (db_trucks (db w)) dst); [done|].
    cbn. by apply collOk_add. }
  destruct (resolvedDest w dst) as [destData w1]. cbn [fst snd] in Hoth, Hok1.
  destruct Hres as (Hdfirst & Hdin & Hkeep & Hsin & _).
  destruct Hoth as (Hids & Hdq & Hnd1 & Hothers).
  destruct (proj2 (transferLoop_Completed_iff items (stockOf srcData)
                     (stockOf destData)) Hvalid) as (s' & d' & Hloop).
  rewrite Hloop.
  destruct (persistTransfer_run src dst items srcData destData s' d' w1)
    as (w2 & Hrun & Htrucks & Htr & Hlogs & _); [|done|].
  { apply Hsin. by apply firstTruck_elem in Hfirst as [? _]. }
  assert (Hnext : db_nextId (db w1) <= db_nextId (db w2)).
  { revert Hrun. unfold persistTransfer, bind, updateDoc, addDoc, fetchAll, alert.
    cbn. repeat (destruct (hasDoc _ _); cbn; [|intros [=]]).
    intros [= <-]. cbn. lia. }
  rewrite Hrun.
  assert (Hs2 : firstTruck (db_trucks (db w2)) src =
                Some (mkDoc (docId srcData) (setStock s' (docData srcData)))).
  { rewrite Htrucks, !firstTruck_patch by apply setStock_truckNumber.
    rewrite (Hkeep _ _ Hfirst). cbn.
    rewrite (patchDoc_same (docId srcData)) by done.
    by rewrite patchDoc_other. }
  assert (Hd2 : firstTruck (db_trucks (db w2)) dst =
                Some (mkDoc (docId destData) (setStock d' (docData destData)))).
  { rewrite Htrucks, !firstTruck_patch by apply setStock_truckNumber.
    rewrite Hdfirst. cbn.
    rewrite (patchDoc_other (docId srcData)) by done.
    by rewrite patchDoc_same. }
  eexists w2, _, _. split_and!; [done | | exact Hs2 | exact Hd2 | | | |].
  - rewrite Htrucks. apply collOk_mono with (db_nextId (db w1)); [done|].
    by do 2 apply collOk_patch.
  - intros f Hf. unfold stockOf at 1. cbn.
    apply (transferLoop_dst_lines _ _ _ _ _ _ Hloop). by left.
  - intros f. rewrite (onboardQty_stockOf _ _ _ _ Hs2), (onboardQty_stockOf _ _ _ _ Hfirst).
    unfold stockOf at 1. cbn.
    destruct (transferLoop_src _ _ _ _ _ Hloop) as [_ Hq]. rewrite Hq.
    destruct (firstQty (stockOf srcData) f) as [q|] eqn:Hqf; [done|]. cbn.
    rewrite taken_not_elem; [done|].
    intros Hin. apply (valid_feeds_on_board _ _ _ Hvalid) in Hin as [? ?]. congruence.
  - intros f. rewrite (onboardQty_stockOf _ _ _ _ Hd2), Hdq.
    unfold stockOf at 1. cbn.
    by apply (transferLoop_dst_qty _ _ _ _ _ Hloop).
  - intros n Hn1 Hn2. unfold onboardStock.
    rewrite Htrucks, !firstTruck_patch by apply setStock_truckNumber.
    rewrite (Hothers n Hn2).
    destruct (firstTruck (db_trucks (db w)) n) as [d|] eqn:Hd; [|done]. cbn.
    assert (Hdn : firstTruck (db_trucks (db w1)) n = Some d)
      by (by rewrite (Hothers n Hn2)).
    apply firstTruck_elem in Hdn as [Hdin1 Hdnum].
    assert (Hsin1 : srcData ∈ db_trucks (db w1)).
    { apply Hsin. by apply firstTruck_elem in Hfirst as [? _]. }
    apply firstTruck_elem in Hfirst as [_ Hsnum].
    apply firstTruck_elem in Hdfirst as [_ Hdnum'].
    rewrite (patchDoc_other (docId srcData)).
    + rewrite patchDoc_other; [done|].
      intros Hid. apply (docId_inj 0 _ _ _ Hnd1 Hdin1 Hdin) in Hid. congruence.
    + intros Hid. apply (docId_inj 0 _ _ _ Hnd1 Hdin1 Hsin1) in Hid. congruence.
Qed.

(** X7: a completed transfer between two different trucks moves bags and
    loses none.  For every feed, the source truck ends with what it had
    minus what the items ask of that feed in total, the destination truck
    (created with empty stock when no truck had its number) ends with
    what it had plus the same amount, and the onboard stock of every
    other truck number is as before.  The code subtracts and adds item by
    item; the results are these totals because no item asks for a
    negative quantity and the quantities on board, before and after, are
    safe integers. *)
Theorem transfer_moves_stock (w : World) (cap : Snapshot) (src dst : string)
    (items : list Item) (srcData : Doc Truck) :
  src ≠ EmptyString -> dst ≠ EmptyString -> src ≠ dst -> items ≠ [] ->
  collOk (db_nextId (db w)) (db_trucks (db w)) ->
  firstTruck (db_trucks (db w)) src = Some srcData ->
  ¬ failsValidation (stockOf srcData) items ->
  Forall (fun it => (0 <= quantity it)%Z) items ->
  (∀ f, safeInteger (onboardQty (db w) src f)) ->
  (∀ f, safeInteger (onboardQty (db w) dst f)) ->
  (∀ f, safeInteger (onboardQty (db w) dst f + taken items f)) ->
  let after := db (snd (transferFromSourceToDest cap src dst items w)) in
  (∀ f, onboardQty after src f = (onboardQty (db w) src f - taken items f)%Z) ∧
  (∀ f, onboardQty after dst f = (onboardQty (db w) dst f + taken items f)%Z) ∧
  (∀ n, n ≠ src -> n ≠ dst -> onboardStock after n = onboardStock (db w) n).
Proof.
  intros Hsrc Hdst Hne Hitems Hok Hfirst Hvalid _ _ _ _. cbn zeta.
  destruct (transfer_completed w cap src dst items srcData)
    as (w2 & ? & ? & -> & _ & _ & _ & _ & Hs & Hd & Ho); done.
Qed.

(** "T1" holds 5 of [F1] and 4 of [F2], "T2" holds 1 of [F2]; 2 of [F1],
    3 of [F2] and 1 more of [F1] go from "T1" to "T2". *)
Lemma transfer_moves_stock_witness :
  let items := [mkItem F1 2; mkItem F2 3; mkItem F1 1] in
  let after := db (snd (started (fun cap =>
                          transferFromSourceToDest cap "T1" "T2" items) mixedTrucks)) in
  onboardQty after "T1" F1 = 2%Z ∧ onboardQty after "T1" F2 = 1%Z ∧
  onboardQty after "T2" F1 = 3%Z ∧ onboardQty after "T2" F2 = 4%Z.
Proof.
  cbn zeta. unfold started.
  assert (Hst1 : onboardStock (db mixedTrucks) "T1" = Some [mkItem F1 5; mkItem F2 4])
    by (vm_compute; reflexivity).
  assert (Hst2 : onboardStock (db mixedTrucks) "T2" = Some [mkItem F2 1])
    by (vm_compute; reflexivity).
  destruct (transfer_moves_stock mixedTrucks (ui mixedTrucks) "T1" "T2"
              [mkItem F1 2; mkItem F2 3; mkItem F1 1]
              (mkDoc 0 (mkTruck "T1" None None None (Some [mkItem F1 5; mkItem F2 4]))))
    as (Hs & Hd & _); [done | done | done | done | | vm_compute; reflexivity | ..].
  - split; apply (bool_decide_unpack _); vm_compute; reflexivity.
  - apply transferLoop_Completed_iff with (dst := []). vm_compute. eauto.
  - repeat constructor; cbn; lia.
  - intros f. unfold onboardQty. rewrite Hst1. cbn [mbind option_bind].
    rewrite !firstQty_cons, firstQty_nil. cbn [feedId quantity].
    repeat destruct (decide _); cbn; unfold safeInteger; lia.
  - intros f. unfold onboardQty. rewrite Hst2. cbn [mbind option_bind].
    rewrite !firstQty_cons, firstQty_nil. cbn [feedId quantity].
    repeat destruct (decide _); cbn; unfold safeInteger; lia.
  - intros f. unfold onboardQty. rewrite Hst2. cbn [mbind option_bind].
    rewrite !firstQty_cons, firstQty_nil, !taken_cons, taken_nil.
    cbn [feedId quantity].
    repeat destruct (decide _); cbn; unfold safeInteger; lia.
  - rewrite !Hs, !Hd. vm_compute. done.
Defined.

(** ** A transfer always answers *)

Lemma transfer_missing_field (w : World) (cap : Snapshot) (src dst : string)
    (items : list Item) :
  src = EmptyString ∨ dst = EmptyString ∨ items = [] ->
  transferFromSourceToDest cap src dst items w = alert FillRequiredFields w.
Proof.
  unfold transferFromSourceToDest, falsy.
  intros [->| [->| ->]]; cbn; [done | | ].
  - by destruct (bool_decide _).
  - by destruct (bool_decide _), (bool_decide _).
Qed.

Lemma transfer_unknown_source (w : World) (cap : Snapshot) (src dst : string)
    (items : list Item) :
  src ≠ EmptyString -> dst ≠ EmptyString -> items ≠ [] ->
  firstTruck (db_trucks (db w)) src = None ->
  transferFromSourceToDest cap src dst items w = alert SourceTruckNotFound w.
Proof.
  intros Hsrc Hdst Hitems Hnone.
  unfold transferFromSourceToDest, falsy.
  rewrite !bool_decide_eq_false_2 by done.
  destruct items as [|it0 items0]; [done|]. cbn [noLength orb].
  unfold bind at 1, getDocsWhere at 1. cbn [docsOf trucksC].
  pose proof (firstTruck_match (db_trucks (db w)) src) as Hm.
  destruct (filter _ (db_trucks (db w))); [done | congruence].
Qed.

(** X8: a direct transfer never fails with an exception, whatever the
    store holds, and ends with exactly one notification: fields missing,
    source truck not found, not enough of one of the items, or completed.
    In the first two cases nothing is written, not even a destination
    record. *)
Theorem transfer_always_answers (w : World) (cap : Snapshot) (src dst : string)
    (items : list Item) :
  let out := transferFromSourceToDest cap src dst items w in
  fst out = Ok tt ∧
  (∃ a, alerts (snd out) = alerts w ++ [a] ∧
        (a = FillRequiredFields ∨ a = SourceTruckNotFound ∨
         (∃ it, it ∈ items ∧
                a = NotEnoughInSourceTruck (feedNameOrId cap (feedId it))) ∨
         a = TransferCompleted)) ∧
  (src = EmptyString ∨ dst = EmptyString ∨ items = [] ->
   snd out = mkWorld (db w) (ui w) (alerts w ++ [FillRequiredFields])) ∧
  (src ≠ EmptyString -> dst ≠ EmptyString -> items ≠ [] ->
   firstTruck (db_trucks (db w)) src = None ->
   snd out = mkWorld (db w) (ui w) (alerts w ++ [SourceTruckNotFound])).
Proof.
  cbn zeta. split_and!.
  - destruct (decide (src = EmptyString ∨ dst = EmptyString ∨ items = [])) as [Hm|Hm].
    { by rewrite transfer_missing_field. }
    assert (src ≠ EmptyString ∧ dst ≠ EmptyString ∧ items ≠ [])
      as (Hsrc & Hdst & Hitems) by tauto.
    destruct (firstTruck (db_trucks (db w)) src) as [srcData|] eqn:Hfirst.
    2: { by rewrite transfer_unknown_source. }
    rewrite (transfer_unfold w cap src dst items srcData) by done.
    pose proof (resolvedDest_spec w dst) as Hres.
    destruct (resolvedDest w dst) as [destData w1].
    destruct Hres as (_ & Hdin & _ & Hsin & _).
    destruct (transferLoop items (stockOf srcData) (stockOf destData))
      as [item|s' d']; [done|].
    destruct (persistTransfer_run src dst items srcData destData s' d' w1)
      as (w2 & -> & _); [|done|done].
    apply Hsin. by apply firstTruck_elem in Hfirst as [? _].
  - destruct (decide (src = EmptyString ∨ dst = EmptyString ∨ items = [])) as [Hm|Hm].
    { rewrite transfer_missing_field by done. eexists. split; [done|]. by left. }
    assert (src ≠ EmptyString ∧ dst ≠ EmptyString ∧ items ≠ [])
      as (Hsrc & Hdst & Hitems) by tauto.
    destruct (firstTruck (db_trucks (db w)) src) as [srcData|] eqn:Hfirst.
    2: { rewrite transfer_unknown_source by done. eexists. split; [done|].
         right. by left. }
    rewrite (transfer_unfold w cap src dst items srcData) by done.
    pose proof (resolvedDest_spec w dst) as Hres.
    destruct (resolvedDest w dst) as [destData w1].
    destruct Hres as (_ & Hdin & _ & Hsin & _ & _ & _ & _ & _ & Hal).
    destruct (transferLoop items (stockOf srcData) (stockOf destData))
      as [item|s' d'] eqn:Hloop.
    + eexists. cbn. rewrite Hal. split; [done|]. right. right. left.
      exists item. split; [by eapply transferLoop_Returned_elem | done].
    + destruct (persistTransfer_run src dst items srcData destData s' d' w1)
        as (w2 & -> & _ & _ & _ & _ & _ & _ & Hal2); [|done|].
      { apply Hsin. by apply firstTruck_elem in Hfirst as [? _]. }
      eexists. cbn [snd]. rewrite Hal2, Hal. split; [done|]. by repeat right.
  - intros Hm. by rewrite transfer_missing_field.
  - intros Hsrc Hdst Hitems Hnone. by rewrite transfer_unknown_source.
Qed.

(** No truck is numbered "T9" in the registry of "T1" and "T2". *)
Lemma transfer_always_answers_witness :
  let out := started (fun cap =>
               transferFromSourceToDest cap "T9" "T3" [mkItem F1 1]) twoTrucks in
  snd out = mkWorld (db twoTrucks) (ui twoTrucks)
              (alerts twoTrucks ++ [SourceTruckNotFound]).
Proof.
  apply (transfer_always_answers twoTrucks (ui twoTrucks) "T9" "T3" [mkItem F1 1]);
    done.
Defined.

(** ** Two increases started from the same render *)



(** ** Movement records and onboard stock share the registry *)

#[global] Instance sameRegistry_refl : Reflexive sameRegistry.
Proof. by intros w. Qed.
#[global] Instance sameRegistry_trans : Transitive sameRegistry.
Proof. unfold sameRegistry. intros w1 w2 w3 H1 H2. congruence. Qed.

(** A movement with a truck number and an item appends its record to the
    registry, from any render and whether or not a later step fails. *)
Lemma submitTruckEntry_trucks (cap : Snapshot) (n ty dests : string)
    (its : list Item) (w : World) :
  n ≠ EmptyString -> its ≠ [] ->
  db_trucks (db (snd (submitTruckEntry cap n ty dests its w))) =
  db_trucks (db w) ++
    [mkDoc (db_nextId (db w))
       (mkTruck n (Some ty) (Some (parseDestinations dests)) (Some its) None)].
Proof.
  intros Hn Hits. rewrite submitTruckEntry_unfold by done.
  assert (Hk : keeps sameRegistry
                 (ledgerLoop cap ty its ;;
                  (let* _ := addDoc logsC
                     (LogTruckEntry n ty (parseDestinations dests) its) in
                   fetchAll ;; alert TruckEntrySaved))).
  { unfold ledgerLoop, tryDecrease, decreaseGodown, addOrIncreaseGodown.
    keeps_handler. }
  rewrite (Hk (movementRecorded w n ty dests its)). reflexivity.
Qed.

Lemma submitTruckEntry_storeOk (cap : Snapshot) (n ty dests : string)
    (its : list Item) :
  keeps (whenever storeOk) (submitTruckEntry cap n ty dests its).
Proof.
  unfold submitTruckEntry, tryDecrease, decreaseGodown, addOrIncreaseGodown.
  keeps_handler.
Qed.

(** An empty stock covers no item. *)
Lemma failsValidation_empty (items : list Item) :
  items ≠ [] -> failsValidation [] items.
Proof.
  destruct items as [|it rest]; [done|]. intros _.
  exists [], it, rest. split; [done|]. reflexivity.
Qed.

(** X10: the record of a truck movement is a truck for the two other
    functions.  After a movement of a truck number that was not in the
    registry, a direct transfer from that number finds the movement
    record, reads no stock on it and refuses with "not enough" (not with
    "source truck not found"); registering a load for the number creates
    no document but writes the stock on the movement record, which keeps
    its type, destinations and items. *)
Theorem movement_record_is_a_truck (w : World) (cap : Snapshot) (n ty dests : string)
    (its : list Item) :
  n ≠ EmptyString -> its ≠ [] -> storeOk w ->
  firstTruck (db_trucks (db w)) n = None ->
  let w1 := snd (submitTruckEntry cap n ty dests its w) in
  let record := mkTruck n (Some ty) (Some (parseDestinations dests)) (Some its) None in
  firstTruck (db_trucks (db w1)) n = Some (mkDoc (db_nextId (db w)) record) ∧
  (∀ cap' dst its', dst ≠ EmptyString -> its' ≠ [] ->
     ∃ it, it ∈ its' ∧
       alerts (snd (transferFromSourceToDest cap' n dst its' w1)) =
       alerts w1 ++ [NotEnoughInSourceTruck (feedNameOrId cap' (feedId it))]) ∧
  (∀ load, load ≠ [] ->
     let w2 := snd (registerSourceTruckLoad n load w1) in
     docId <$> db_trucks (db w2) = docId <$> db_trucks (db w1) ∧
     firstTruck (db_trucks (db w2)) n =
       Some (mkDoc (db_nextId (db w)) (setStock load record))).
Proof.
  intros Hn Hits Hok Hnone. cbn zeta.
  pose proof (submitTruckEntry_trucks cap n ty dests its w Hn Hits) as Htrucks.
  pose proof (submitTruckEntry_storeOk cap n ty dests its w Hok) as Hok1.
  set (w1 := snd (submitTruckEntry cap n ty dests its w)) in *.
  assert (Hfirst : firstTruck (db_trucks (db w1)) n =
                   Some (mkDoc (db_nextId (db w))
                           (mkTruck n (Some ty) (Some (parseDestinations dests))
                                    (Some its) None))).
  { rewrite Htrucks, firstTruck_app, Hnone, firstTruck_cons.
    by rewrite decide_True. }
  split_and!; [done | |].
  - intros cap' dst its' Hdst Hits'.
    destruct (transfer_refused w1 cap' n dst its' _ Hn Hdst Hits' Hfirst)
      as (it & Hin & ->).
    { by apply failsValidation_empty. }
    exists it. split; [done|].
    pose proof (resolvedDest_spec w1 dst) as Hres.
    destruct (resolvedDest w1 dst) as [destData w1'].
    destruct Hres as (_ & _ & _ & _ & _ & _ & _ & _ & _ & Hal).
    cbn. by rewrite Hal.
  - intros load Hload.
    destruct (registerLoad_once w1 n load Hn Hload) as (w2 & -> & _ & _ & Hcase & _).
    { apply Hok1. }
    rewrite Hfirst in Hcase. destruct Hcase as [Hf Hids]. done.
Qed.

(** From an empty store: the incoming movement of "TRK1", then a transfer
    from "TRK1", then a load registered for it. *)
Lemma movement_record_is_a_truck_witness :
  let w1 := snd (submitTruckEntry (ui emptyWorld) "TRK1" "incoming" "Pune, Nashik"
                   [mkItem F1 10] emptyWorld) in
  (∃ it, alerts (snd (transferFromSourceToDest (ui w1) "TRK1" "TRK2"
                        [mkItem F1 4] w1)) =
         alerts w1 ++ [NotEnoughInSourceTruck (feedNameOrId (ui w1) (feedId it))]) ∧
  length (db_trucks (db (snd (registerSourceTruckLoad "TRK1" [mkItem F1 10] w1)))) = 1.
Proof.
  cbn zeta.
  destruct (movement_record_is_a_truck emptyWorld (ui emptyWorld) "TRK1" "incoming"
              "Pune, Nashik" [mkItem F1 10]) as (_ & Htr & Hreg); [done | done | | done |].
  { unfold storeOk, collOk.
    split_and!; apply (bool_decide_unpack _); vm_compute; reflexivity. }
  split.
  - destruct (Htr (ui (snd (submitTruckEntry (ui emptyWorld) "TRK1" "incoming"
                              "Pune, Nashik" [mkItem F1 10] emptyWorld)))
                  "TRK2" [mkItem F1 4]) as (it & _ & Hal); [done | done |].
    by exists it.
  - destruct (Hreg [mkItem F1 10]) as [Hids _]; [done|].
    apply (f_equal length) in Hids. rewrite !length_fmap in Hids.
    rewrite Hids. reflexivity.
Defined.

(** ** Registering a load touches one truck *)

(** On the record that the query found, the patch of a registration
    changes the stock only. *)
Lemma registration_patch (l : list (Doc Truck)) (n : string) (docRef : Doc Truck)
    (its : list Item) :
  NoDup (docId <$> l) ->
  firstTruck l n = Some docRef ->
  patchDoc (docId docRef) (setTruckNumberAndStock n its) <$> l =
  patchDoc (docId docRef) (setStock its) <$> l.
Proof.
  intros Hnd [Hin Hnum]%firstTruck_elem.
  apply Forall_fmap_ext, Forall_forall. intros d Hd.
  unfold patchDoc. destruct (decide (docId d = docId docRef)) as [Hid|]; [|done].
  apply (docId_inj 0 _ _ _ Hnd Hd Hin) in Hid as ->.
  unfold setTruckNumberAndStock, setStock. by rewrite Hnum.
Qed.

(** X11: registering a load never fails with an exception and touches
    one truck.  Without a truck number or without items it writes
    nothing.  Otherwise the record of every other truck number is as
    before, in all its fields, and the snapshot is the new store. *)
Theorem registerLoad_touches_one_truck (w : World) (n : string) (its : list Item) :
  collOk (db_nextId (db w)) (db_trucks (db w)) ->
  let out := registerSourceTruckLoad n its w in
  fst out = Ok tt ∧
  (∀ m, m ≠ n ->
        firstTruck (db_trucks (db (snd out))) m = firstTruck (db_trucks (db w)) m) ∧
  (n = EmptyString ∨ its = [] ->
   snd out = mkWorld (db w) (ui w) (alerts w ++ [TruckAndItemsRequired])) ∧
  (n ≠ EmptyString -> its ≠ [] ->
   alerts (snd out) = alerts w ++ [SourceTruckLoadRegistered] ∧
   ui (snd out) = snapshotOf (db (snd out))).
Proof.
  intros Hok. cbn zeta.
  destruct (decide (n = EmptyString ∨ its = [])) as [Hm|Hm].
  { assert (Hrun : registerSourceTruckLoad n its w = alert TruckAndItemsRequired w).
    { unfold registerSourceTruckLoad, falsy.
      destruct Hm as [->| ->]; cbn; [done|]. by destruct (bool_decide _). }
    rewrite Hrun. split_and!; [done | done | done | tauto]. }
  assert (n ≠ EmptyString ∧ its ≠ []) as [Hn Hits] by tauto.
  assert (∃ w', registerSourceTruckLoad n its w = (Ok tt, w') ∧
                (∀ m, m ≠ n -> firstTruck (db_trucks (db w')) m =
                               firstTruck (db_trucks (db w)) m) ∧
                alerts w' = alerts w ++ [SourceTruckLoadRegistered] ∧
                ui w' = snapshotOf (db w')) as (w' & -> & Hothers & Hal & Hui).
  2: { cbn [fst snd]. split_and!; [done | done | tauto | done]. }
  unfold registerSourceTruckLoad, falsy.
  rewrite bool_decide_eq_false_2 by done.
  assert (noLength its = false) as -> by (by destruct its).
  cbn [orb]. rewrite numbered_id.
  unfold bind at 1, getDocsWhere at 1. cbn [docsOf trucksC].
  pose proof (firstTruck_match (db_trucks (db w)) n) as Hf.
  destruct (filter _ (db_trucks (db w))) as [|docRef rest].
  - cbn. eexists. split; [reflexivity|]. cbn. split_and!; [|done|done].
    intros m Hne. rewrite firstTruck_app, firstTruck_cons.
    rewrite decide_False by (cbn; congruence).
    by destruct (firstTruck (db_trucks (db w)) m).
  - assert (Hin : docRef ∈ db_trucks (db w)) by (by apply firstTruck_elem in Hf as [? _]).
    unfold bind. rewrite updateDoc_run by (by apply hasDoc_elem).
    cbn -[patchDoc]. eexists. split; [reflexivity|]. cbn -[patchDoc].
    split_and!; [|done|done].
    intros m Hne. rewrite (registration_patch _ _ _ _ (proj1 Hok) Hf).
    rewrite firstTruck_patch by apply setStock_truckNumber.
    destruct (firstTruck (db_trucks (db w)) m) as [d|] eqn:Hd; [|done]. cbn.
    rewrite patchDoc_other; [done|]. intros Hid.
    apply firstTruck_elem in Hd as [Hdin Hdnum].
    apply firstTruck_elem in Hf as [_ Hnum].
    apply (docId_inj 0 _ _ _ (proj1 Hok) Hdin Hin) in Hid. congruence.
Qed.

(** "T1" holds 5 of [F1] and "T2" 1 of [F2]; a load is registered for
    "T2". *)
Lemma registerLoad_touches_one_truck_witness :
  onboardStock (db (snd (registerSourceTruckLoad "T2" [mkItem F1 8] twoTrucks))) "T1" =
  Some [mkItem F1 5].
Proof.
  destruct (registerLoad_touches_one_truck twoTrucks "T2" [mkItem F1 8])
    as (_ & Hothers & _).
  { split; apply (bool_decide_unpack _); vm_compute; reflexivity. }
  unfold onboardStock. rewrite (Hothers "T1") by done. reflexivity.
Defined.

(** ** The snapshot after a handler *)

(** X12: a handler that is started from a render that knows the ledger
    leaves a render that knows the ledger: whether it completes, refuses
    or throws, the [godown] of the snapshot is the ledger of the store
    again, so that the next handler reads current quantities. *)
Theorem handlers_keep_ledger_snapshot (w : World) :
  godownSynced w ->
  (∀ f q, godownSynced (snd (started (fun cap => addOrIncreaseGodown cap f q) w))) ∧
  (∀ f q, godownSynced (snd (started (fun cap => decreaseGodown cap f q) w))) ∧
  (∀ truckNo ty dests its,
     godownSynced (snd (started (fun cap =>
                          submitTruckEntry cap truckNo ty dests its) w))) ∧
  (∀ feedObj q, godownSynced (snd (handleAddFeed feedObj q w))) ∧
  (∀ fid patch, godownSynced (snd (handleEditFeed fid patch w))) ∧
  (∀ fid, godownSynced (snd (started (fun cap => handleDeleteFeed cap fid) w))) ∧
  (∀ truckNo its, godownSynced (snd (registerSourceTruckLoad truckNo its w))) ∧
  (∀ src dst its,
     godownSynced (snd (started (fun cap =>
                          transferFromSourceToDest cap src dst its) w))).
Proof.
  intros Hsync. split_and!; intros.
  - by apply increase_synced.
  - by apply decrease_synced.
  - by apply submitTruckEntry_synced.
  - by apply addFeed_synced.
  - by apply editFeed_synced.
  - by apply deleteFeed_synced.
  - by apply registerLoad_synced.
  - by apply transfer_synced.
Qed.

(** A refused decrease and a completed movement, from a current render. *)
Lemma handlers_keep_ledger_snapshot_witness :
  godownSynced (snd (started (fun cap => decreaseGodown cap F2 1) tenOfF1)) ∧
  godownSynced (snd (started (fun cap =>
                       submitTruckEntry cap "TRK1" "incoming" "Pune"
                         [mkItem F1 2; mkItem F2 3]) tenOfF1)).
Proof.
  destruct (handlers_keep_ledger_snapshot tenOfF1) as (_ & Hdec & Hsub & _);
    [reflexivity|].
  split; [apply Hdec | apply Hsub].
Defined.

(** ** The catalog *)

Lemma filter_ext_elem {A} (P Q : A -> Prop) `{!∀ x, Decision (P x)}
    `{!∀ x, Decision (Q x)} (l : list A) :
  (∀ x, x ∈ l -> (P x <-> Q x)) -> filter P l = filter Q l.
Proof.
  induction l as [|x l IH]; intros Hext; [done|].
  rewrite !filter_cons.
  assert (Hl : filter P l = filter Q l).
  { apply IH. intros y Hy. apply Hext. by right. }
  destruct (decide (P x)) as [HP|HP], (decide (Q x)) as [HQ|HQ].
  - by rewrite Hl.
  - destruct HQ. by apply (Hext x); [left|].
  - destruct HP. by apply (Hext x); [left|].
  - done.
Qed.

Lemma filter_all {A} (P : A -> Prop) `{!∀ x, Decision (P x)} (l : list A) :
  (∀ x, P x) -> filter P l = l.
Proof.
  intros HP. induction l as [|x l IH]; [done|].
  rewrite filter_cons_True by done. by rewrite IH.
Qed.

Lemma jsFind_filter {A} (P Q : A -> Prop) `{!∀ x, Decision (P x)}
    `{!∀ x, Decision (Q x)} (l : list A) :
  (∀ x, P x -> Q x) -> jsFind P (filter Q l) = jsFind P l.
Proof.
  intros HPQ. induction l as [|x l IH]; [done|].
  rewrite filter_cons, (jsFind_cons P x l).
  destruct (decide (Q x)) as [HQ|HQ].
  - rewrite jsFind_cons. by rewrite IH.
  - rewrite decide_False by (intros HP; by apply HQ, HPQ). done.
Qed.

(** The loop of [handleDeleteFeed] removes the documents that carry one of
    the identifiers it is given, and nothing else. *)
Lemma deleteDocs_run (ds : list (Doc Item)) (w : World) :
  forOf ds (fun s => deleteDoc godownStockC (docId s)) w =
  (Ok tt,
   setDb (withDocs godownStockC
            (filter (fun d => docId d ∉ docId <$> ds) (db_godownStock (db w)))
            (db w)) w).
Proof.
  revert w. induction ds as [|d ds IH]; intros w.
  - cbn. rewrite filter_all by (intros x; apply not_elem_of_nil).
    by destruct w as [[] ? ?].
  - cbn [forOf]. unfold bind at 1, deleteDoc at 1. cbn -[forOf].
    rewrite IH. cbn.
    assert (filter (fun d0 : Doc Item => docId d0 ∉ docId <$> ds)
              (filter (fun d0 : Doc Item => docId d0 ≠ docId d)
                 (db_godownStock (db w))) =
            filter (fun d0 : Doc Item => docId d0 ∉ docId d :: (docId <$> ds))
              (db_godownStock (db w))) as ->; [|done].
    rewrite list_filter_filter. apply list_filter_iff. intros x.
    rewrite not_elem_of_cons. tauto.
Qed.

(** [handleDeleteFeed] from a render that knows the ledger. *)
Lemma deleteFeed_run (w : World) (fid : DocId) :
  godownSynced w ->
  NoDup (docId <$> db_godownStock (db w)) ->
  ∃ w',
    started (fun cap => handleDeleteFeed cap fid) w = (Ok tt, w') ∧
    db_feeds (db w') = filter (fun d => docId d ≠ fid) (db_feeds (db w)) ∧
    db_godownStock (db w') =
      filter (fun g => feedId (docData g) ≠ fid) (db_godownStock (db w)) ∧
    ui w' = snapshotOf (db w').
Proof.
  intros Hsync Hnd.
  assert (Hledger :
    filter (fun d => docId d ∉
                     docId <$> filter (fun g => feedId (docData g) = fid)
                                 (db_godownStock (db w)))
      (db_godownStock (db w)) =
    filter (fun g => feedId (docData g) ≠ fid) (db_godownStock (db w))).
  { apply filter_ext_elem. intros x Hx. split.
    - intros Hnot Hf. apply Hnot. apply list_elem_of_fmap. exists x.
      split; [done|]. by apply list_elem_of_filter.
    - intros Hf (y & Hid & [Hyf Hy]%list_elem_of_filter)%list_elem_of_fmap.
      apply (docId_inj 0 _ _ _ Hnd Hx Hy) in Hid as ->. done. }
  unfold started, handleDeleteFeed.
  unfold bind at 1, deleteDoc at 1. cbn -[forOf]. unfold bind at 1.
  rewrite deleteDocs_run. cbn. rewrite Hsync, Hledger.
  eexists. split; [reflexivity|]. done.
Qed.

(** X13: deleting a feed from a render that knows the ledger removes the
    feed from the catalog together with every ledger entry of that feed,
    and nothing else: the other feeds and the entries of the other feeds
    stay, with their quantities. *)
Theorem deleteFeed_cascades (w : World) (fid : DocId) :
  godownSynced w ->
  NoDup (docId <$> db_godownStock (db w)) ->
  let out := started (fun cap => handleDeleteFeed cap fid) w in
  fst out = Ok tt ∧
  db_feeds (db (snd out)) = filter (fun d => docId d ≠ fid) (db_feeds (db w)) ∧
  db_godownStock (db (snd out)) =
    filter (fun g => feedId (docData g) ≠ fid) (db_godownStock (db w)) ∧
  findFeed (ui (snd out)) fid = None ∧
  findGodown (db_godownStock (db (snd out))) fid = None ∧
  (∀ g, g ≠ fid ->
        findFeed (ui (snd out)) g = jsFind (fun d => docId d = g) (db_feeds (db w)) ∧
        findGodown (db_godownStock (db (snd out))) g =
          findGodown (db_godownStock (db w)) g).
Proof.
  intros Hsync Hnd. cbn zeta.
  destruct (deleteFeed_run w fid Hsync Hnd) as (w' & -> & Hfeeds & Hgod & Hui).
  cbn [fst snd]. unfold findFeed, findGodown. rewrite Hui. cbn [feeds snapshotOf].
  rewrite Hfeeds, Hgod.
  split_and!; [done | done | done | | |].
  - apply jsFind_None, Forall_forall. by intros x [? _]%list_elem_of_filter.
  - apply jsFind_None, Forall_forall. by intros x [? _]%list_elem_of_filter.
  - intros g Hg. split; apply jsFind_filter; intros x Hx; congruence.
Qed.

(** The ledger holds 20 of [F1] and 1 of [F2]; [F1] is deleted. *)
Lemma deleteFeed_cascades_witness :
  let out := started (fun cap => handleDeleteFeed cap F1) stocked in
  findGodown (db_godownStock (db (snd out))) F1 = None ∧
  godownQty (db_godownStock (db (snd out))) F2 = 1%Z ∧
  length (db_feeds (db (snd out))) = 2.
Proof.
  cbn zeta.
  destruct (deleteFeed_cascades stocked F1) as (_ & Hfeeds & _ & _ & Hnone & Hothers).
  - reflexivity.
  - apply (bool_decide_unpack _). vm_compute. reflexivity.
  - split_and!; [exact Hnone | | by rewrite Hfeeds].
    unfold godownQty. by rewrite (proj2 (Hothers F2 ltac:(done))).
Defined.




(** X15: editing a feed replaces the fields that the patch names on that
    feed and on no other; a patch without fields changes nothing in the
    catalog; the edit of an identifier that is not in the catalog throws
    and writes nothing, and the snapshot is not read again. *)
Theorem editFeed_patches_one_feed (w : World) (fid : DocId) (patch : FeedPatch) :
  let out := handleEditFeed fid patch w in
  let before := db_feeds (db w) in
  (∀ f, jsFind (fun d => docId d = fid) before = Some f ->
        fst out = Ok tt ∧
        findFeed (ui (snd out)) fid =
          Some (mkDoc fid (applyFeedPatch patch (docData f))) ∧
        (∀ g, g ≠ fid ->
              findFeed (ui (snd out)) g = jsFind (fun d => docId d = g) before) ∧
        docId <$> db_feeds (db (snd out)) = docId <$> before ∧
        (patch = mkFeedPatch None None None -> db_feeds (db (snd out)) = before)) ∧
  (jsFind (fun d => docId d = fid) before = None ->
   out = (Thrown DocumentNotFound, w)).
Proof.
  cbn zeta. split.
  - intros f Hf. destruct (jsFind_Some_elem _ _ _ Hf) as [Hin Hid].
    unfold handleEditFeed, bind.
    rewrite updateDoc_run by (rewrite <- Hid; by apply hasDoc_elem).
    cbn -[patchDoc]. unfold findFeed. cbn -[patchDoc].
    assert (Hfind : ∀ g, jsFind (fun d : Doc Feed => docId d = g)
                           (patchDoc fid (applyFeedPatch patch) <$> db_feeds (db w)) =
                         patchDoc fid (applyFeedPatch patch) <$>
                           jsFind (fun d : Doc Feed => docId d = g) (db_feeds (db w))).
    { intros g. apply jsFind_fmap_keep. intros x. by rewrite patchDoc_id. }
    split_and!; [done | | | apply patch_ids |].
    + rewrite Hfind, Hf. cbn. rewrite patchDoc_same by done. by rewrite Hid.
    + intros g Hg. rewrite Hfind.
      destruct (jsFind (fun d0 : Doc Feed => docId d0 = g) (db_feeds (db w)))
        as [d|] eqn:Hd; [|done]. cbn.
      apply jsFind_Some_elem in Hd as [_ Hdid].
      rewrite patchDoc_other by congruence. done.
    + intros ->. rewrite <- (list_fmap_id (db_feeds (db w))) at 2.
      apply Forall_fmap_ext, Forall_forall. intros [i [? ? ?]] _.
      unfold patchDoc. by destruct (decide _).
  - intros Hnone. unfold handleEditFeed, bind, updateDoc. cbn.
    assert (hasDoc fid (db_feeds (db w)) = false) as ->; [|done].
    apply bool_decide_eq_false. intros (d & -> & Hd)%list_elem_of_fmap.
    apply jsFind_None in Hnone. rewrite Forall_forall in Hnone.
    by apply (Hnone d).
Qed.

(** The price of [F1] is changed; feed 7 is not in the catalog. *)
Lemma editFeed_patches_one_feed_witness :
  (price ∘ docData <$>
     findFeed (ui (snd (handleEditFeed F1 (mkFeedPatch None None (Some 1500%Z)) catalog)))
       F1) = Some 1500%Z ∧
  handleEditFeed 7 (mkFeedPatch None None (Some 1500%Z)) catalog =
    (Thrown DocumentNotFound, catalog).
Proof.
  destruct (editFeed_patches_one_feed catalog F1 (mkFeedPatch None None (Some 1500%Z)))
    as [Hsome _].
  destruct (editFeed_patches_one_feed catalog 7 (mkFeedPatch None None (Some 1500%Z)))
    as [_ Hnone].
  split; [|by apply Hnone].
  destruct (Hsome (mkDoc F1 (mkFeed "Nutriva 2mm" "Fish Feed Nutriva" 1450)) eq_refl)
    as (_ & -> & _). reflexivity.
Defined.

(** ** What the list of a form holds *)

Lemma taken_app (l1 l2 : list Item) (f : DocId) :
  taken (l1 ++ l2) f = (taken l1 f + taken l2 f)%Z.
Proof.
  induction l1 as [|it l1 IH]; [by rewrite taken_nil|].
  rewrite <- app_comm_cons, !taken_cons, IH. lia.
Qed.







(** ** The destinations of a movement *)

Lemma chars_rev_app (s1 s2 : string) :
  list_ascii_of_string (String.rev_app s1 s2) =
  reverse (list_ascii_of_string s1) ++ list_ascii_of_string s2.
Proof.
  revert s2. induction s1 as [|c s1 IH]; intros s2; [done|].
  cbn [String.rev_app list_ascii_of_string].
  rewrite IH, reverse_cons, <- app_assoc. done.
Qed.

Lemma chars_rev (s : string) :
  list_ascii_of_string (String.rev s) = reverse (list_ascii_of_string s).
Proof. unfold String.rev. by rewrite chars_rev_app, app_nil_r. Qed.

(** [trimStart] drops a prefix and stops at a character that is no white
    space. *)
Lemma trimStart_chars (s : string) :
  (∃ pre, list_ascii_of_string s = pre ++ list_ascii_of_string (trimStart s)) ∧
  ∀ c, head (list_ascii_of_string (trimStart s)) = Some c -> isSpace c = false.
Proof.
  induction s as [|a s [[pre Hpre] Hhead]].
  - split; [by exists [] | done].
  - cbn [trimStart]. destruct (isSpace a) eqn:Ha.
    + split; [|done]. exists (a :: pre). cbn. by rewrite Hpre.
    + split; [by exists []|]. cbn. by intros c [= <-].
Qed.

(** What [trim] returns: a part of the string, with no white space at
    either end. *)
Lemma trim_chars (s : string) :
  (∃ pre post, list_ascii_of_string s = pre ++ list_ascii_of_string (trim s) ++ post) ∧
  (∀ c, head (list_ascii_of_string (trim s)) = Some c -> isSpace c = false) ∧
  (∀ c, last (list_ascii_of_string (trim s)) = Some c -> isSpace c = false).
Proof.
  unfold trim.
  destruct (trimStart_chars s) as [[pre Hpre] Hhead].
  destruct (trimStart_chars (String.rev (trimStart s))) as [[pre' Hpre'] Hhead'].
  set (v := trimStart (String.rev (trimStart s))) in *.
  rewrite chars_rev in Hpre'.
  assert (Hu : list_ascii_of_string (trimStart s) =
               reverse (list_ascii_of_string v) ++ reverse pre').
  { rewrite <- reverse_app, <- Hpre'. by rewrite reverse_involutive. }
  rewrite chars_rev. split_and!.
  - exists pre, (reverse pre'). by rewrite Hpre, Hu.
  - intros c Hc. apply Hhead. rewrite Hu, head_app. by rewrite Hc.
  - intros c Hc. apply Hhead'. by rewrite <- last_reverse.
Qed.

Lemma splitComma_cons (s : string) : ∃ h t, splitComma s = h :: t.
Proof.
  induction s as [|c s (h & t & IH)]; [by eexists _, _|].
  cbn. destruct (decide (c = ","%char)); [by eexists _, _|].
  rewrite IH. by eexists _, _.
Qed.

(** No segment of [split(",")] holds a comma. *)
Lemma splitComma_no_comma (s : string) :
  Forall (fun seg => ","%char ∉ list_ascii_of_string seg) (splitComma s).
Proof.
  induction s as [|c s IH].
  - repeat constructor. apply not_elem_of_nil.
  - cbn. destruct (decide (c = ","%char)) as [->|Hc].
    + constructor; [apply not_elem_of_nil | done].
    + destruct (splitComma s) as [|h t]; [repeat constructor|].
      * cbn. by intros [?|[]%elem_of_nil]%elem_of_cons.
      * apply Forall_cons in IH as [Hh Ht]. constructor; [|done].
        cbn. intros [?|?]%elem_of_cons; done.
Qed.

Lemma splitComma_app (a b : string) :
  splitComma (a +:+ ("," +:+ b)) = splitComma a ++ splitComma b.
Proof.
  induction a as [|c a IH]; [done|].
  change (String c a +:+ ("," +:+ b)) with (String c (a +:+ ("," +:+ b))).
  cbn [splitComma]. rewrite IH.
  destruct (decide (c = ","%char)); [done|].
  by destruct (splitComma_cons a) as (h & t & ->).
Qed.

(** The test on the empty string changes nothing. *)
Lemma parseDestinations_unfold (s : string) :
  parseDestinations s = filter (fun d => d ≠ EmptyString) (trim <$> splitComma s).
Proof.
  unfold parseDestinations, falsy. destruct (decide (s = EmptyString)) as [->|Hs].
  - reflexivity.
  - by rewrite bool_decide_eq_false_2.
Qed.

(** X20: the destinations that a movement stores.  None is empty, none
    holds a comma, and none starts or ends with a blank, a tab or a line
    break. *)
Theorem parseDestinations_clean (s : string) :
  Forall (fun d =>
            d ≠ EmptyString ∧
            (","%char ∉ list_ascii_of_string d) ∧
            (∀ c, head (list_ascii_of_string d) = Some c -> isSpace c = false) ∧
            (∀ c, last (list_ascii_of_string d) = Some c -> isSpace c = false))
         (parseDestinations s).
Proof.
  rewrite parseDestinations_unfold. apply Forall_forall.
  intros d [Hne (seg & -> & Hseg)%list_elem_of_fmap]%list_elem_of_filter.
  destruct (trim_chars seg) as ((pre & post & Hpart) & Hhead & Hlast).
  split_and!; [done | | done | done].
  pose proof (splitComma_no_comma s) as Hno. rewrite Forall_forall in Hno.
  intros Hin. apply (Hno seg Hseg). rewrite Hpart.
  apply elem_of_app. right. apply elem_of_app. by left.
Qed.

(** X21: destinations are read segment by segment: the destinations of
    two texts joined by a comma are the destinations of the first
    followed by those of the second, also when one of them is empty or
    blank. *)
Theorem parseDestinations_comma (a b : string) :
  parseDestinations (a +:+ ("," +:+ b)) = parseDestinations a ++ parseDestinations b.
Proof.
  rewrite !parseDestinations_unfold, splitComma_app, fmap_app, filter_app. done.
Qed.

(** ** A transfer and the transfer back *)

Lemma taken_nonneg (items : list Item) (f : DocId) :
  Forall (fun it => (0 <= quantity it)%Z) items -> (0 <= taken items f)%Z.
Proof.
  induction 1 as [|it items Hit _ IH]; [by rewrite taken_nil|].
  rewrite taken_cons. destruct (decide (feedId it = f)); lia.
Qed.

(** Items without negative quantities pass validation on a stock that
    holds, of every feed, what they ask of it in total. *)
Lemma valid_when_enough (st items : list Item) :
  Forall (fun it => (0 <= quantity it)%Z) items ->
  (∀ f, f ∈ feedId <$> items ->
        ∃ q, firstQty st f = Some q ∧ (taken items f <= q)%Z) ->
  ¬ failsValidation st items.
Proof.
  intros Hpos Henough (pre & item & post & -> & Hfail).
  destruct (Henough (feedId item)) as (q & Hq & Hle).
  { rewrite fmap_app, fmap_cons. apply elem_of_app. right. by left. }
  rewrite Hq in Hfail.
  rewrite taken_app, taken_cons, decide_True in Hle by done.
  apply Forall_app in Hpos as [_ Hpos]. apply Forall_cons in Hpos as [_ Hpost].
  pose proof (taken_nonneg post (feedId item) Hpost). lia.
Qed.

(** X22: a transfer and the transfer back.  After a completed transfer
    from one truck to another, the transfer of the same items in the
    other direction completes too, and both trucks hold of every feed
    what they held at the start.  The items ask for no negative quantity
    and the destination held no negative quantity; the additions and
    subtractions of the code, item by item, are exact because the
    quantities on board, at the start and after the first transfer, are
    safe integers. *)
Theorem transfer_there_and_back (w : World) (cap cap' : Snapshot) (src dst : string)
    (items : list Item) (srcData : Doc Truck) :
  src ≠ EmptyString -> dst ≠ EmptyString -> src ≠ dst -> items ≠ [] ->
  collOk (db_nextId (db w)) (db_trucks (db w)) ->
  firstTruck (db_trucks (db w)) src = Some srcData ->
  ¬ failsValidation (stockOf srcData) items ->
  Forall (fun it => (0 <= quantity it)%Z) items ->
  (∀ f, (0 <= onboardQty (db w) dst f)%Z) ->
  (∀ f, safeInteger (onboardQty (db w) src f)) ->
  (∀ f, safeInteger (onboardQty (db w) dst f + taken items f)) ->
  let w1 := snd (transferFromSourceToDest cap src dst items w) in
  let out := transferFromSourceToDest cap' dst src items w1 in
  fst out = Ok tt ∧
  ∀ f, onboardQty (db (snd out)) src f = onboardQty (db w) src f ∧
       onboardQty (db (snd out)) dst f = onboardQty (db w) dst f.
Proof.
  intros Hsrc Hdst Hne Hitems Hok Hfirst Hvalid Hpos Hdpos _ _. cbn zeta.
  destruct (transfer_completed w cap src dst items srcData)
    as (w1 & s1 & d1 & -> & Hok1 & Hs1 & Hd1 & Hlines & Hqs & Hqd & _); try done.
  cbn [snd].
  destruct (transfer_completed w1 cap' dst src items d1)
    as (w2 & s2 & d2 & -> & _ & _ & _ & _ & Hqd2 & Hqs2 & _); try done.
  - apply valid_when_enough; [done|]. intros f Hf.
    destruct (Hlines f Hf) as [q Hq]. exists q. split; [done|].
    pose proof (Hqd f) as Hback.
    rewrite (onboardQty_stockOf _ _ _ _ Hd1), Hq in Hback. cbn in Hback.
    specialize (Hdpos f). lia.
  - cbn [fst snd]. split; [done|]. intros f.
    rewrite Hqs2, Hqs, Hqd2, Hqd. lia.
Qed.

(** "T1" holds 5 of [F1] and 4 of [F2], "T2" holds 1 of [F2]; 2 of [F1]
    and 3 of [F2] go from "T1" to "T2" and back. *)
Lemma transfer_there_and_back_witness :
  let items := [mkItem F1 2; mkItem F2 3] in
  let w1 := snd (started (fun cap =>
                   transferFromSourceToDest cap "T1" "T2" items) mixedTrucks) in
  let out := started (fun cap => transferFromSourceToDest cap "T2" "T1" items) w1 in
  fst out = Ok tt ∧
  onboardQty (db (snd out)) "T1" F1 = 5%Z ∧ onboardQty (db (snd out)) "T2" F2 = 1%Z.
Proof.
  cbn zeta. unfold started.
  assert (Hst1 : onboardStock (db mixedTrucks) "T1" = Some [mkItem F1 5; mkItem F2 4])
    by (vm_compute; reflexivity).
  assert (Hst2 : onboardStock (db mixedTrucks) "T2" = Some [mkItem F2 1])
    by (vm_compute; reflexivity).
  destruct (transfer_there_and_back mixedTrucks (ui mixedTrucks)
              (ui (snd (transferFromSourceToDest (ui mixedTrucks) "T1" "T2"
                          [mkItem F1 2; mkItem F2 3] mixedTrucks)))
              "T1" "T2" [mkItem F1 2; mkItem F2 3]
              (mkDoc 0 (mkTruck "T1" None None None (Some [mkItem F1 5; mkItem F2 4]))))
    as (Hrun & Hq); [done | done | done | done | | vm_compute; reflexivity | ..].
  - split; apply (bool_decide_unpack _); vm_compute; reflexivity.
  - apply transferLoop_Completed_iff with (dst := []). vm_compute. eauto.
  - repeat constructor; cbn; lia.
  - intros f. unfold onboardQty. rewrite Hst2. cbn [mbind option_bind].
    rewrite !firstQty_cons, firstQty_nil. cbn [feedId quantity].
    repeat destruct (decide _); cbn; lia.
  - intros f. unfold onboardQty. rewrite Hst1. cbn [mbind option_bind].
    rewrite !firstQty_cons, firstQty_nil. cbn [feedId quantity].
    repeat destruct (decide _); cbn; unfold safeInteger; lia.
  - intros f. unfold onboardQty. rewrite Hst2. cbn [mbind option_bind].
    rewrite !firstQty_cons, firstQty_nil, !taken_cons, taken_nil.
    cbn [feedId quantity].
    repeat destruct (decide _); cbn; unfold safeInteger; lia.
  - split_and!; [exact Hrun | |].
    + rewrite (proj1 (Hq F1)). vm_compute. reflexivity.
    + rewrite (proj2 (Hq F2)). vm_compute. reflexivity.
Defined.

(** ** A movement from a render that is out of date *)

Lemma forOf_app {A} (l1 l2 : list A) (body : A -> M unit) (w : World) :
  forOf (l1 ++ l2) body w = (forOf l1 body ;; forOf l2 body) w.
Proof.
  revert w. induction l1 as [|x l1 IH]; intros w; [done|].
  cbn [app forOf]. unfold bind.
  destruct (body x w) as [[[]|err] w1]; [|done].
  rewrite IH. reflexivity.
Qed.

(** The increases of a loop whose entries, where the render shows one,
    are in the store: they complete, and a document that is not in the
    ledger is not in it afterwards. *)
Lemma incoming_loop_missing (cap : Snapshot) (pre : list Item) (i : DocId) (w : World) :
  hasDoc i (db_godownStock (db w)) = false ->
  i < db_nextId (db w) ->
  (∀ it e', it ∈ pre -> findGodown (godown cap) (feedId it) = Some e' ->
            hasDoc (docId e') (db_godownStock (db w)) = true) ->
  ∃ w',
    forOf pre (fun it => addOrIncreaseGodown cap (feedId it) (quantity it)) w =
      (Ok tt, w') ∧
    ledgerOnly w w' ∧ alerts w' = alerts w ∧
    hasDoc i (db_godownStock (db w')) = false.
Proof.
  revert w. induction pre as [|it pre IH]; intros w Hi Hlt Hpre.
  - exists w. split_and!; [done | apply ledgerOnly_refl | done | done].
  - cbn [forOf]. unfold bind at 1, addOrIncreaseGodown at 1.
    destruct (findGodown (godown cap) (feedId it)) as [e'|] eqn:Hfind.
    + unfold bind at 1.
      rewrite updateDoc_run by (apply (Hpre it e'); [by left | done]).
      cbn -[patchDoc forOf].
      match goal with |- context [forOf pre _ ?w1] =>
        destruct (IH w1) as (w' & Hrun & Hframe & Hal & Hi');
          [| | | rewrite Hrun; exists w'; split_and!; [done | | done | done]]
      end.
      * cbn -[patchDoc]. by rewrite hasDoc_patch.
      * done.
      * intros it2 e2 Hin2 Hf2. cbn -[patchDoc]. rewrite hasDoc_patch.
        apply (Hpre it2 e2); [by right | done].
      * eapply ledgerOnly_trans; [|exact Hframe]. by split_and!.
    + unfold bind at 1 2, addDoc at 1, ret, fetchAll at 1. cbn -[forOf].
      match goal with |- context [forOf pre _ ?w1] =>
        destruct (IH w1) as (w' & Hrun & Hframe & Hal & Hi');
          [| | | rewrite Hrun; exists w'; split_and!; [done | | done | done]]
      end.
      * cbn. rewrite hasDoc_app, Hi. cbn.
        apply bool_decide_eq_false. cbn. intros [?|[]%elem_of_nil]%elem_of_cons. lia.
      * cbn. lia.
      * intros it2 e2 Hin2 Hf2. cbn. rewrite hasDoc_app.
        rewrite (Hpre it2 e2); [done | by right | done].
      * eapply ledgerOnly_trans; [|exact Hframe]. by split_and!.
Qed.

(** X23: an incoming movement is not undone when it fails.  When the
    render still shows, for one of the items, a ledger entry that the
    store no longer has (the feed was deleted in between), the increase
    of that entry throws and the handler ends there.  The movement record
    has been written by then, and it stays; the ledger has received the
    increases of the items before that item, and of no other (it is as it
    was when that item is the first); no log entry and no notification
    are written. *)
Theorem incoming_movement_half_written (w : World) (cap : Snapshot)
    (truckNo dests : string) (pre : list Item) (f : DocId) (q : Z)
    (rest : list Item) (e : Doc Item) :
  truckNo ≠ EmptyString ->
  findGodown (godown cap) f = Some e ->
  hasDoc (docId e) (db_godownStock (db w)) = false ->
  docId e < db_nextId (db w) ->
  (∀ it e', it ∈ pre -> findGodown (godown cap) (feedId it) = Some e' ->
            hasDoc (docId e') (db_godownStock (db w)) = true) ->
  let its := pre ++ mkItem f q :: rest in
  let out := submitTruckEntry cap truckNo "incoming" dests its w in
  let increases l :=
    forOf l (fun it => addOrIncreaseGodown cap (feedId it) (quantity it)) in
  fst out = Thrown DocumentNotFound ∧
  db_trucks (db (snd out)) =
    db_trucks (db w) ++
      [mkDoc (db_nextId (db w))
         (mkTruck truckNo (Some "incoming") (Some (parseDestinations dests))
                  (Some its) None)] ∧
  db_godownStock (db (snd out)) =
    db_godownStock
      (db (snd (increases pre (movementRecorded w truckNo "incoming" dests its)))) ∧
  (pre = [] -> db_godownStock (db (snd out)) = db_godownStock (db w)) ∧
  db_logs (db (snd out)) = db_logs (db w) ∧
  alerts (snd out) = alerts w.
Proof.
  intros Hn Hfind Hgone Hlt Hpre. cbn zeta.
  set (its := pre ++ mkItem f q :: rest).
  set (w0 := movementRecorded w truckNo "incoming" dests its).
  destruct (incoming_loop_missing cap pre (docId e) w0)
    as (w' & Hrun & (_ & Htrucks & _ & Hlogs) & Hal & Hgone'); [done | cbn; lia | done |].
  assert (submitTruckEntry cap truckNo "incoming" dests its w =
          (Thrown DocumentNotFound, w')) as ->.
  { rewrite submitTruckEntry_unfold by (done || by destruct pre).
    unfold ledgerLoop. rewrite decide_True by done.
    fold w0. unfold its at 1. unfold bind at 1. rewrite forOf_app.
    unfold bind at 1. rewrite Hrun.
    cbn [forOf]. unfold bind at 1, addOrIncreaseGodown at 1. cbn [feedId quantity].
    rewrite Hfind. unfold bind at 1, updateDoc at 1. cbn zeta.
    cbn [docsOf godownStockC]. by rewrite Hgone'. }
  rewrite Hrun. cbn [fst snd].
  split_and!; [done | by rewrite Htrucks | done | | by rewrite Hlogs | by rewrite Hal].
  intros ->. cbn in Hrun. by injection Hrun as <-.
Qed.

(** The render shows 10 of [F1]; the feed is deleted; a movement of 2 of
    [F2] and 5 of [F1] is submitted from the render of before. *)
Lemma incoming_movement_half_written_witness :
  let gone := snd (started (fun cap => handleDeleteFeed cap F1) tenOfF1) in
  let out := submitTruckEntry (ui tenOfF1) "TRK1" "incoming" "Pune"
               [mkItem F2 2; mkItem F1 5] gone in
  fst out = Thrown DocumentNotFound ∧
  length (db_trucks (db (snd out))) = 1 ∧
  docData <$> db_godownStock (db (snd out)) = [mkItem F2 2] ∧
  db_logs (db (snd out)) = [].
Proof.
  cbn zeta.
  destruct (incoming_movement_half_written
              (snd (started (fun cap => handleDeleteFeed cap F1) tenOfF1))
              (ui tenOfF1) "TRK1" "Pune" [mkItem F2 2] F1 5 []
              (mkDoc 3 (mkItem F1 10)))
    as (Hthrown & Htrucks & Hgod & _ & Hlogs & _).
  - done.
  - vm_compute. reflexivity.
  - vm_compute. reflexivity.
  - vm_compute. lia.
  - intros it e' [->|[]%elem_of_nil]%elem_of_cons Hf. vm_compute in Hf. discriminate.
  - cbn [app] in Hthrown, Htrucks, Hgod, Hlogs.
    split_and!; [exact Hthrown | by rewrite Htrucks | | by rewrite Hlogs].
    rewrite Hgod. vm_compute. reflexivity.
Defined.
